(** * gemini-review: the review-result pipeline of [scripts/gemini_review.py]

    A shallow embedding of the pure core of the script
    ([calculate_thinking_level], [parse_json_response], the grouping done by
    [format_interactive_output], and the file collection of [review_code]),
    together with the properties its specification states about them.

    Conventions.
    - A Python [str] is a sequence of Unicode code points: [text] is
      [list N], one number per code point.  ASCII literals are written with
      [of_string].
    - A value decoded by [json.loads] is a [json]; a Python [dict] with
      string keys is a [gmap text json] (Python compares dicts without regard
      to insertion order, which is the equality of [gmap]).
    - Python exceptions are explicit: a computation is an [outcome], either
      [Ok v] or [Raise e], threaded with the bind notation [x ← c; k]. *)

From Stdlib Require Import ZArith NArith QArith Qminmax String Ascii List Lia.
From stdpp Require Import base option list gmap pretty.

Set Warnings "-register-all".
#[local] Open Scope list_scope.

(** ** Text *)

Definition char := N.
Abbreviation text := (list N).

Definition of_string (s : string) : text :=
  map N_of_ascii (list_ascii_of_string s).

Definition chr (a : ascii) : char := N_of_ascii a.

(** [Py_UNICODE_ISSPACE]: the predicate behind both [str.strip()] and the
    regular-expression class [\s] on [str] patterns. *)
Definition is_space (c : char) : bool :=
  ((9 <=? c) && (c <=? 13) || (28 <=? c) && (c <=? 32)
   || (c =? 133) || (c =? 160) || (c =? 5760)
   || (8192 <=? c) && (c <=? 8202)
   || (c =? 8232) || (c =? 8233) || (c =? 8239) || (c =? 8287)
   || (c =? 12288))%N.

Definition char_eqb (a b : char) : bool := N.eqb a b.

Definition c_newline : char := 10%N.

Fixpoint text_eqb (a b : text) : bool :=
  match a, b with
  | [], [] => true
  | x :: a', y :: b' => char_eqb x y && text_eqb a' b'
  | _, _ => false
  end.

(** [s.startswith(p)] *)
Fixpoint starts_with (p s : text) : bool :=
  match p, s with
  | [], _ => true
  | x :: p', y :: s' => char_eqb x y && starts_with p' s'
  | _ :: _, [] => false
  end.

(** [p in s] for two strings: [p] occurs at some offset of [s]. *)
Fixpoint is_substring (p s : text) : bool :=
  starts_with p s ||
  match s with
  | [] => false
  | _ :: s' => is_substring p s'
  end.

(** [s.count(p)] for a non-empty [p]: occurrences counted left to right
    without overlap.  [skip] is the number of characters still covered by
    the occurrence found last. *)
Fixpoint count_from (p s : text) (skip : nat) : nat :=
  match s with
  | [] => 0
  | _ :: s' =>
      match skip with
      | S k => count_from p s' k
      | O => if starts_with p s
             then S (count_from p s' (length p - 1))
             else count_from p s' 0
      end
  end.

Definition str_count (p s : text) : nat := count_from p s 0.

(** [s.lstrip()], [s.rstrip()], [s.strip()] *)
Fixpoint lstrip (s : text) : text :=
  match s with
  | c :: s' => if is_space c then lstrip s' else s
  | [] => []
  end.

Fixpoint rstrip (s : text) : text :=
  match s with
  | [] => []
  | c :: s' => if forallb is_space s then [] else c :: rstrip s'
  end.

Definition strip (s : text) : text := rstrip (lstrip s).

(** Decimal rendering of a non-negative integer, [str(n)]. *)
Definition str_of_nat (n : nat) : text := of_string (pretty (N.of_nat n)).

(** [sep.join(parts)] *)
Fixpoint join (sep : text) (parts : list text) : text :=
  match parts with
  | [] => []
  | [p] => p
  | p :: rest => p ++ sep ++ join sep rest
  end.

(** [s.split('\n')]: always at least one piece. *)
Fixpoint split_lines (s : text) : list text :=
  match s with
  | [] => [[]]
  | c :: s' =>
      match split_lines s' with
      | l :: ls => if char_eqb c c_newline then [] :: l :: ls else (c :: l) :: ls
      | [] => [[c]]
      end
  end.

(** ** Python values and exceptions *)

Inductive json :=
| JNull
| JBool (b : bool)
| JInt (z : Z)
| JFloat (lexeme : text)
| JStr (s : text)
| JArr (l : list json)
| JObj (m : gmap text json).

(** The exceptions the pipeline can meet.  A [JSONDecodeError] carries the
    decoder's message, the document and the offset of the error.
    [BudgetExhausted] is no exception of Python: it stands for the end of
    the recursion budget of the model of the decoder, which no call reaches
    (lemma [json_loads_budget] below). *)
Inductive exn :=
| TypeError
| AttributeError
| KeyError (k : text)
| RecursionError
| ValueError
| BudgetExhausted
| JSONDecodeError (msg doc : text) (pos : nat).

Inductive outcome (A : Type) :=
| Ok (a : A)
| Raise (e : exn).
Arguments Ok {A} a.
Arguments Raise {A} e.

(** The error monad of Python control flow; [x ← c; k] is stdpp's notation
    for [mbind]. *)
#[global] Instance outcome_ret : MRet outcome := fun A a => Ok a.
#[global] Instance outcome_bind : MBind outcome := fun A B k c =>
  match c with
  | Ok a => k a
  | Raise e => Raise e
  end.

(** [v == s] for a decoded value [v] and a string [s]. *)
Definition eq_str (v : json) (s : text) : bool :=
  match v with
  | JStr s' => text_eqb s' s
  | _ => false
  end.

(** [key in container] *)
Definition py_contains (key : text) (container : json) : outcome bool :=
  match container with
  | JObj m => Ok (bool_decide (is_Some (m !! key)))
  | JArr l => Ok (existsb (fun v => eq_str v key) l)
  | JStr s => Ok (is_substring key s)
  | _ => Raise TypeError
  end.

(** [container[key] = v] with a string key: only a dict accepts it. *)
Definition py_setitem (container : json) (key : text) (v : json) : outcome json :=
  match container with
  | JObj m => Ok (JObj (<[key := v]> m))
  | _ => Raise TypeError
  end.

(** [container[key]] with a string key. *)
Definition py_getitem (container : json) (key : text) : outcome json :=
  match container with
  | JObj m => match m !! key with
              | Some v => Ok v
              | None => Raise (KeyError key)
              end
  | _ => Raise TypeError
  end.

(** [iter(container)]: the elements a [for] loop visits.  A dict yields its
    keys, a string its characters. *)
Definition py_iter (container : json) : outcome (list json) :=
  match container with
  | JArr l => Ok l
  | JObj m => Ok (JStr <$> (map_to_list m).*1)
  | JStr s => Ok ((fun c => JStr [c]) <$> s)
  | _ => Raise TypeError
  end.

(** [obj.get(key)]: a dict method; its default is [None]. *)
Definition py_get (obj : json) (key : text) : outcome json :=
  match obj with
  | JObj m => Ok (default JNull (m !! key))
  | _ => Raise AttributeError
  end.

(** ** [json.loads]

    The decoder of the Python standard library (the accelerated scanner that
    CPython uses by default), on [str] input with the default hooks and
    [strict=True].  Positions in error reports are offsets into the document;
    a function working on the suffix [s] of [doc] finds its offset as
    [pos_of doc s].  An integer is kept as its value, a float as its literal
    (its numerical value plays no role in the pipeline); [NaN], [Infinity]
    and [-Infinity], which the decoder accepts, are floats.

    Two limits of the interpreter make the decoder fail with an exception
    that is no [JSONDecodeError]: the scanner enters every array and object
    through [Py_EnterRecursiveCall], which raises [RecursionError] when the
    recursion limit is reached, and it converts an integer literal with
    [PyLong_FromString], which raises [ValueError] when the literal has more
    digits than [sys.get_int_max_str_digits()] allows.  Exhaustion of memory
    is not part of the model. *)

(** The limits of the interpreter at the time of the call. *)
Record interpreter := {
  (* how many arrays and objects, one inside the other, the scanner can
     enter before the recursion limit is reached *)
  nesting_headroom : nat;
  (* sys.get_int_max_str_digits(): 0 for no limit, which is also the
     behaviour of the versions of Python that have no such limit *)
  int_max_str_digits : nat
}.

Definition c_tab : char := 9%N.
Definition c_return : char := 13%N.
Definition c_blank : char := 32%N.
Definition c_quote : char := 34%N.      (* the double quote *)
Definition c_backslash : char := 92%N.
Definition c_bom : char := 65279%N.     (* U+FEFF *)

(** A JSON text written with the apostrophe standing for the double quote. *)
Definition jtext (s : string) : text :=
  map (fun c => if char_eqb c 39%N then c_quote else c) (of_string s).

Definition pos_of (doc s : text) : nat := length doc - length s.

Definition decode_error {A} (msg : string) (doc s : text) : outcome A :=
  Raise (JSONDecodeError (of_string msg) doc (pos_of doc s)).

(** The decoder's whitespace: blank, tab, newline, carriage return. *)
Definition is_json_ws (c : char) : bool :=
  char_eqb c c_blank || char_eqb c c_tab || char_eqb c c_newline
  || char_eqb c c_return.

Fixpoint skip_ws (s : text) : text :=
  match s with
  | c :: s' => if is_json_ws c then skip_ws s' else s
  | [] => []
  end.

Definition is_digit (c : char) : bool := ((48 <=? c) && (c <=? 57))%N.

Definition hex_value (c : char) : option N :=
  if ((48 <=? c) && (c <=? 57))%N then Some (c - 48)%N
  else if ((97 <=? c) && (c <=? 102))%N then Some (c - 87)%N
  else if ((65 <=? c) && (c <=? 70))%N then Some (c - 55)%N
  else None.

Definition hex4 (a b c d : char) : option N :=
  match hex_value a, hex_value b, hex_value c, hex_value d with
  | Some x, Some y, Some z, Some w => Some (((x * 16 + y) * 16 + z) * 16 + w)%N
  | _, _, _, _ => None
  end.

Definition is_high_surrogate (c : N) : bool := ((55296 <=? c) && (c <=? 56319))%N.
Definition is_low_surrogate (c : N) : bool := ((56320 <=? c) && (c <=? 57343))%N.
Definition join_surrogates (hi lo : N) : N :=
  (65536 + ((hi - 55296) * 1024 + (lo - 56320)))%N.

(** The one-character escapes after a backslash. *)
Definition unescape (c : char) : option char :=
  if char_eqb c c_quote then Some c_quote
  else if char_eqb c c_backslash then Some c_backslash
  else if char_eqb c (chr "/") then Some (chr "/")
  else if char_eqb c (chr "b") then Some 8%N
  else if char_eqb c (chr "f") then Some 12%N
  else if char_eqb c (chr "n") then Some c_newline
  else if char_eqb c (chr "r") then Some c_return
  else if char_eqb c (chr "t") then Some c_tab
  else None.

Definition consed (c : char) (r : outcome (text * text)) : outcome (text * text) :=
  p ← r; Ok (c :: p.1, p.2).

(** [scanstring]: [s] starts just after the opening quote, which sits at
    offset [begin]; returns the decoded string and what follows the closing
    quote. *)
Fixpoint scanstring (doc : text) (begin : nat) (s : text) : outcome (text * text) :=
  let unterminated :=
    Raise (JSONDecodeError (of_string "Unterminated string starting at") doc begin) in
  match s with
  | [] => unterminated
  | c :: s1 =>
      if char_eqb c c_quote then Ok ([], s1)
      else if char_eqb c c_backslash then
        match s1 with
        | [] => unterminated
        | e :: s2 =>
            if char_eqb e (chr "u") then
              match s2 with
              | h1 :: h2 :: h3 :: h4 :: ((_ :: _) as s6) =>
                  match hex4 h1 h2 h3 h4 with
                  | None => decode_error "Invalid \uXXXX escape" doc s1
                  | Some u =>
                      match s6 with
                      | b :: u' :: g1 :: g2 :: g3 :: g4 :: ((_ :: _) as s12) =>
                          if is_high_surrogate u && char_eqb b c_backslash
                             && char_eqb u' (chr "u")
                          then
                            match hex4 g1 g2 g3 g4 with
                            | None =>
                                decode_error "Invalid \uXXXX escape" doc (u' :: g1 :: g2 :: g3 :: g4 :: s12)
                            | Some u2 =>
                                if is_low_surrogate u2
                                then consed (join_surrogates u u2) (scanstring doc begin s12)
                                else consed u (scanstring doc begin s6)
                            end
                          else consed u (scanstring doc begin s6)
                      | _ => consed u (scanstring doc begin s6)
                      end
                  end
              | _ => decode_error "Invalid \uXXXX escape" doc s1
              end
            else
              match unescape e with
              | Some c' => consed c' (scanstring doc begin s2)
              | None => decode_error "Invalid \escape" doc s
              end
        end
      else if (c <=? 31)%N then decode_error "Invalid control character at" doc s
      else consed c (scanstring doc begin s1)
  end.

(** The longest prefix of decimal digits, and the rest. *)
Fixpoint span_digits (s : text) : text * text :=
  match s with
  | c :: s' => if is_digit c
               then let p := span_digits s' in (c :: p.1, p.2)
               else ([], s)
  | [] => ([], [])
  end.

Definition digits_value (ds : text) : Z :=
  fold_left (fun acc c => (acc * 10 + (Z.of_N c - 48))%Z) ds 0%Z.

(** The integer part of a number: an optional minus sign, then either a
    single 0 or a digit 1-9 followed by any number of digits. *)
Definition match_integer (s : text) : option (bool * text * text) :=
  let '(neg, s0) := match s with
                    | c :: s' => if char_eqb c (chr "-") then (true, s') else (false, s)
                    | [] => (false, s)
                    end in
  match s0 with
  | c :: s1 =>
      if char_eqb c (chr "0") then Some (neg, [c], s1)
      else if is_digit c then let p := span_digits s1 in Some (neg, c :: p.1, p.2)
      else None
  | [] => None
  end.

(** The optional fraction: a dot followed by at least one digit. *)
Definition match_frac (s : text) : text * text :=
  match s with
  | dot :: d :: s' =>
      if char_eqb dot (chr ".") && is_digit d
      then let p := span_digits s' in (dot :: d :: p.1, p.2)
      else ([], s)
  | _ => ([], s)
  end.

(** The optional exponent: e or E, an optional sign, at least one digit. *)
Definition match_exp (s : text) : text * text :=
  match s with
  | e :: s1 =>
      if char_eqb e (chr "e") || char_eqb e (chr "E") then
        let '(sign, s2) :=
          match s1 with
          | c :: s' => if char_eqb c (chr "-") || char_eqb c (chr "+")
                       then ([c], s') else ([], s1)
          | [] => ([], s1)
          end in
        match span_digits s2 with
        | ([], _) => ([], s)
        | (ds, rest) => (e :: sign ++ ds, rest)
        end
      else ([], s)
  | [] => ([], s)
  end.

(** [int(literal)] on the digits [ds] of an integer literal: the limit on
    the number of digits applies when it is not 0. *)
Definition int_of_digits (py : interpreter) (neg : bool) (ds : text) : outcome json :=
  if (0 <? int_max_str_digits py) && (int_max_str_digits py <? length ds)
  then Raise ValueError
  else Ok (JInt (if neg then - digits_value ds else digits_value ds)%Z).

(** A number at the head of [s]: [None] when there is none, else the
    outcome of its conversion and what follows the literal. *)
Definition match_number (py : interpreter) (s : text) : option (outcome json * text) :=
  match match_integer s with
  | None => None
  | Some (neg, ds, s1) =>
      let '(frac, s2) := match_frac s1 in
      let '(exp, s3) := match_exp s2 in
      match frac, exp with
      | [], [] => Some (int_of_digits py neg ds, s3)
      | _, _ => Some (Ok (JFloat ((if neg then [chr "-"] else []) ++ ds ++ frac ++ exp)), s3)
      end
  end.

(** [s] without the prefix [p], when it starts with it. *)
Fixpoint strip_prefix (p s : text) : option text :=
  match p, s with
  | [], _ => Some s
  | x :: p', y :: s' => if char_eqb x y then strip_prefix p' s' else None
  | _ :: _, [] => None
  end.

Definition match_constant (s : text) : option (json * text) :=
  match strip_prefix (of_string "null") s with
  | Some r => Some (JNull, r)
  | None =>
  match strip_prefix (of_string "true") s with
  | Some r => Some (JBool true, r)
  | None =>
  match strip_prefix (of_string "false") s with
  | Some r => Some (JBool false, r)
  | None =>
  match strip_prefix (of_string "NaN") s with
  | Some r => Some (JFloat (of_string "NaN"), r)
  | None =>
  match strip_prefix (of_string "Infinity") s with
  | Some r => Some (JFloat (of_string "Infinity"), r)
  | None =>
  match strip_prefix (of_string "-Infinity") s with
  | Some r => Some (JFloat (of_string "-Infinity"), r)
  | None => None
  end end end end end end.

(** The scanner recurses on a budget of calls.  Running out of it is
    reported as [BudgetExhausted]; [json_loads] starts with a budget that
    no document exhausts (lemma [json_loads_budget] below). *)
Definition out_of_budget {A} : outcome A := Raise BudgetExhausted.

(** [scan_once] decodes one value at the head of [s]; [array_loop] is the
    body of the [while] loop of [JSONArray], entered in front of a value;
    [object_loop] is the loop of [JSONObject], entered just after the
    opening quote of a key.  A failed scan ([StopIteration]) is reported by
    every caller as "Expecting value" at the offset where the value should
    start.  [depth] is the number of arrays and objects that can still be
    entered, one inside the other; the values inside an array or object are
    scanned with one less. *)
Fixpoint scan_once (py : interpreter) (budget depth : nat) (doc s : text) {struct budget}
  : outcome (json * text) :=
  match budget with
  | O => out_of_budget
  | S budget' =>
      match s with
      | [] => decode_error "Expecting value" doc s
      | c :: s1 =>
          if char_eqb c c_quote then
            p ← scanstring doc (pos_of doc s) s1; Ok (JStr p.1, p.2)
          else if char_eqb c (chr "{") then
            match depth with
            | O => Raise RecursionError
            | S depth' =>
                match skip_ws s1 with
                | c' :: r =>
                    if char_eqb c' (chr "}") then Ok (JObj ∅, r)
                    else if char_eqb c' c_quote then object_loop py budget' depth' doc r ∅
                    else decode_error "Expecting property name enclosed in double quotes"
                           doc (skip_ws s1)
                | [] => decode_error "Expecting property name enclosed in double quotes"
                          doc (skip_ws s1)
                end
            end
          else if char_eqb c (chr "[") then
            match depth with
            | O => Raise RecursionError
            | S depth' =>
                match skip_ws s1 with
                | c' :: r =>
                    if char_eqb c' (chr "]") then Ok (JArr [], r)
                    else array_loop py budget' depth' doc (skip_ws s1) []
                | [] => array_loop py budget' depth' doc (skip_ws s1) []
                end
            end
          else
            match match_constant s with
            | Some p => Ok p
            | None =>
                match match_number py s with
                | Some (r, rest) => v ← r; Ok (v, rest)
                | None => decode_error "Expecting value" doc s
                end
            end
      end
  end
with array_loop (py : interpreter) (budget depth : nat) (doc s : text) (values : list json)
  {struct budget} : outcome (json * text) :=
  match budget with
  | O => out_of_budget
  | S budget' =>
      p ← scan_once py budget' depth doc s;
      let values := values ++ [p.1] in
      match skip_ws p.2 with
      | c :: r =>
          if char_eqb c (chr "]") then Ok (JArr values, r)
          else if char_eqb c (chr ",") then array_loop py budget' depth doc (skip_ws r) values
          else decode_error "Expecting ',' delimiter" doc (skip_ws p.2)
      | [] => decode_error "Expecting ',' delimiter" doc (skip_ws p.2)
      end
  end
with object_loop (py : interpreter) (budget depth : nat) (doc s : text)
  (pairs : gmap text json) {struct budget} : outcome (json * text) :=
  match budget with
  | O => out_of_budget
  | S budget' =>
      k ← scanstring doc (pos_of doc s - 1) s;
      match skip_ws k.2 with
      | colon :: s1 =>
          if char_eqb colon (chr ":") then
            p ← scan_once py budget' depth doc (skip_ws s1);
            let pairs := <[k.1 := p.1]> pairs in
            match skip_ws p.2 with
            | c :: r =>
                if char_eqb c (chr "}") then Ok (JObj pairs, r)
                else if char_eqb c (chr ",") then
                  match skip_ws r with
                  | q :: r' =>
                      if char_eqb q c_quote then object_loop py budget' depth doc r' pairs
                      else decode_error "Expecting property name enclosed in double quotes"
                             doc (skip_ws r)
                  | [] => decode_error "Expecting property name enclosed in double quotes"
                            doc (skip_ws r)
                  end
                else decode_error "Expecting ',' delimiter" doc (skip_ws p.2)
            | [] => decode_error "Expecting ',' delimiter" doc (skip_ws p.2)
            end
          else decode_error "Expecting ':' delimiter" doc (skip_ws k.2)
      | [] => decode_error "Expecting ':' delimiter" doc (skip_ws k.2)
      end
  end.

(** [json.loads(s)]: one value, surrounded by whitespace only. *)
Definition json_loads (py : interpreter) (s : text) : outcome json :=
  if starts_with [c_bom] s
  then decode_error "Unexpected UTF-8 BOM (decode using utf-8-sig)" s s
  else
    p ← scan_once py (2 * length s + 2) (nesting_headroom py) s (skip_ws s);
    match skip_ws p.2 with
    | [] => Ok p.1
    | _ :: _ => decode_error "Extra data" s (skip_ws p.2)
    end.

Definition exn_is_decode_error (e : exn) : bool :=
  match e with
  | JSONDecodeError _ _ _ => true
  | _ => false
  end.

(** The exceptions that the decoder raises. *)
Definition exn_of_decoder (e : exn) : bool :=
  match e with
  | JSONDecodeError _ _ _ | RecursionError | ValueError => true
  | _ => false
  end.

(** [str(e)] for a [JSONDecodeError]:
    [msg: line L column C (char P)]. *)
Fixpoint last_line_length (s : text) : nat :=
  match s with
  | [] => 0
  | c :: s' =>
      if existsb (fun d => char_eqb d c_newline) s' then last_line_length s'
      else if char_eqb c c_newline then length s' else S (length s')
  end.

Definition decode_error_str (msg doc : text) (pos : nat) : text :=
  let before := take pos doc in
  let lineno := length (filter (fun d => d = c_newline) before) + 1 in
  let colno := last_line_length before + 1 in
  msg ++ of_string ": line " ++ str_of_nat lineno
      ++ of_string " column " ++ str_of_nat colno
      ++ of_string " (char " ++ str_of_nat pos ++ of_string ")".

(** ** [parse_json_response] *)

Definition fence : text := of_string "```".

(** The lazy group of the pattern together with what follows it: the
    shortest prefix [g] of [s] such that what comes after [g] is a run of
    whitespace and then a fence. *)
Fixpoint lazy_group (s : text) : option text :=
  if starts_with fence (lstrip s) then Some []
  else match s with
       | [] => None
       | c :: s' => cons c <$> lazy_group s'
       end.

(** The pattern of [parse_json_response], a fence, an optional [json] tag,
    greedy whitespace, the lazy group, whitespace and a closing fence,
    anchored at the head of [s]; the result is [group(1)].

    The engine prefers the tag to its absence and the longest run of
    whitespace to any shorter one, and would fall back to the other choices
    if the rest failed to match.  Falling back cannot help here: the group
    matches any text, so giving back the tag or some whitespace only moves
    characters into the group that are neither whitespace before the
    closing fence nor part of it.  The preferred choice is therefore the
    only one that has to be tried. *)
Definition match_fence_at (s : text) : option text :=
  match strip_prefix fence s with
  | None => None
  | Some s1 =>
      let s2 := default s1 (strip_prefix (of_string "json") s1) in
      lazy_group (lstrip s2)
  end.

(** [re.search(pattern, s)]: the match at the leftmost offset that has one. *)
Fixpoint re_search_fence (s : text) : option text :=
  match match_fence_at s with
  | Some g => Some g
  | None => match s with
            | [] => None
            | _ :: s' => re_search_fence s'
            end
  end.

(** The text handed to [json.loads]: fences stripped, then trimmed. *)
Definition pre_decode (response_text : text) : text :=
  let response_text := default response_text (re_search_fence response_text) in
  strip response_text.

Definition k_summary : text := of_string "summary".
Definition k_issues : text := of_string "issues".
Definition k_positive_aspects : text := of_string "positive_aspects".
Definition k_id : text := of_string "id".
Definition k_stats : text := of_string "stats".
Definition k_verdict : text := of_string "verdict".
Definition k_overview : text := of_string "overview".
Definition k_severity : text := of_string "severity".
Definition k_type : text := of_string "type".
Definition k_blocking : text := of_string "blocking".
Definition k_warning : text := of_string "warning".
Definition k_suggestion : text := of_string "suggestion".
Definition k_non_blocking : text := of_string "non-blocking".
Definition k_error : text := of_string "error".
Definition k_message : text := of_string "message".
Definition k_raw_response : text := of_string "raw_response".

Definition default_summary : json :=
  JObj (<[k_verdict := JStr (of_string "request_changes")]>
       (<[k_overview := JStr (of_string "Review completed")]>
       (<[k_stats := JObj ∅]> ∅))).

(** [if key not in obj: obj[key] = dflt]; the result is [obj] after the
    statement. *)
Definition ensure_key (obj : json) (key : text) (dflt : json) : outcome json :=
  present ← py_contains key obj;
  if present : bool then Ok obj else py_setitem obj key dflt.

(** The loop [for i, issue in enumerate(issues, i): if "id" not in issue:
    issue["id"] = i] over the elements the iteration yields; the result is
    the elements after the loop. *)
Fixpoint ensure_ids (i : Z) (issues : list json) : outcome (list json) :=
  match issues with
  | [] => Ok []
  | issue :: rest =>
      issue' ← ensure_key issue k_id (JInt i);
      rest' ← ensure_ids (i + 1) rest;
      Ok (issue' :: rest')
  end.

(** [sum(1 for i in items if i.get(key) == value)] *)
Fixpoint count_where (key value : text) (items : list json) : outcome Z :=
  match items with
  | [] => Ok 0%Z
  | i :: rest =>
      v ← py_get i key;
      n ← count_where key value rest;
      Ok ((if eq_str v value then 1 else 0) + n)%Z
  end.

(** [sum(1 for i in data["issues"] if i.get(key) == value)] *)
Definition count_issues (data : json) (key value : text) : outcome Z :=
  issues ← py_getitem data k_issues;
  items ← py_iter issues;
  count_where key value items.

(** The body of the [try] block after [json.loads].  The dicts of [data]
    are mutated in place by the source; [data] is a tree fresh from the
    decoder, so no two of its parts are the same object and each mutation
    is written back along the one path that leads to it. *)
Definition normalize (data : json) : outcome json :=
  (* Validate required fields *)
  data ← ensure_key data k_summary default_summary;
  data ← ensure_key data k_issues (JArr []);
  data ← ensure_key data k_positive_aspects (JArr []);
  (* Ensure issues have IDs *)
  issues ← py_getitem data k_issues;
  items ← py_iter issues;
  items ← ensure_ids 1 items;
  data ← match issues with
         | JArr _ => py_setitem data k_issues (JArr items)
         | _ => Ok data   (* the elements were strings: nothing was mutated *)
         end;
  (* Calculate stats if missing *)
  summary ← py_getitem data k_summary;
  summary ← ensure_key summary k_stats (JObj ∅);
  data ← py_setitem data k_summary summary;
  summary ← py_getitem data k_summary;
  stats ← py_getitem summary k_stats;
  n ← count_issues data k_severity k_blocking;
  stats ← py_setitem stats k_blocking (JInt n);
  n ← count_issues data k_severity k_non_blocking;
  stats ← py_setitem stats k_warning (JInt n);
  n ← count_issues data k_type k_suggestion;
  stats ← py_setitem stats k_suggestion (JInt n);
  summary ← py_setitem summary k_stats stats;
  data ← py_setitem data k_summary summary;
  Ok data.

Definition parse_error_result (msg doc : text) (pos : nat) (response_text : text) : json :=
  JObj (<[k_error := JStr (of_string "JSON_PARSE_ERROR")]>
       (<[k_message := JStr (of_string "Failed to parse response: "
                             ++ decode_error_str msg doc pos)]>
       (<[k_raw_response := JStr (take 500 response_text)]> ∅))).

Definition parse_json_response (py : interpreter) (response_text : text) : outcome json :=
  (* Try to extract JSON if wrapped in markdown *)
  let response_text := default response_text (re_search_fence response_text) in
  (* Clean up common issues *)
  let response_text := strip response_text in
  match (data ← json_loads py response_text; normalize data) with
  | Raise (JSONDecodeError msg doc pos) =>
      Ok (parse_error_result msg doc pos response_text)
  | r => r
  end.

(** ** [calculate_thinking_level]

    The score is a Python float.  It is computed here over the rationals,
    which decides the two comparisons in the same way: the quotient
    [total_lines / 200] is the only rounded operation, a score that is not
    equal to a threshold differs from it by at least [1/200], and a score
    equal to a threshold has a quotient that is a multiple of [1/2] and thus
    exact. *)

Section Estimator.
(** [str.lower()], the case mapping of the Unicode database. *)
Variable str_lower : text -> text.

Definition security_keywords : list text :=
  map of_string ["password"; "auth"; "token"; "secret"; "encrypt"; "sql"; "query"]%string.

Definition has_security_code (code_content : text) : bool :=
  existsb (fun kw => is_substring kw (str_lower code_content)) security_keywords.

Definition has_async (code_content : text) : bool :=
  is_substring (of_string "async") code_content
  || is_substring (of_string "await") code_content.

Definition has_classes (code_content : text) : bool :=
  2 <? str_count (of_string "class ") code_content.

(** [min(a, b)] *)
Definition py_min (a b : Q) : Q := if Qle_bool a b then a else b.

Definition Qlt_bool (a b : Q) : bool := negb (Qle_bool b a).

Definition complexity_score (files : list text) (code_content : text) : Q :=
  let total_lines := str_count [c_newline] code_content in
  let file_count := length files in
  let complexity_score := 0%Q in
  let complexity_score :=
    (complexity_score + py_min (inject_Z (Z.of_nat total_lines) / 200) 2)%Q in
  let complexity_score :=
    (complexity_score + inject_Z (Z.of_nat file_count) * (1 # 2))%Q in
  let complexity_score :=
    (complexity_score + (if has_security_code code_content then 1 else 0))%Q in
  let complexity_score :=
    (complexity_score + (if has_async code_content then 1 # 2 else 0))%Q in
  let complexity_score :=
    (complexity_score + (if has_classes code_content then 1 # 2 else 0))%Q in
  complexity_score.

Definition level_minimal : text := of_string "minimal".
Definition level_medium : text := of_string "medium".
Definition level_high : text := of_string "high".

Definition calculate_thinking_level (files : list text) (code_content : text) : text :=
  let complexity_score := complexity_score files code_content in
  if Qlt_bool complexity_score (3 # 2) then level_minimal
  else if Qlt_bool complexity_score 3 then level_medium
  else level_high.

(** The estimator as section 4.1 of the specification words it, for
    comparison with the code: line points capped at 2, half a point per
    file, the three bonuses, and the two thresholds. *)
Definition spec_score (newlines file_count : nat) (security async classes : bool) : Q :=
  (Qmin (inject_Z (Z.of_nat newlines) / 200) 2
   + inject_Z (Z.of_nat file_count) * (1 # 2)
   + (if security then 1 else 0)
   + (if async then 1 # 2 else 0)
   + (if classes then 1 # 2 else 0))%Q.

Definition spec_level (score : Q) : text :=
  if Qlt_le_dec score (3 # 2) then level_minimal
  else if Qlt_le_dec score 3 then level_medium
  else level_high.
End Estimator.

(** A case mapping for ASCII text, used to run the estimator on examples. *)
Definition ascii_lower (s : text) : text :=
  map (fun c => if ((65 <=? c) && (c <=? 90))%N then (c + 32)%N else c) s.

(** ** The grouping of [format_interactive_output] *)

(** [[i for i in items if cond(i)]] *)
Fixpoint py_filter (cond : json -> outcome bool) (items : list json) : outcome (list json) :=
  match items with
  | [] => Ok []
  | i :: rest =>
      keep ← cond i;
      rest' ← py_filter cond rest;
      Ok (if keep : bool then i :: rest' else rest')
  end.

Definition is_blocking (i : json) : outcome bool :=
  v ← py_get i k_severity; Ok (eq_str v k_blocking).

Definition is_warning (i : json) : outcome bool :=
  v ← py_get i k_severity;
  if eq_str v k_non_blocking
  then t ← py_get i k_type; Ok (negb (eq_str t k_suggestion))
  else Ok false.

Definition is_suggestion (i : json) : outcome bool :=
  t ← py_get i k_type; Ok (eq_str t k_suggestion).

Record groups := {
  blocking_issues : list json;
  warning_issues : list json;
  suggestion_issues : list json
}.

(** The three lists that the report renders as its BLOCKING, WARNINGS and
    SUGGESTIONS boxes, each in the order of its list. *)
Definition group_issues (issues : list json) : outcome groups :=
  b ← py_filter is_blocking issues;
  w ← py_filter is_warning issues;
  s ← py_filter is_suggestion issues;
  Ok {| blocking_issues := b; warning_issues := w; suggestion_issues := s |}.

(** [obj.get(key, dflt)] *)
Definition py_get_default (obj : json) (key : text) (dflt : json) : outcome json :=
  match obj with
  | JObj m => Ok (default dflt (m !! key))
  | _ => Raise AttributeError
  end.

(** The groups of a result without [error] key, as the success branch of
    [format_interactive_output] builds them from [result.get("issues", [])]. *)
Definition report_groups (result : json) : outcome groups :=
  issues ← py_get_default result k_issues (JArr []);
  items ← py_iter issues;
  group_issues items.

(** ** [build_review_prompt] and [review_code] *)

Definition nl : text := [c_newline].

(** What [review_code] consults outside the program. *)
Record world := {
  python : interpreter;                     (* the limits of the interpreter *)
  genai_installed : bool;                   (* ensure_genai_installed() *)
  api_key : option text;                    (* get_api_key() *)
  path_exists : text -> bool;               (* Path(p).exists() *)
  path_is_file : text -> bool;              (* Path(p).is_file() *)
  read_text : text -> text + text;          (* the content, or str(e) *)
  generate_content : text -> Q -> text + text  (* response.text, or str(e) *)
}.

Definition error_result (kind message : text) : json :=
  JObj (<[k_error := JStr kind]> (<[k_message := JStr message]> ∅)).

Definition skip_extensions : list text :=
  map of_string [".json"; ".yaml"; ".yml"; ".toml"; ".md"; ".txt"; ".lock"; ".log"]%string.

Definition size_ceiling : N := 50000%N.

(** [f"{i:4d}"] *)
Definition format_4d (i : nat) : text :=
  let digits := str_of_nat i in
  replicate (4 - length digits) c_blank ++ digits.

(** [f"{i:4d} | {line}"] for the lines of [content], numbered from [i]. *)
Fixpoint number_lines (i : nat) (lines : list text) : list text :=
  match lines with
  | [] => []
  | line :: rest => (format_4d i ++ of_string " | " ++ line) :: number_lines (S i) rest
  end.

Definition too_large_part (file_path content : text) : text :=
  of_string "### " ++ file_path ++ nl ++ of_string "[File too large - "
  ++ str_of_nat (length content) ++ of_string " bytes, skipped]".

Definition error_part (file_path e : text) : text :=
  of_string "### " ++ file_path ++ nl ++ of_string "[Error reading: " ++ e ++ of_string "]".

Definition code_part (file_path suffix content : text) : text :=
  let numbered_content := join nl (number_lines 1 (split_lines content)) in
  of_string "### " ++ file_path ++ nl ++ fence ++ drop 1 suffix ++ nl
  ++ numbered_content ++ nl ++ fence.

Section Orchestrator.
Variable str_lower : text -> text.        (* str.lower() *)
Variable str_upper : text -> text.        (* str.upper() *)
Variable path_suffix : text -> text.      (* Path(p).suffix *)
Variable exn_str : exn -> text.           (* str(e) *)
(** The fixed parts of the prompt: the methodology before the focus
    sentence, the schema, and the rules that close the prompt. *)
Variable prompt_methodology : text.
Variable JSON_SCHEMA : text.
Variable prompt_rules : text.

Definition focus_map (focus : text) : text :=
  if text_eqb focus (of_string "security") then
    of_string "Focus especially on security: injection, secrets, auth, XSS, CSRF."
  else if text_eqb focus (of_string "performance") then
    of_string "Focus especially on performance: O(n" ++ [178%N]
    ++ of_string "), memory leaks, blocking ops."
  else if text_eqb focus (of_string "quality") then
    of_string "Focus especially on quality: SOLID, naming, modularity, complexity."
  else [].

Definition build_review_prompt (code_content : text) (focus : option text) : text :=
  let focus_instruction :=
    match focus with
    | Some ((_ :: _) as f) => focus_map f
    | _ => []
    end in
  prompt_methodology ++ nl ++ nl ++ focus_instruction ++ nl ++ nl
  ++ of_string "## Code to Review" ++ nl ++ nl ++ code_content ++ nl ++ nl
  ++ of_string "## Output Requirements" ++ nl ++ nl
  ++ of_string "Respond with **valid JSON only** (no markdown, no code blocks, no extra text)."
  ++ nl ++ nl ++ of_string "Schema:" ++ nl ++ JSON_SCHEMA ++ nl ++ nl ++ prompt_rules.

(** One turn of the loop over [files]: the state is
    [(code_parts, valid_files)]. *)
Definition collect_file (w : world) (acc : list text * list text) (file_path : text)
  : list text * list text :=
  let '(code_parts, valid_files) := acc in
  if negb (path_exists w file_path) || negb (path_is_file w file_path) then acc
  else if existsb (text_eqb (str_lower (path_suffix file_path))) skip_extensions then acc
  else
    match read_text w file_path with
    | inl content =>
        if (size_ceiling <? N.of_nat (length content))%N
        then (code_parts ++ [too_large_part file_path content], valid_files)
        else (code_parts ++ [code_part file_path (path_suffix file_path) content],
              valid_files ++ [file_path])
    | inr e => (code_parts ++ [error_part file_path e], valid_files)
    end.

Definition collect_files (w : world) (files : list text) : list text * list text :=
  fold_left (collect_file w) files ([], []).

Definition temperature (thinking_level : text) : Q :=
  if text_eqb thinking_level level_high then 2 # 10
  else if text_eqb thinking_level level_minimal then 5 # 10
  else 3 # 10.

(** The handler of the [try] block around the call: [error_msg] is
    [str(e)]. *)
Definition call_failed (error_msg : text) : json :=
  if is_substring (of_string "API_KEY") (str_upper error_msg)
     || is_substring (of_string "401") error_msg
  then error_result (of_string "INVALID_KEY") (of_string "Invalid API key")
  else error_result (of_string "API_ERROR") error_msg.

Definition review_code (w : world) (files : list text) (focus thinking_level : option text)
  : json :=
  if negb (genai_installed w) then
    error_result (of_string "INSTALL_FAILED") (of_string "Could not install google-genai")
  else
  match api_key w with
  | None | Some [] =>
      error_result (of_string "NO_API_KEY") (of_string "GEMINI_API_KEY not found")
  | Some (_ :: _) =>
      (* Read file contents *)
      let '(code_parts, valid_files) := collect_files w files in
      match valid_files with
      | [] => error_result (of_string "NO_FILES") (of_string "No valid code files to review")
      | _ :: _ =>
          let code_content := join (nl ++ nl) code_parts in
          (* Auto-detect thinking level if not specified *)
          let thinking_level :=
            match thinking_level with
            | Some ((_ :: _) as l) => l
            | _ => calculate_thinking_level str_lower valid_files code_content
            end in
          let prompt := build_review_prompt code_content focus in
          (* Call Gemini API *)
          match generate_content w prompt (temperature thinking_level) with
          | inr error_msg => call_failed error_msg
          | inl response_text =>
              match
                (result ← parse_json_response (python w) response_text;
                 has_error ← py_contains k_error result;
                 if has_error : bool then Ok result
                 else py_setitem result (of_string "meta")
                        (JObj (<[of_string "files" := JArr (JStr <$> valid_files)]>
                              (<[of_string "thinking_level" := JStr thinking_level]>
                              (<[of_string "focus" := from_option JStr JNull focus]> ∅)))))
              with
              | Ok result => result
              | Raise e => call_failed (exn_str e)
              end
          end
      end
  end.
End Orchestrator.

(** ** [get_api_key] and [setup_api_key.py]: the key in the environment and in [.env] *)

(** What the two scripts find outside the program.  The file [.env] of the
    working directory, when it exists, is a text file that can be read; its
    content is the sequence of characters stored in it.  Writing either
    succeeds as a whole or fails when the file is opened, which leaves the
    file as it was. *)
Record key_store := {
  environ_key : option text;     (* os.environ.get('GEMINI_API_KEY') *)
  dotenv : option text;          (* the content of .env, when it exists *)
  dotenv_writable : bool         (* open(env_file, 'w') succeeds *)
}.

(** Reading in text mode with the default [newline=None]: a carriage
    return, alone or followed by a line feed, is read as one line feed.
    [after_return] tells that the character before was a carriage return. *)
Fixpoint universal_newlines (after_return : bool) (s : text) : text :=
  match s with
  | [] => []
  | c :: s' =>
      if char_eqb c c_return then c_newline :: universal_newlines true s'
      else if char_eqb c c_newline then
        if after_return then universal_newlines false s'
        else c_newline :: universal_newlines false s'
      else c :: universal_newlines false s'
  end.

(** The lines of a text, each with the line feed that ends it; the last one
    may lack it. *)
Fixpoint file_lines (s : text) : list text :=
  match s with
  | [] => []
  | c :: s' =>
      if char_eqb c c_newline then [c] :: file_lines s'
      else match file_lines s' with
           | line :: rest => (c :: line) :: rest
           | [] => [[c]]
           end
  end.

(** [for line in f] over a file with the given content. *)
Definition read_lines (content : text) : list text :=
  file_lines (universal_newlines false content).

(** [s.lstrip(chars)], [s.rstrip(chars)], [s.strip(chars)] *)
Fixpoint lstrip_chars (chars s : text) : text :=
  match s with
  | c :: s' => if existsb (char_eqb c) chars then lstrip_chars chars s' else s
  | [] => []
  end.

Fixpoint rstrip_chars (chars s : text) : text :=
  match s with
  | [] => []
  | c :: s' => if forallb (fun d => existsb (char_eqb d) chars) s then []
               else c :: rstrip_chars chars s'
  end.

Definition strip_chars (chars s : text) : text :=
  rstrip_chars chars (lstrip_chars chars s).

(** [s.split(sep, 1)] for a separator of one character: one piece, or two
    when the separator occurs. *)
Fixpoint split_once (sep : char) (s : text) : list text :=
  match s with
  | [] => [[]]
  | c :: s' =>
      if char_eqb c sep then [[]; s']
      else match split_once sep s' with
           | piece :: rest => (c :: piece) :: rest
           | [] => [[c]]
           end
  end.

(** The ways [get_api_key] ends. *)
Inductive key_lookup :=
| Found (value : text)       (* a string is returned *)
| NotFound                   (* None is returned *)
| IndexError.                (* raised by the subscript [1] *)

Definition key_prefix : text := of_string "GEMINI_API_KEY=".

(** The characters that [value.strip] is given: the double quote and the
    apostrophe. *)
Definition quote_chars : text := [c_quote; 39%N].

(** The loop of [get_api_key] over the lines of the file. *)
Fixpoint scan_env_lines (lines : list text) : key_lookup :=
  match lines with
  | [] => NotFound
  | line :: rest =>
      let line := strip line in
      if starts_with key_prefix line then
        match split_once (chr "=") line !! 1%nat with
        | Some value => Found (strip_chars quote_chars value)
        | None => IndexError
        end
      else scan_env_lines rest
  end.

Definition get_api_key (st : key_store) : key_lookup :=
  match environ_key st with
  | Some ((_ :: _) as api_key) => Found api_key
  | _ =>
      match dotenv st with
      | Some content => scan_env_lines (read_lines content)
      | None => NotFound
      end
  end.

(** [line.strip().startswith('GEMINI_API_KEY=')] *)
Definition is_key_line (line : text) : bool :=
  starts_with key_prefix (strip line).

(** [line.endswith('\n')] *)
Definition ends_with_newline (line : text) : bool :=
  match last line with
  | Some c => char_eqb c c_newline
  | None => false
  end.

(** [if existing_lines and not existing_lines[-1].endswith('\n'):
    existing_lines[-1] += '\n'] *)
Fixpoint close_last_line (existing_lines : list text) : list text :=
  match existing_lines with
  | [] => []
  | [line] => if ends_with_newline line then [line] else [line ++ nl]
  | line :: rest => line :: close_last_line rest
  end.

(** The line that is appended: the name, the equals sign, the key between
    double quotes, a line feed. *)
Definition key_line (api_key : text) : text :=
  of_string "GEMINI_API_KEY=" ++ [c_quote] ++ api_key ++ [c_quote] ++ nl.

(** [existing_lines] at the time it is written back. *)
Definition setup_lines (st : key_store) (api_key : text) : list text :=
  let existing_lines :=
    match dotenv st with
    | Some content =>
        (* Skip existing GEMINI_API_KEY lines *)
        List.filter (fun line => negb (is_key_line line)) (read_lines content)
    | None => []
    end in
  close_last_line existing_lines ++ [key_line api_key].

(** [setup_api_key(api_key)]: the value returned, and the store after the
    call; [f.writelines] stores the lines one after the other, a line feed
    being stored as it is (as on POSIX systems).  The messages that follow
    the write are taken to be printed without error. *)
Definition setup_api_key (st : key_store) (api_key : text) : bool * key_store :=
  if dotenv_writable st
  then (true, {| environ_key := environ_key st;
                 dotenv := Some (concat (setup_lines st api_key));
                 dotenv_writable := true |})
  else (false, st).

(** ** The grouping of [format_legacy_output] *)

Definition is_non_blocking (i : json) : outcome bool :=
  v ← py_get i k_severity; Ok (eq_str v k_non_blocking).

(** The lists [blocking] and [warnings] that the legacy report renders
    under Critical Issues and Warnings, for a result without [error] key. *)
Definition legacy_groups (result : json) : outcome (list json * list json) :=
  issues ← py_get_default result k_issues (JArr []);
  items ← py_iter issues;
  blocking ← py_filter is_blocking items;
  warnings ← py_filter is_non_blocking items;
  Ok (blocking, warnings).

(** ** The error branch of [format_interactive_output]

    The characters outside ASCII are written as code points: the double
    rule U+2550, the magnifying glass U+1F50D, the cross mark U+274C, the
    arrow U+2192, and the warning sign U+26A0 followed by U+FE0F. *)

(** ["═" * 65] *)
Definition rule : text := replicate 65 9552%N.

Section ErrorReport.
(** [str(v)], as an f-string renders a value that is no string. *)
Variable py_str : json -> text.

(** [f"{v}"] *)
Definition py_format (v : json) : text :=
  match v with
  | JStr s => s
  | _ => py_str v
  end.

(** [v[:n] + suffix] for a string [suffix]: it takes a string [v]; a list
    can be sliced but not extended by a string, and no other value can be
    sliced.  [None] stands for the exception. *)
Definition py_slice_plus (v : json) (n : nat) (suffix : text) : option json :=
  match v with
  | JStr s => Some (JStr (take n s ++ suffix))
  | _ => None
  end.

(** The elements of [lines] as [str.join] takes them: each one has to be a
    string. *)
Fixpoint py_join_items (lines : list json) : option (list text) :=
  match lines with
  | [] => Some []
  | JStr s :: rest => rest' ← py_join_items rest; Some (s :: rest')
  | _ :: _ => None
  end.

(** The lines appended for a dict [result] whose [error] entry is
    [error]. *)
Definition error_lines (result : gmap text json) (error : json) : option (list json) :=
  if eq_str error (of_string "NO_API_KEY") then
    Some [ JStr ([10060%N] ++ of_string " API Key Required");
           JStr [];
           JStr (of_string "GEMINI_API_KEY not found. Get one at:");
           JStr (of_string "  " ++ [8594%N] ++ of_string " https://aistudio.google.com/apikey");
           JStr [];
           JStr (of_string "Then run:");
           JStr (jtext "  python scripts/setup_api_key.py --key 'YOUR_KEY'") ]
  else if eq_str error (of_string "JSON_PARSE_ERROR") then
    let lines :=
      [ JStr ([9888%N; 65039%N] ++ of_string " Response Parse Error");
        JStr [];
        default (JStr (of_string "Unknown error")) (result !! k_message) ] in
    match result !! k_raw_response with
    | Some raw_response =>
        preview ← py_slice_plus raw_response 200 (of_string "...");
        Some (lines ++ [JStr []; JStr (of_string "Raw response preview:"); preview])
    | None => Some lines
    end
  else
    Some [ JStr ([10060%N] ++ of_string " Error: "
                 ++ py_format (default (JStr (of_string "Unknown error"))
                                 (result !! k_message))) ].

(** [format_interactive_output(result)] for a dict [result] whose [error]
    entry is [error], that is on the branch [if "error" in result]: the
    text returned, or [None] when an exception is raised. *)
Definition error_report (result : gmap text json) (error : json) : option text :=
  lines ← error_lines result error;
  items ← py_join_items
             ([ JStr []; JStr rule;
                JStr ([128269%N] ++ of_string " GEMINI CODE REVIEW");
                JStr rule; JStr [] ]
              ++ lines ++ [ JStr rule; JStr [] ]);
  Some (join nl items).
End ErrorReport.

(** ** [main]: the list of files and the exit status *)

(** [s.split(sep)] for a separator of one character: always at least one
    piece. *)
Fixpoint split_char (sep : char) (s : text) : list text :=
  match s with
  | [] => [[]]
  | c :: s' =>
      match split_char sep s' with
      | piece :: rest => if char_eqb c sep then [] :: piece :: rest
                         else (c :: piece) :: rest
      | [] => [[c]]
      end
  end.

(** [[f.strip() for f in pieces if f.strip()]] *)
Fixpoint stripped_nonempty (pieces : list text) : list text :=
  match pieces with
  | [] => []
  | f :: rest =>
      match strip f with
      | [] => stripped_nonempty rest
      | _ :: _ => strip f :: stripped_nonempty rest
      end
  end.

(** The list [files] that [main] builds from the [--files] argument. *)
Definition files_of_arg (files : text) : list text :=
  stripped_nonempty (split_char (chr ",") files).

Section ExitStatus.
(** [float(lexeme) > 0] for the literal of a decoded float. *)
Variable float_positive : text -> bool.

(** [v > 0] *)
Definition py_gt_zero (v : json) : outcome bool :=
  match v with
  | JInt z => Ok (0 <? z)%Z
  | JBool b => Ok b
  | JFloat lexeme => Ok (float_positive lexeme)
  | _ => Raise TypeError
  end.

(** The chain that ends [main]: the status passed to [sys.exit] for the
    result of [review_code]. *)
Definition exit_code (result : json) : outcome Z :=
  error ← py_get result k_error;
  if eq_str error (of_string "NO_API_KEY") then Ok 2%Z
  else
    error ← py_get result k_error;
    if eq_str error (of_string "NO_FILES") then Ok 0%Z
    else
      has_error ← py_contains k_error result;
      if has_error : bool then Ok 1%Z
      else
        summary ← py_get_default result k_summary (JObj ∅);
        stats ← py_get_default summary k_stats (JObj ∅);
        blocking ← py_get_default stats k_blocking (JInt 0);
        positive ← py_gt_zero blocking;
        Ok (if positive : bool then 3 else 0)%Z.
End ExitStatus.

(** * Auxiliary definitions for the statements *)

(** The score in units of [1/200]. *)
Definition scaled_score (newlines file_count : nat) (security async classes : bool) : Z :=
  (Z.min (Z.of_nat newlines) 400 + 100 * Z.of_nat file_count
   + (if security then 200 else 0) + (if async then 100 else 0)
   + (if classes then 100 else 0))%Z.

(** The level as a function of the scaled score. *)
Definition scaled_level (z : Z) : text :=
  if (z <? 300)%Z then level_minimal
  else if (z <? 600)%Z then level_medium
  else level_high.

(** [i.get(key)] on a dict, as a total function. *)
Definition field (i : json) (key : text) : json :=
  match i with
  | JObj m => default JNull (m !! key)
  | _ => JNull
  end.

Definition in_blocking (i : json) : bool := eq_str (field i k_severity) k_blocking.
Definition in_warning (i : json) : bool :=
  eq_str (field i k_severity) k_non_blocking && negb (eq_str (field i k_type) k_suggestion).
Definition in_suggestion (i : json) : bool := eq_str (field i k_type) k_suggestion.

(** An issue of type [suggestion] and severity [blocking]. *)
Definition blocking_suggestion : gmap text json :=
  <[k_type := JStr k_suggestion]> (<[k_severity := JStr k_blocking]> ∅).

(** A dict after [if key not in d: d[key] = dflt]. *)
Definition with_default (m : gmap text json) (key : text) (dflt : json) : gmap text json :=
  match m !! key with
  | Some _ => m
  | None => <[key := dflt]> m
  end.

(** The top-level dict after the three structural defaults. *)
Definition defaults (m : gmap text json) : gmap text json :=
  with_default (with_default (with_default m k_summary default_summary) k_issues (JArr []))
    k_positive_aspects (JArr []).

(** The number of [items] whose field [key] is the string [value]. *)
Definition count_field (key value : text) (items : list json) : Z :=
  Z.of_nat (length (List.filter (fun i => eq_str (field i key) value) items)).

Definition is_dict (v : json) : Prop :=
  match v with
  | JObj _ => True
  | _ => False
  end.

(** The issues of a result: what iterating over its [issues] entry yields. *)
Definition issues_of (result : json) : list json :=
  match py_iter (field result k_issues) with
  | Ok items => items
  | Raise _ => []
  end.

(** A computation that does not end in a [JSONDecodeError]. *)
Definition no_decode_error {A} (c : outcome A) : Prop :=
  match c with
  | Raise (JSONDecodeError _ _ _) => False
  | _ => True
  end.

(** [summary.stats[key]] of a result. *)
Definition stat_of (result : json) (key : text) : json :=
  field (field (field result k_summary) k_stats) key.

(** The limits of CPython with its default settings: a recursion limit of
    1000, which bounds the nesting that the decoder can enter (the frames of
    its callers take some of it), and 4300 digits. *)
Definition cpython : interpreter :=
  {| nesting_headroom := 1000; int_max_str_digits := 4300 |}.

(** A sample reply: two findings, a stale count in the summary. *)
Definition sample_reply : text :=
  jtext "{'summary': {'verdict': 'approve', 'stats': {'blocking': 7}}, 'issues': [{'severity': 'blocking', 'title': 'a'}, {'severity': 'non-blocking', 'type': 'suggestion'}]}".

Definition sample_data : json :=
  Eval vm_compute in
    match json_loads cpython (pre_decode sample_reply) with
    | Ok data => data
    | Raise _ => JNull
    end.

Definition sample_result : json :=
  Eval vm_compute in
    match parse_json_response cpython sample_reply with
    | Ok r => r
    | Raise _ => JNull
    end.

(** The issue dicts after the id loop: the dict at (0-based) position [j]
    gets the id [j + 1] unless it has one. *)
Definition backfilled (objs : list (gmap text json)) : list json :=
  imap (fun j o => JObj (with_default o k_id (JInt (Z.of_nat j + 1)))) objs.

(** The [id] fields of a list of issues. *)
Definition ids_of (issues : list json) : list json :=
  (fun i => field i k_id) <$> issues.

(** A reply whose issues carry no ids. *)
Definition reply_without_ids : text :=
  jtext "{'issues': [{'title': 'x'}, {'title': 'y'}, {'title': 'z'}]}".

Definition reply_without_ids_issues : list (gmap text json) :=
  [ {[ of_string "title" := JStr (of_string "x") ]};
    {[ of_string "title" := JStr (of_string "y") ]};
    {[ of_string "title" := JStr (of_string "z") ]} ].

Definition reply_without_ids_data : gmap text json :=
  {[ k_issues := JArr (JObj <$> reply_without_ids_issues) ]}.

Definition reply_without_ids_result : json :=
  Eval vm_compute in
    match parse_json_response cpython reply_without_ids with
    | Ok r => r
    | Raise _ => JNull
    end.

(** The reply of the specification's example, its decoded form and the
    result the specification describes. *)
Definition lone_issue_reply : text := jtext "{'issues': [{'title':'x'}]}".

Definition lone_issue_data : gmap text json :=
  {[ k_issues := JArr [JObj {[ of_string "title" := JStr (of_string "x") ]}] ]}.

Definition zero_stats : gmap text json :=
  <[k_blocking := JInt 0]> (<[k_warning := JInt 0]> (<[k_suggestion := JInt 0]> ∅)).

Definition lone_issue_result : json :=
  JObj (<[k_summary :=
           JObj (<[k_verdict := JStr (of_string "request_changes")]>
                (<[k_overview := JStr (of_string "Review completed")]>
                (<[k_stats := JObj zero_stats]> ∅)))]>
       (<[k_issues :=
           JArr [JObj (<[of_string "title" := JStr (of_string "x")]>
                      (<[k_id := JInt 1]> ∅))]]>
       (<[k_positive_aspects := JArr []]> ∅))).

(** Two replies that the decoder gives up on without a [JSONDecodeError]:
    2000 opening brackets, and an object that holds an integer literal of
    4301 digits. *)
Definition deep_reply : text := replicate 2000 (chr "[").

Definition long_integer_reply : text :=
  jtext "{'n': " ++ replicate 4301 (chr "7") ++ jtext "}".

(** The reply of the specification's example that is not JSON. *)
Definition not_json_reply : text := of_string "not json at all".

(** [t] inside a fenced block, tagged [json] or not: the fence lines are on
    lines of their own. *)
Definition fenced (tagged : bool) (t : text) : text :=
  fence ++ (if tagged then of_string "json" else []) ++ nl ++ t ++ nl ++ fence.

(** A valid JSON document with a fence marker inside a string. *)
Definition fence_in_string : text := jtext "{'title': '```'}".

(** A top-level dict [m] whose summary is [sm] with [stats] set to [st]. *)
Definition with_stats (m sm st : gmap text json) : json :=
  JObj (<[k_summary := JObj (<[k_stats := JObj st]> sm)]> m).

(** The three counts written over the stats [st]. *)
Definition recounted (st : gmap text json) (n1 n2 n3 : Z) : gmap text json :=
  <[k_suggestion := JInt n3]> (<[k_warning := JInt n2]> (<[k_blocking := JInt n1]> st)).

(** Two replies that differ only under [summary.stats]. *)
Definition reply_extra_stat : text :=
  jtext "{'summary': {'verdict': 'approve', 'stats': {'blocking': 9, 'confidence': 1}}, 'issues': []}".

Definition reply_plain_stat : text :=
  jtext "{'summary': {'verdict': 'approve', 'stats': {'blocking': 0}}, 'issues': []}".

Definition reply_other_counts : text :=
  jtext "{'summary': {'verdict': 'approve', 'stats': {'blocking': 3, 'confidence': 1, 'warning': 4}}, 'issues': []}".

(** The decoded parts of [reply_extra_stat] and [reply_other_counts]. *)
Definition no_issues_data : gmap text json := {[ k_issues := JArr [] ]}.
Definition approve_summary : gmap text json :=
  {[ k_verdict := JStr (of_string "approve") ]}.
Definition extra_stats : gmap text json :=
  <[k_blocking := JInt 9]> (<[of_string "confidence" := JInt 1]> ∅).
Definition other_stats : gmap text json :=
  <[k_blocking := JInt 3]> (<[k_warning := JInt 4]> (<[of_string "confidence" := JInt 1]> ∅)).

(** The suffix of a POSIX path in the common case, for the examples: the part
    of the last component from its last dot on, when the dot is neither its
    first nor its last character. *)
Fixpoint last_component (p : text) : text :=
  match p with
  | [] => []
  | c :: p' => if existsb (char_eqb (chr "/")) p' then last_component p' else
               if char_eqb c (chr "/") then p' else p
  end.

Fixpoint from_last_dot (name : text) : option text :=
  match name with
  | [] => None
  | c :: name' =>
      match from_last_dot name' with
      | Some s => Some s
      | None => if char_eqb c (chr ".") then Some name else None
      end
  end.

Definition posix_suffix (p : text) : text :=
  let name := last_component p in
  match name, from_last_dot name with
  | _ :: _, Some ((_ :: _ :: _) as s) =>
      if text_eqb s name then [] else s
  | _, _ => []
  end.

Definition exn_name (e : exn) : text :=
  match e with
  | TypeError => of_string "TypeError"
  | AttributeError => of_string "AttributeError"
  | KeyError k => k
  | RecursionError => of_string "RecursionError"
  | ValueError => of_string "ValueError"
  | BudgetExhausted => of_string "BudgetExhausted"
  | JSONDecodeError msg doc pos => decode_error_str msg doc pos
  end.




(** Whether [review_code] keeps [file_path] out for its extension. *)
Definition excluded (str_lower path_suffix : text -> text) (file_path : text) : bool :=
  existsb (text_eqb (str_lower (path_suffix file_path))) skip_extensions.



(** An outcome of a scanning function that is an exception of the decoder
    or a value that leaves fewer than [n] characters. *)
Definition scan_fine {A} (r : outcome (A * text)) (n : nat) : Prop :=
  match r with
  | Ok (_, rest) => length rest < n
  | Raise e => exn_of_decoder e = true
  end.
(** * Further definitions for the statements *)

(** The levels in increasing order of depth. *)
Definition level_rank (level : text) : nat :=
  if text_eqb level level_high then 2
  else if text_eqb level level_medium then 1
  else 0.

(** An issue that is a dict with an [id] entry. *)
Definition has_id (i : json) : Prop :=
  match i with
  | JObj o => is_Some (o !! k_id)
  | _ => False
  end.

(** A property of an entry that may be absent. *)
Definition absent_or (P : json -> Prop) (entry : option json) : Prop :=
  match entry with
  | Some v => P v
  | None => True
  end.

Definition dict_with_dict_stats (v : json) : Prop :=
  match v with
  | JObj sm => absent_or is_dict (sm !! k_stats)
  | _ => False
  end.

Definition list_of_dicts (v : json) : Prop :=
  match v with
  | JArr l => Forall is_dict l
  | _ => False
  end.

(** A decoded object of the shape the prompt asks for, as far as the
    normalizer looks at it: its [summary], when present, is a dict whose
    [stats], when present, is a dict; its [issues], when present, is a list
    of dicts. *)
Definition well_shaped (m : gmap text json) : Prop :=
  absent_or dict_with_dict_stats (m !! k_summary)
  /\ absent_or list_of_dicts (m !! k_issues).

(** The object that [sample_reply] decodes to. *)
Definition sample_object : gmap text json :=
  <[k_summary := JObj (<[k_verdict := JStr (of_string "approve")]>
                      (<[k_stats := JObj (<[k_blocking := JInt 7]> ∅)]> ∅))]>
  (<[k_issues := JArr [JObj (<[k_severity := JStr k_blocking]>
                            (<[of_string "title" := JStr (of_string "a")]> ∅));
                       JObj (<[k_severity := JStr k_non_blocking]>
                            (<[k_type := JStr k_suggestion]> ∅))]]> ∅).

(** A candidate that [review_code] gets as far as reading. *)
Definition attempted (str_lower path_suffix : text -> text) (w : world) (file_path : text)
  : bool :=
  path_exists w file_path && path_is_file w file_path
  && negb (excluded str_lower path_suffix file_path).

(** A candidate that [review_code] takes among the valid files: it exists,
    is a regular file, its extension is not excluded, it can be read and
    its content has at most 50000 characters. *)
Definition accepted (str_lower path_suffix : text -> text) (w : world) (file_path : text)
  : bool :=
  attempted str_lower path_suffix w file_path
  && match read_text w file_path with
     | inl content => negb (size_ceiling <? N.of_nat (length content))%N
     | inr _ => false
     end.

Definition k_meta : text := of_string "meta".

(** The [meta] entry that [review_code] attaches. *)
Definition meta_of (valid_files : list text) (thinking_level : text) (focus : option text)
  : json :=
  JObj (<[of_string "files" := JArr (JStr <$> valid_files)]>
       (<[of_string "thinking_level" := JStr thinking_level]>
       (<[of_string "focus" := from_option JStr JNull focus]> ∅))).

(** A world with a key and the client library, one small Python file, and
    a service that answers every prompt with [reply]. *)
Definition small_file : text := of_string "src/app.py".

Definition replying_world (reply : text) : world :=
  {| python := cpython;
     genai_installed := true;
     api_key := Some (of_string "key");
     path_exists := fun p => text_eqb p small_file;
     path_is_file := fun p => text_eqb p small_file;
     read_text := fun _ => inl (of_string "x = 1");
     generate_content := fun _ _ => inl reply |}.

(** A float comparison for the examples, in which no float occurs. *)
Definition no_float (lexeme : text) : bool := false.

(** A case mapping for ASCII text, for the examples. *)
Definition ascii_upper (s : text) : text :=
  map (fun c => if ((97 <=? c) && (c <=? 122))%N then (c - 32)%N else c) s.

Definition comma : char := chr ",".

(** A file name as [main] passes it on: not empty, without comma, without
    white space at either end. *)
Definition clean_name (f : text) : Prop :=
  f <> [] /\ ~ In comma f /\ strip f = f.

(** A line that ends with its line feed and has no other. *)
Definition complete_line (line : text) : Prop :=
  exists body, line = body ++ nl /\ ~ In c_newline body.

(** A line as iterating over a file yields it: complete, or the last one
    of a file that does not end with a line feed. *)
Definition line_like (line : text) : Prop :=
  complete_line line \/ (line <> [] /\ ~ In c_newline line).

(** A text that fits on one line: it holds neither a line feed nor a
    carriage return. *)
Definition one_line (s : text) : Prop :=
  ~ In c_newline s /\ ~ In c_return s.

(** The lines of the [.env] file of a store. *)
Definition dotenv_lines (st : key_store) : list text :=
  match dotenv st with
  | Some content => read_lines content
  | None => []
  end.

(** The lines that [setup_api_key] keeps. *)
Definition kept_lines (st : key_store) : list text :=
  close_last_line (List.filter (fun line => negb (is_key_line line)) (dotenv_lines st)).

(** A store with an older key between two other settings, the last line
    without line feed. *)
Definition sample_store : key_store :=
  {| environ_key := None;
     dotenv := Some (of_string "DEBUG=1" ++ [c_return; c_newline]
                     ++ of_string "  GEMINI_API_KEY=old-key" ++ nl
                     ++ of_string "PORT=8080");
     dotenv_writable := true |}.

Definition sample_key : text := of_string "AIzaSy-example-key-0123456789".

(** The line of a key without its line feed. *)
Definition bare_key_line (api_key : text) : text :=
  key_prefix ++ (c_quote :: api_key) ++ [c_quote].

(** An issue of severity [non-blocking]. *)
Definition in_non_blocking (i : json) : bool := eq_str (field i k_severity) k_non_blocking.

(** The entries of an error record. *)
Definition error_entries (kind message : text) : gmap text json :=
  <[k_error := JStr kind]> (<[k_message := JStr message]> ∅).

(** The lines that open every report, and those that close it. *)
Definition banner : list text :=
  [ []; rule; [128269%N] ++ of_string " GEMINI CODE REVIEW"; rule; [] ].

Definition footer : list text := [ rule; [] ].

(** A rendering of values for the examples, in which only strings are
    rendered. *)
Definition no_str (v : json) : text := [].


(** * Properties *)

(** ** The estimator *)

Lemma py_min_scaled (n : Z) :
  (py_min (inject_Z n / 200) 2 == Z.min n 400 # 200)%Q.
Proof.
  unfold py_min. destruct (Qle_bool (inject_Z n / 200) 2) eqn:E.
  - apply Qle_bool_iff in E. unfold Qle, Qdiv, Qmult, Qinv, inject_Z in E. simpl in E.
    unfold Qeq, Qdiv, Qmult, Qinv, inject_Z. simpl. lia.
  - assert (H : ~ (inject_Z n / 200 <= 2)%Q).
    { intros H. apply Qle_bool_iff in H. congruence. }
    unfold Qle, Qdiv, Qmult, Qinv, inject_Z in H. simpl in H.
    unfold Qeq. simpl. lia.
Qed.

Lemma Qmin_scaled (n : Z) :
  (Qmin (inject_Z n / 200) 2 == Z.min n 400 # 200)%Q.
Proof.
  destruct (Qlt_le_dec 2 (inject_Z n / 200)) as [H | H].
  - rewrite Q.min_r by (apply Qlt_le_weak, H).
    unfold Qlt, Qdiv, Qmult, Qinv, inject_Z in H. simpl in H.
    unfold Qeq. simpl. lia.
  - rewrite Q.min_l by exact H.
    unfold Qle, Qdiv, Qmult, Qinv, inject_Z in H. simpl in H.
    unfold Qeq, Qdiv, Qmult, Qinv, inject_Z. simpl. lia.
Qed.

Lemma bonus_scaled (b : bool) (p : positive) (z : Z) :
  (z = Z.pos p * 100)%Z ->
  ((if b then Z.pos p # 2 else 0) == (if b then z else 0) # 200)%Q.
Proof. intros ->. destruct b; unfold Qeq; simpl; lia. Qed.

Lemma complexity_score_scaled lower files code :
  (complexity_score lower files code ==
   scaled_score (str_count [c_newline] code) (length files)
     (has_security_code lower code) (has_async code) (has_classes code) # 200)%Q.
Proof.
  unfold complexity_score, scaled_score.
  rewrite py_min_scaled.
  destruct (has_security_code lower code), (has_async code), (has_classes code);
    unfold Qeq, Qplus, Qmult, inject_Z; simpl; lia.
Qed.

Lemma spec_score_scaled n k sec asy cls :
  (spec_score n k sec asy cls == scaled_score n k sec asy cls # 200)%Q.
Proof.
  unfold spec_score, scaled_score. rewrite Qmin_scaled.
  destruct sec, asy, cls; unfold Qeq, Qplus, Qmult, inject_Z; simpl; lia.
Qed.

Lemma Qlt_bool_scaled (q th : Q) (z t : Z) :
  (q == z # 200)%Q -> (th == t # 2)%Q -> Qlt_bool q th = (z <? 100 * t)%Z.
Proof.
  intros H T. unfold Qlt_bool.
  destruct (Qle_bool th q) eqn:E; simpl; symmetry.
  - apply Qle_bool_iff in E. rewrite H, T in E. unfold Qle in E. simpl in E.
    apply Z.ltb_ge. lia.
  - apply Z.ltb_lt.
    assert (N : ~ (th <= q)%Q) by (intros N; apply Qle_bool_iff in N; congruence).
    rewrite H, T in N. unfold Qle in N. simpl in N. lia.
Qed.

Lemma calculate_thinking_level_scaled lower files code :
  calculate_thinking_level lower files code =
  scaled_level (scaled_score (str_count [c_newline] code) (length files)
     (has_security_code lower code) (has_async code) (has_classes code)).
Proof.
  unfold calculate_thinking_level, scaled_level.
  pose proof (complexity_score_scaled lower files code) as H.
  rewrite (Qlt_bool_scaled _ (3 # 2) _ 3 H) by reflexivity.
  rewrite (Qlt_bool_scaled _ 3 _ 6 H) by reflexivity.
  reflexivity.
Qed.

Lemma spec_level_scaled (q : Q) (z : Z) :
  (q == z # 200)%Q -> spec_level q = scaled_level z.
Proof.
  intros H. unfold spec_level, scaled_level.
  destruct (Qlt_le_dec q (3 # 2)) as [L | L]; rewrite H in L;
    unfold Qlt, Qle in L; simpl in L.
  - replace (z <? 300)%Z with true by (symmetry; apply Z.ltb_lt; lia). reflexivity.
  - replace (z <? 300)%Z with false by (symmetry; apply Z.ltb_ge; lia).
    destruct (Qlt_le_dec q 3) as [M | M]; rewrite H in M;
      unfold Qlt, Qle in M; simpl in M.
    + replace (z <? 600)%Z with true by (symmetry; apply Z.ltb_lt; lia). reflexivity.
    + replace (z <? 600)%Z with false by (symmetry; apply Z.ltb_ge; lia). reflexivity.
Qed.

(** C4 (as amended).  The level returned by [calculate_thinking_level] is
    the level that the thresholds of the specification give to the score of
    the specification (newline count over 200 capped at 2, half a point per
    file, the three bonuses).  For code drawn from one file with no
    security-keyword, async or class-definition match, this level is
    [minimal] when the code has fewer than 200 newlines and [medium] from
    200 newlines on; in particular 1000 newlines give [medium], the score
    being 2.0 + 0.5 = 2.5. *)
Theorem C4_estimator_levels (lower : text -> text) (files : list text) (code : text) :
  calculate_thinking_level lower files code
  = spec_level (spec_score (str_count [c_newline] code) (length files)
                  (has_security_code lower code) (has_async code) (has_classes code))
  /\ (length files = 1 ->
      has_security_code lower code = false ->
      has_async code = false ->
      has_classes code = false ->
      (str_count [c_newline] code < 200 ->
       calculate_thinking_level lower files code = level_minimal)
      /\ (200 <= str_count [c_newline] code ->
          calculate_thinking_level lower files code = level_medium)).
Proof.
  split.
  - rewrite calculate_thinking_level_scaled. symmetry.
    apply spec_level_scaled, spec_score_scaled.
  - intros Hf Hs Ha Hc. rewrite calculate_thinking_level_scaled, Hf, Hs, Ha, Hc.
    unfold scaled_level, scaled_score. split; intros Hn.
    + replace (_ <? 300)%Z with true by (symmetry; apply Z.ltb_lt; lia). reflexivity.
    + replace (_ <? 300)%Z with false by (symmetry; apply Z.ltb_ge; lia).
      replace (_ <? 600)%Z with true by (symmetry; apply Z.ltb_lt; lia). reflexivity.
Qed.

(** One thousand newlines from one file, no match: [medium]. *)
Lemma C4_estimator_levels_witness :
  calculate_thinking_level ascii_lower [of_string "main.py"] (replicate 1000 c_newline)
  = level_medium.
Proof.
  apply (proj2 (C4_estimator_levels ascii_lower [of_string "main.py"]
                  (replicate 1000 c_newline))).
  - reflexivity.
  - vm_compute. reflexivity.
  - vm_compute. reflexivity.
  - vm_compute. reflexivity.
  - apply Nat.leb_le. vm_compute. reflexivity.
Defined.

(** C4 as stated fails: the text of 1000 newlines, from one file and without
    any match, is not rated [high], and a text of 250 newlines (under 300
    lines) is not rated [minimal]. *)
Lemma C4_counterexample :
  let code := replicate 1000 c_newline in
  let code' := replicate 250 c_newline in
  let files := [of_string "main.py"] in
  str_count [c_newline] code = 1000
  /\ has_security_code ascii_lower code = false
  /\ has_async code = false
  /\ has_classes code = false
  /\ calculate_thinking_level ascii_lower files code <> level_high
  /\ str_count [c_newline] code' = 250
  /\ calculate_thinking_level ascii_lower files code' <> level_minimal.
Proof.
  vm_compute. repeat split; try reflexivity; discriminate.
Qed.

(** ** The grouping of the interactive report *)

Lemma text_eqb_eq (a b : text) : text_eqb a b = true <-> a = b.
Proof.
  revert b. induction a as [| x a IH]; intros [| y b]; simpl; split;
    try congruence; try discriminate.
  - intros H. apply andb_true_iff in H as [H1 H2].
    apply N.eqb_eq in H1. apply IH in H2. congruence.
  - intros [= -> ->]. apply andb_true_iff. split.
    + apply N.eqb_refl.
    + apply IH. reflexivity.
Qed.

Lemma eq_str_eq (v : json) (s : text) : eq_str v s = true <-> v = JStr s.
Proof.
  destruct v; simpl; try (split; [discriminate | congruence]).
  rewrite text_eqb_eq. split; congruence.
Qed.

Lemma py_filter_pure (cond : json -> outcome bool) (p : json -> bool) (objs : list (gmap text json)) :
  (forall m, cond (JObj m) = Ok (p (JObj m))) ->
  py_filter cond (JObj <$> objs) = Ok (List.filter p (JObj <$> objs)).
Proof.
  intros H. induction objs as [| m objs IH]; [reflexivity |].
  rewrite fmap_cons. cbn [py_filter List.filter].
  rewrite H, IH. reflexivity.
Qed.

Lemma is_blocking_pure m : is_blocking (JObj m) = Ok (in_blocking (JObj m)).
Proof. reflexivity. Qed.

Lemma is_warning_pure m : is_warning (JObj m) = Ok (in_warning (JObj m)).
Proof.
  unfold is_warning, in_warning. simpl.
  destruct (eq_str (default JNull (m !! k_severity)) k_non_blocking); reflexivity.
Qed.

Lemma is_suggestion_pure m : is_suggestion (JObj m) = Ok (in_suggestion (JObj m)).
Proof. reflexivity. Qed.

Lemma blocking_not_warning (i : json) : in_warning i = true -> in_blocking i = false.
Proof.
  unfold in_warning, in_blocking. intros H. apply andb_true_iff in H as [H _].
  apply eq_str_eq in H. rewrite H. reflexivity.
Qed.

Lemma suggestion_not_warning (i : json) : in_warning i = true -> in_suggestion i = false.
Proof.
  unfold in_warning, in_suggestion. intros H. apply andb_true_iff in H as [_ H].
  apply negb_true_iff in H. exact H.
Qed.

(** C3 (as amended).  The three groups of the interactive report are three
    independent selections from the issues, each in input order: BLOCKING
    holds the issues of severity [blocking], WARNINGS those of severity
    [non-blocking] whose type is not [suggestion], SUGGESTIONS those of type
    [suggestion].  An issue listed under WARNINGS is listed nowhere else,
    but an issue of type [suggestion] and severity [blocking] is listed in
    both the BLOCKING and the SUGGESTIONS group, and an issue that
    satisfies none of the three conditions is listed in no group. *)
Theorem C3_grouping (objs : list (gmap text json)) :
  let issues := JObj <$> objs in
  exists g,
    group_issues issues = Ok g
    /\ blocking_issues g = List.filter in_blocking issues
    /\ warning_issues g = List.filter in_warning issues
    /\ suggestion_issues g = List.filter in_suggestion issues
    /\ (forall i, In i (warning_issues g) ->
          ~ In i (blocking_issues g) /\ ~ In i (suggestion_issues g))
    /\ (forall i, In i issues -> in_blocking i = true -> in_suggestion i = true ->
          In i (blocking_issues g) /\ In i (suggestion_issues g))
    /\ (forall i, In i issues ->
          in_blocking i = false -> in_warning i = false -> in_suggestion i = false ->
          ~ In i (blocking_issues g) /\ ~ In i (warning_issues g)
          /\ ~ In i (suggestion_issues g)).
Proof.
  intros issues. subst issues. unfold group_issues.
  rewrite (py_filter_pure _ _ objs is_blocking_pure).
  rewrite (py_filter_pure _ _ objs is_warning_pure).
  rewrite (py_filter_pure _ _ objs is_suggestion_pure).
  eexists. split; [reflexivity |]. cbn [blocking_issues warning_issues suggestion_issues].
  repeat split; try reflexivity.
  - intros Hb. apply filter_In in H as [_ H], Hb as [_ Hb].
    apply blocking_not_warning in H. congruence.
  - intros Hs. apply filter_In in H as [_ H], Hs as [_ Hs].
    apply suggestion_not_warning in H. congruence.
  - apply filter_In. auto.
  - apply filter_In. auto.
  - intros Hb. apply filter_In in Hb as [_ Hb]. congruence.
  - intros Hb. apply filter_In in Hb as [_ Hb]. congruence.
  - intros Hb. apply filter_In in Hb as [_ Hb]. congruence.
Qed.

(** The report applies this grouping to the [issues] list of the result. *)
Lemma report_groups_list (m : gmap text json) (items : list json) :
  m !! k_issues = Some (JArr items) ->
  report_groups (JObj m) = group_issues items.
Proof. intros H. unfold report_groups. simpl. rewrite H. reflexivity. Qed.

Lemma C3_grouping_witness :
  exists g,
    group_issues [JObj blocking_suggestion] = Ok g
    /\ In (JObj blocking_suggestion) (blocking_issues g)
    /\ In (JObj blocking_suggestion) (suggestion_issues g).
Proof.
  destruct (C3_grouping [blocking_suggestion]) as (g & Hg & _ & _ & _ & _ & Hboth & _).
  exists g. split; [exact Hg |].
  apply Hboth.
  - left. reflexivity.
  - vm_compute. reflexivity.
  - vm_compute. reflexivity.
Defined.

(** C3 as stated fails: an issue of type [suggestion] and severity [blocking]
    is listed in the blocking group (and again in the suggestion group), and
    an issue with neither mark is listed nowhere. *)
Lemma C3_counterexample :
  let x := JObj (<[k_type := JStr k_suggestion]> (<[k_severity := JStr k_blocking]> ∅)) in
  let y := JObj (<[k_type := JStr (of_string "nitpick")]> ∅) in
  group_issues [x; y]
  = Ok {| blocking_issues := [x]; warning_issues := []; suggestion_issues := [x] |}.
Proof. vm_compute. reflexivity. Qed.

(** ** The normalizer *)

Lemma bind_inv {A B} (c : outcome A) (k : A -> outcome B) (r : B) :
  (c ≫= k) = Ok r -> exists a, c = Ok a /\ k a = Ok r.
Proof. destruct c as [a | e]; simpl; [eauto | discriminate]. Qed.

Ltac inv_bind H :=
  let a := fresh "v" in
  let E := fresh "E" in
  apply bind_inv in H as (a & E & H).

Lemma ensure_key_obj (m : gmap text json) (key : text) (dflt : json) :
  ensure_key (JObj m) key dflt = Ok (JObj (with_default m key dflt)).
Proof.
  unfold ensure_key, with_default. simpl.
  destruct (m !! key) as [v |] eqn:E.
  - rewrite bool_decide_true by eauto. reflexivity.
  - rewrite bool_decide_false by (intros [v Hv]; discriminate). reflexivity.
Qed.

Lemma ensure_key_inv (obj : json) (key : text) (dflt : json) (m' : gmap text json) :
  ensure_key obj key dflt = Ok (JObj m') ->
  exists m, obj = JObj m /\ m' = with_default m key dflt.
Proof.
  destruct obj; try discriminate.
  - unfold ensure_key. simpl. destruct (is_substring key s); discriminate.
  - unfold ensure_key. simpl. destruct (existsb _ l); discriminate.
  - rewrite ensure_key_obj. intros [= <-]. eauto.
Qed.

Lemma py_getitem_inv (c : json) (key : text) (v : json) :
  py_getitem c key = Ok v -> exists m, c = JObj m /\ m !! key = Some v.
Proof.
  destruct c; try discriminate. simpl.
  destruct (m !! key) eqn:E; [| discriminate]. intros [= <-]. eauto.
Qed.

Lemma py_setitem_inv (c : json) (key : text) (v r : json) :
  py_setitem c key v = Ok r -> exists m, c = JObj m /\ r = JObj (<[key := v]> m).
Proof. destruct c; try discriminate. intros [= <-]. eauto. Qed.

Lemma with_default_lookup (m : gmap text json) (key : text) (dflt : json) :
  with_default m key dflt !! key = Some (default dflt (m !! key)).
Proof.
  unfold with_default. destruct (m !! key) eqn:E; simpl.
  - exact E.
  - apply lookup_insert_eq.
Qed.

Lemma with_default_lookup_ne (m : gmap text json) (key key' : text) (dflt : json) :
  key <> key' -> with_default m key dflt !! key' = m !! key'.
Proof.
  intros N. unfold with_default. destruct (m !! key); [reflexivity |].
  apply lookup_insert_ne, N.
Qed.

(** What a successful run of [normalize] went through. *)
Lemma normalize_inv (data r : json) :
  normalize data = Ok r ->
  exists (m : gmap text json) (issues : json) (items items' : list json)
         (sm0 st : gmap text json) (n1 n2 n3 : Z),
    data = JObj m
    /\ defaults m !! k_issues = Some issues
    /\ py_iter issues = Ok items
    /\ ensure_ids 1 items = Ok items'
    /\ (let m4 := match issues with
                  | JArr _ => <[k_issues := JArr items']> (defaults m)
                  | _ => defaults m
                  end in
        let sm := with_default sm0 k_stats (JObj ∅) in
        let m5 := <[k_summary := JObj sm]> m4 in
        m4 !! k_summary = Some (JObj sm0)
        /\ sm !! k_stats = Some (JObj st)
        /\ count_issues (JObj m5) k_severity k_blocking = Ok n1
        /\ count_issues (JObj m5) k_severity k_non_blocking = Ok n2
        /\ count_issues (JObj m5) k_type k_suggestion = Ok n3
        /\ r = JObj (<[k_summary :=
                        JObj (<[k_stats :=
                          JObj (<[k_suggestion := JInt n3]>
                               (<[k_warning := JInt n2]>
                               (<[k_blocking := JInt n1]> st)))]> sm)]> m4)).
Proof.
  unfold normalize. intros H.
  do 20 inv_bind H. injection H as <-.
  apply py_getitem_inv in E2 as (m3 & -> & Hissues).
  apply ensure_key_inv in E1 as (m2 & -> & ->).
  apply ensure_key_inv in E0 as (m1 & -> & ->).
  apply ensure_key_inv in E as (m & -> & ->).
  fold (defaults m) in *.
  set (m4 := match v2 with
             | JArr _ => <[k_issues := JArr v4]> (defaults m)
             | _ => defaults m
             end).
  assert (Hv5 : v5 = JObj m4).
  { subst m4. destruct v2; simpl in E5; congruence. }
  subst v5. clear E5.
  apply py_getitem_inv in E6 as (m4' & [= <-] & Hsummary).
  apply py_setitem_inv in E8 as (m4' & [= <-] & ->).
  apply py_getitem_inv in E9 as (m5' & [= <-] & Hv9).
  rewrite lookup_insert_eq in Hv9. injection Hv9 as <-.
  apply py_getitem_inv in E10 as (sm & -> & Hstats).
  apply ensure_key_inv in E7 as (sm0 & -> & ->).
  apply py_setitem_inv in E12 as (st & -> & ->).
  apply py_setitem_inv in E14 as (st1 & [= <-] & ->).
  apply py_setitem_inv in E16 as (st2 & [= <-] & ->).
  apply py_setitem_inv in E17 as (sm' & [= <-] & ->).
  apply py_setitem_inv in E18 as (m5' & [= <-] & ->).
  exists m, v2, v3, v4, sm0, st, v11, v13, v15.
  repeat split; try assumption.
  rewrite insert_insert_eq. reflexivity.
Qed.

(** Only [json.loads] raises [JSONDecodeError]. *)
Lemma no_decode_error_bind {A B} (c : outcome A) (k : A -> outcome B) :
  no_decode_error c -> (forall a, no_decode_error (k a)) -> no_decode_error (c ≫= k).
Proof. destruct c as [a | e]; simpl; auto. Qed.

Lemma py_contains_clean key c : no_decode_error (py_contains key c).
Proof. destruct c; exact I. Qed.

Lemma py_setitem_clean c key v : no_decode_error (py_setitem c key v).
Proof. destruct c; exact I. Qed.

Lemma py_getitem_clean c key : no_decode_error (py_getitem c key).
Proof. destruct c; try exact I. simpl. destruct (m !! key); exact I. Qed.

Lemma py_iter_clean c : no_decode_error (py_iter c).
Proof. destruct c; exact I. Qed.

Lemma py_get_clean c key : no_decode_error (py_get c key).
Proof. destruct c; exact I. Qed.

Lemma ensure_key_clean obj key dflt : no_decode_error (ensure_key obj key dflt).
Proof.
  apply no_decode_error_bind; [apply py_contains_clean |].
  intros [|]; [exact I | apply py_setitem_clean].
Qed.

Lemma ensure_ids_clean items : forall i, no_decode_error (ensure_ids i items).
Proof.
  induction items as [| x items IH]; intros i; simpl; [exact I |].
  apply no_decode_error_bind; [apply ensure_key_clean |]. intros x'.
  apply no_decode_error_bind; [apply IH |]. intros; exact I.
Qed.

Lemma count_where_clean key value items : no_decode_error (count_where key value items).
Proof.
  induction items as [| x items IH]; simpl; [exact I |].
  apply no_decode_error_bind; [apply py_get_clean |]. intros v.
  apply no_decode_error_bind; [apply IH |]. intros; exact I.
Qed.

Lemma count_issues_clean data key value : no_decode_error (count_issues data key value).
Proof.
  apply no_decode_error_bind; [apply py_getitem_clean |]. intros issues.
  apply no_decode_error_bind; [apply py_iter_clean |]. intros items.
  apply count_where_clean.
Qed.

Lemma normalize_clean data : no_decode_error (normalize data).
Proof.
  unfold normalize.
  repeat first
    [ exact I
    | apply ensure_key_clean | apply py_getitem_clean | apply py_setitem_clean
    | apply py_iter_clean | apply ensure_ids_clean | apply count_issues_clean
    | apply no_decode_error_bind; [| intros ?]
    | match goal with |- no_decode_error (match ?x with _ => _ end) => destruct x end ].
Qed.

(** When the reply decodes, the normalizer's outcome is that of [normalize]. *)
Lemma parse_json_response_decoded (py : interpreter) (response_text : text) (data : json) :
  json_loads py (pre_decode response_text) = Ok data ->
  parse_json_response py response_text = normalize data.
Proof.
  intros H. unfold parse_json_response. fold (pre_decode response_text).
  rewrite H. simpl.
  pose proof (normalize_clean data) as C.
  destruct (normalize data) as [r | e]; [reflexivity |].
  destruct e; [reflexivity .. | destruct C].
Qed.

Lemma count_where_inv key value items n :
  count_where key value items = Ok n ->
  Forall is_dict items /\ n = count_field key value items.
Proof.
  revert n. induction items as [| x items IH]; simpl; intros n H.
  - injection H as <-. split; [constructor | reflexivity].
  - inv_bind H. inv_bind H. injection H as <-.
    destruct (IH _ E0) as [F ->].
    destruct x; try discriminate. simpl in E. injection E as <-.
    split; [constructor; [exact I | exact F] |].
    unfold count_field. simpl.
    destruct (eq_str (default JNull (m !! key)) value); simpl; lia.
Qed.

Lemma count_issues_obj (m : gmap text json) (issues : json) (items : list json) key value :
  m !! k_issues = Some issues -> py_iter issues = Ok items ->
  count_issues (JObj m) key value = count_where key value items.
Proof. intros H1 H2. unfold count_issues. simpl. rewrite H1. simpl. rewrite H2. reflexivity. Qed.

Lemma iter_of_strings_dicts (l : list text) :
  Forall is_dict (JStr <$> l) -> l = [].
Proof.
  destruct l as [| x l]; [reflexivity |]. rewrite fmap_cons. intros H.
  inversion H as [| ? ? Hd]. destruct Hd.
Qed.

(** What the counting loops of a successful run saw, and what they found. *)
Lemma normalize_stats (data r : json) :
  normalize data = Ok r ->
  Forall is_dict (issues_of r)
  /\ stat_of r k_blocking = JInt (count_field k_severity k_blocking (issues_of r))
  /\ stat_of r k_warning = JInt (count_field k_severity k_non_blocking (issues_of r))
  /\ stat_of r k_suggestion = JInt (count_field k_type k_suggestion (issues_of r)).
Proof.
  intros H.
  apply normalize_inv in H
    as (m & issues & items & items' & sm0 & st & n1 & n2 & n3
        & -> & Hissues & Hiter & Hids & Hsum & Hst & C1 & C2 & C3 & ->).
  set (m4 := match issues with
             | JArr _ => <[k_issues := JArr items']> (defaults m)
             | _ => defaults m
             end) in *.
  assert (Hne : k_summary <> k_issues) by (vm_compute; discriminate).
  (* the issues entry of the result, and what iterating over it yields *)
  assert (Hres : exists v its, m4 !! k_issues = Some v /\ py_iter v = Ok its
                               /\ (forall k x, count_issues (JObj (<[k_summary :=
                                      JObj (with_default sm0 k_stats (JObj ∅))]> m4)) k x
                                    = count_where k x its)).
  { subst m4. destruct issues;
      try (exists (JArr items'), items'; split; [apply lookup_insert_eq |];
           split; [reflexivity |]; intros k x;
           apply count_issues_obj with (issues := JArr items');
           [rewrite lookup_insert_ne by exact Hne; apply lookup_insert_eq | reflexivity]);
      try (eexists _, items; split; [exact Hissues |]; split; [exact Hiter |];
           intros k x; eapply count_issues_obj;
           [rewrite lookup_insert_ne by exact Hne; exact Hissues | exact Hiter]). }
  destruct Hres as (v & its & Hv & Hits & Hcount).
  rewrite Hcount in C1, C2, C3.
  apply count_where_inv in C1 as [F ->].
  apply count_where_inv in C2 as [_ ->].
  apply count_where_inv in C3 as [_ ->].
  assert (Hio : issues_of (JObj (<[k_summary := JObj (<[k_stats :=
                  JObj (<[k_suggestion := JInt (count_field k_type k_suggestion its)]>
                       (<[k_warning := JInt (count_field k_severity k_non_blocking its)]>
                       (<[k_blocking := JInt (count_field k_severity k_blocking its)]> st)))]>
                  (with_default sm0 k_stats (JObj ∅)))]> m4)) = its).
  { unfold issues_of, field. rewrite lookup_insert_ne by exact Hne.
    rewrite Hv. simpl. rewrite Hits. reflexivity. }
  rewrite Hio. split; [exact F |].
  unfold stat_of, field. rewrite !lookup_insert_eq. simpl.
  rewrite !lookup_insert_eq. simpl.
  repeat split.
  - rewrite lookup_insert_ne by (vm_compute; discriminate).
    rewrite lookup_insert_ne by (vm_compute; discriminate).
    rewrite lookup_insert_eq. reflexivity.
  - rewrite lookup_insert_ne by (vm_compute; discriminate).
    rewrite lookup_insert_eq. reflexivity.
  - rewrite lookup_insert_eq. reflexivity.
Qed.

(** C1.  Whenever the reply decodes and [parse_json_response] returns a
    result, the [blocking], [warning] and [suggestion] entries of the
    result's [summary.stats] are the numbers of issues of the result whose
    [severity] is "blocking", whose [severity] is "non-blocking", and whose
    [type] is "suggestion". *)
Theorem C1_stats_are_counts (py : interpreter) (response_text : text) (data r : json) :
  json_loads py (pre_decode response_text) = Ok data ->
  parse_json_response py response_text = Ok r ->
  stat_of r k_blocking = JInt (count_field k_severity k_blocking (issues_of r))
  /\ stat_of r k_warning = JInt (count_field k_severity k_non_blocking (issues_of r))
  /\ stat_of r k_suggestion = JInt (count_field k_type k_suggestion (issues_of r)).
Proof.
  intros Hd Hr. rewrite (parse_json_response_decoded _ _ _ Hd) in Hr.
  apply normalize_stats in Hr. tauto.
Qed.

Lemma C1_stats_are_counts_witness :
  stat_of sample_result k_blocking = JInt 1
  /\ stat_of sample_result k_warning = JInt 1
  /\ stat_of sample_result k_suggestion = JInt 1.
Proof.
  apply (C1_stats_are_counts cpython sample_reply sample_data sample_result).
  - vm_compute. reflexivity.
  - vm_compute. reflexivity.
Defined.

(** *** Ids *)

Lemma ensure_ids_objs (objs : list (gmap text json)) (i : Z) :
  ensure_ids i (JObj <$> objs)
  = Ok (imap (fun j o => JObj (with_default o k_id (JInt (Z.of_nat j + i)))) objs).
Proof.
  revert i. induction objs as [| o objs IH]; intros i; [reflexivity |].
  rewrite fmap_cons. cbn [ensure_ids]. rewrite ensure_key_obj, IH, imap_cons. simpl.
  replace (0 + i)%Z with i by lia.
  rewrite (imap_ext _ ((fun j o => JObj (with_default o k_id (JInt (Z.of_nat j + i)))) ∘ S) objs);
    [reflexivity |].
  intros j x _. simpl. do 3 f_equal. lia.
Qed.

Lemma defaults_lookup_issues (m : gmap text json) (v : json) :
  m !! k_issues = Some v -> defaults m !! k_issues = Some v.
Proof.
  intros H. unfold defaults.
  rewrite with_default_lookup_ne by (vm_compute; discriminate).
  rewrite with_default_lookup.
  rewrite with_default_lookup_ne by (vm_compute; discriminate).
  rewrite H. reflexivity.
Qed.

(** The issues of the result, when the reply holds a list of dicts. *)
Lemma normalize_issues (m : gmap text json) (objs : list (gmap text json)) (r : json) :
  m !! k_issues = Some (JArr (JObj <$> objs)) ->
  normalize (JObj m) = Ok r ->
  issues_of r = backfilled objs.
Proof.
  intros Hm H.
  apply normalize_inv in H
    as (m' & issues & items & items' & sm0 & st & n1 & n2 & n3
        & [= <-] & Hissues & Hiter & Hids & _ & _ & _ & _ & _ & ->).
  rewrite (defaults_lookup_issues _ _ Hm) in Hissues. injection Hissues as <-.
  simpl in Hiter. injection Hiter as <-.
  rewrite ensure_ids_objs in Hids. injection Hids as <-.
  unfold issues_of, field.
  rewrite lookup_insert_ne by (vm_compute; discriminate).
  rewrite lookup_insert_eq. simpl. unfold backfilled.
  apply imap_ext. reflexivity.
Qed.

Lemma ids_of_backfilled_from (objs : list (gmap text json)) (i : nat) :
  Forall (fun o => o !! k_id = None) objs ->
  (fun x => field x k_id)
    <$> imap (fun j o => JObj (with_default o k_id (JInt (Z.of_nat j + Z.of_nat i)))) objs
  = (fun n => JInt (Z.of_nat n)) <$> seq i (length objs).
Proof.
  revert i. induction objs as [| o objs IH]; intros i F; [reflexivity |].
  inversion F as [| ? ? Ho F']; subst.
  rewrite imap_cons, fmap_cons. cbn [length seq]. rewrite fmap_cons. f_equal.
  - unfold field, with_default. rewrite Ho, lookup_insert_eq. reflexivity.
  - rewrite <- (IH (S i) F'). f_equal. apply imap_ext. intros j x _. simpl.
    do 3 f_equal. lia.
Qed.

(** C5 (as amended).  When the reply decodes to an object whose [issues] is
    a list of dicts and [parse_json_response] returns a result, the issues of
    the result are those of the reply, in input order, the issue at position
    [j] (counted from 1) having received the id [j] if it had no [id] and
    having kept the id the model gave it otherwise.  Hence, when every issue
    of the reply lacks an [id], the ids of the result are exactly 1, 2, ...,
    N in input order, N being the number of issues. *)
Theorem C5_id_backfill (py : interpreter) (response_text : text) (m : gmap text json)
    (objs : list (gmap text json)) (r : json) :
  json_loads py (pre_decode response_text) = Ok (JObj m) ->
  m !! k_issues = Some (JArr (JObj <$> objs)) ->
  parse_json_response py response_text = Ok r ->
  issues_of r = backfilled objs
  /\ (Forall (fun o => o !! k_id = None) objs ->
      ids_of (issues_of r) = (fun n => JInt (Z.of_nat n)) <$> seq 1 (length objs)).
Proof.
  intros Hd Hm Hr. rewrite (parse_json_response_decoded _ _ _ Hd) in Hr.
  pose proof (normalize_issues _ _ _ Hm Hr) as Hi. split; [exact Hi |].
  intros F. rewrite Hi. unfold ids_of, backfilled.
  apply (ids_of_backfilled_from objs 1 F).
Qed.

Lemma C5_id_backfill_witness :
  ids_of (issues_of reply_without_ids_result) = [JInt 1; JInt 2; JInt 3].
Proof.
  apply (C5_id_backfill cpython reply_without_ids reply_without_ids_data
           reply_without_ids_issues reply_without_ids_result).
  - vm_compute. reflexivity.
  - vm_compute. reflexivity.
  - vm_compute. reflexivity.
  - repeat constructor.
Defined.

(** C5 as stated fails: when the first issue carries the id 2 and the second
    none, the ids of the result are 2 and 2, neither duplicate-free nor the
    sequence 1, 2. *)
Lemma C5_counterexample :
  exists r,
    parse_json_response cpython (jtext "{'issues': [{'id': 2}, {'title': 'x'}]}") = Ok r
    /\ ids_of (issues_of r) = [JInt 2; JInt 2].
Proof.
  eexists. split.
  - vm_compute. reflexivity.
  - vm_compute. reflexivity.
Qed.

(** *** Structural defaults *)

Lemma defaults_lookup_default (m : gmap text json) :
  defaults m !! k_summary = Some (default default_summary (m !! k_summary))
  /\ defaults m !! k_issues = Some (default (JArr []) (m !! k_issues))
  /\ defaults m !! k_positive_aspects = Some (default (JArr []) (m !! k_positive_aspects)).
Proof.
  unfold defaults. repeat split.
  - rewrite !with_default_lookup_ne by (vm_compute; discriminate).
    apply with_default_lookup.
  - rewrite with_default_lookup_ne by (vm_compute; discriminate).
    rewrite with_default_lookup.
    rewrite with_default_lookup_ne by (vm_compute; discriminate). reflexivity.
  - rewrite with_default_lookup.
    rewrite !with_default_lookup_ne by (vm_compute; discriminate). reflexivity.
Qed.

(** C7.  The reply [{"issues": [{"title":"x"}]}] is normalized to a result
    with the synthesized summary (verdict [request_changes]), the lone issue
    numbered 1 and all three counts 0; and whenever a reply decodes to an
    object and a result is returned, a missing [issues] key has become an
    empty list, a missing [positive_aspects] key an empty list, and a
    missing [summary] the default summary with recomputed counts. *)
Theorem C7_structural_defaults :
  parse_json_response cpython lone_issue_reply = Ok lone_issue_result
  /\ forall (py : interpreter) (response_text : text) (m : gmap text json) (r : json),
       json_loads py (pre_decode response_text) = Ok (JObj m) ->
       parse_json_response py response_text = Ok r ->
       (m !! k_issues = None -> field r k_issues = JArr [])
       /\ (m !! k_positive_aspects = None -> field r k_positive_aspects = JArr [])
       /\ (m !! k_summary = None ->
           field (field r k_summary) k_verdict = JStr (of_string "request_changes")
           /\ field (field r k_summary) k_overview = JStr (of_string "Review completed")
           /\ is_dict (field (field r k_summary) k_stats)).
Proof.
  split; [vm_compute; reflexivity |].
  intros py response_text m r Hd Hr.
  rewrite (parse_json_response_decoded _ _ _ Hd) in Hr.
  apply normalize_inv in Hr
    as (m' & issues & items & items' & sm0 & st & n1 & n2 & n3
        & [= <-] & Hissues & Hiter & Hids & Hsum & Hst & _ & _ & _ & ->).
  destruct (defaults_lookup_default m) as (Ds & Di & Dp).
  rewrite Di in Hissues. injection Hissues as <-.
  set (m4 := match default (JArr []) (m !! k_issues) with
             | JArr _ => <[k_issues := JArr items']> (defaults m)
             | _ => defaults m
             end) in *.
  assert (Hm4 : forall k, k <> k_issues -> m4 !! k = defaults m !! k).
  { intros k Hk. subst m4. destruct (default (JArr []) (m !! k_issues));
      try reflexivity. apply lookup_insert_ne. congruence. }
  split; [| split].
  - intros Hn. unfold field. rewrite lookup_insert_ne by (vm_compute; discriminate).
    subst m4. rewrite Hn in *. simpl in *. injection Hiter as <-.
    simpl in Hids. injection Hids as <-. rewrite lookup_insert_eq. reflexivity.
  - intros Hn. unfold field. rewrite lookup_insert_ne by (vm_compute; discriminate).
    rewrite Hm4 by (vm_compute; discriminate). rewrite Dp, Hn. reflexivity.
  - intros Hn. rewrite Hm4, Ds, Hn in Hsum by (vm_compute; discriminate).
    injection Hsum as <-. unfold field. rewrite lookup_insert_eq. simpl.
    rewrite !lookup_insert_eq.
    rewrite !(lookup_insert_ne _ k_stats) by (vm_compute; discriminate).
    repeat split.
Qed.

Lemma C7_structural_defaults_witness :
  field lone_issue_result k_positive_aspects = JArr []
  /\ field (field lone_issue_result k_summary) k_verdict
     = JStr (of_string "request_changes").
Proof.
  destruct (proj2 C7_structural_defaults cpython lone_issue_reply lone_issue_data lone_issue_result)
    as (_ & Hp & Hs).
  - vm_compute. reflexivity.
  - vm_compute. reflexivity.
  - split.
    + apply Hp. vm_compute. reflexivity.
    + apply Hs. vm_compute. reflexivity.
Defined.

(** *** Fences *)

Lemma lstrip_app (t u : text) :
  lstrip (t ++ u) = if forallb is_space t then lstrip u else lstrip t ++ u.
Proof.
  induction t as [| c t IH]; [reflexivity |].
  simpl. destruct (is_space c); [exact IH | reflexivity].
Qed.

Lemma lstrip_all_space (t : text) : forallb is_space t = true -> lstrip t = [].
Proof.
  induction t as [| c t IH]; [reflexivity |]. simpl.
  destruct (is_space c); [exact IH | discriminate].
Qed.

Lemma lstrip_head (t : text) :
  match lstrip t with
  | [] => True
  | c :: _ => is_space c = false
  end.
Proof.
  induction t as [| c t IH]; [exact I |]. simpl.
  destruct (is_space c) eqn:E; [exact IH | exact E].
Qed.

Lemma rstrip_all_space (t : text) : forallb is_space t = true -> rstrip t = [].
Proof. destruct t as [| c t]; [reflexivity |]. intros H. cbn [rstrip]. rewrite H. reflexivity. Qed.

Lemma forallb_rstrip (t : text) : forallb is_space (rstrip t) = forallb is_space t.
Proof.
  induction t as [| c t IH]; [reflexivity |].
  cbn [rstrip]. destruct (forallb is_space (c :: t)) eqn:E; [reflexivity |].
  simpl in *. rewrite IH. exact E.
Qed.

Lemma rstrip_idem (t : text) : rstrip (rstrip t) = rstrip t.
Proof.
  induction t as [| c t IH]; [reflexivity |].
  cbn [rstrip]. destruct (forallb is_space (c :: t)) eqn:E; [reflexivity |].
  cbn [rstrip]. simpl in *. rewrite forallb_rstrip, E, IH. reflexivity.
Qed.

Lemma lstrip_rstrip_lstrip (t : text) : lstrip (rstrip (lstrip t)) = rstrip (lstrip t).
Proof.
  pose proof (lstrip_head t) as H. destruct (lstrip t) as [| c y]; [reflexivity |].
  cbn [rstrip]. simpl. rewrite H. simpl. rewrite H. reflexivity.
Qed.

Lemma strip_idem (t : text) : strip (strip t) = strip t.
Proof. unfold strip. rewrite lstrip_rstrip_lstrip. apply rstrip_idem. Qed.

Lemma no_fence_lstrip (t : text) :
  is_substring fence t = false -> is_substring fence (lstrip t) = false.
Proof.
  induction t as [| c t IH]; [reflexivity |]. intros H. simpl lstrip.
  destruct (is_space c); [| exact H].
  apply IH. cbn [is_substring] in H. apply orb_false_iff in H. apply H.
Qed.

(** A fence that starts inside [v], right before a line break, lies in [v]. *)
Lemma starts_with_fence_app (v : text) :
  starts_with fence (v ++ nl ++ fence) = true -> starts_with fence v = true.
Proof.
  destruct v as [| a [| b [| c v]]]; simpl; exact (fun H => H).
Qed.

Lemma strip_prefix_starts (p s r : text) :
  strip_prefix p s = Some r -> starts_with p s = true.
Proof.
  revert s. induction p as [| x p IH]; intros [| y s]; simpl; try discriminate;
    try reflexivity.
  destruct (char_eqb x y); [apply IH | discriminate].
Qed.

Lemma strip_prefix_app (p s : text) : strip_prefix p (p ++ s) = Some s.
Proof.
  induction p as [| x p IH]; [destruct s; reflexivity |].
  simpl. unfold char_eqb. rewrite N.eqb_refl. exact IH.
Qed.

Lemma is_space_nl : is_space c_newline = true.
Proof. reflexivity. Qed.

Lemma re_search_fence_unfold (s : text) :
  re_search_fence s
  = match match_fence_at s with
    | Some g => Some g
    | None => match s with
              | [] => None
              | _ :: s' => re_search_fence s'
              end
    end.
Proof. destruct s; reflexivity. Qed.

(** In front of a closing fence on its own line, the lazy group of a text
    without fence is the text up to its trailing whitespace. *)
Lemma lazy_group_closing (u : text) :
  is_substring fence u = false ->
  lazy_group (u ++ nl ++ fence) = Some (rstrip u).
Proof.
  induction u as [| c u IH]; intros H; [reflexivity |].
  cbn [is_substring] in H. apply orb_false_iff in H as [H1 H2].
  cbn [lazy_group app]. change (c :: u ++ nl ++ fence) with ((c :: u) ++ nl ++ fence).
  rewrite lstrip_app. cbn [rstrip].
  destruct (forallb is_space (c :: u)) eqn:E.
  - reflexivity.
  - assert (F : starts_with fence (lstrip (c :: u) ++ nl ++ fence) = false).
    { destruct (starts_with fence (lstrip (c :: u) ++ nl ++ fence)) eqn:S; [| reflexivity].
      apply starts_with_fence_app in S.
      assert (N : is_substring fence (lstrip (c :: u)) = false).
      { apply no_fence_lstrip. cbn [is_substring]. rewrite H1, H2. reflexivity. }
      destruct (lstrip (c :: u)) as [| x y]; [discriminate |].
      cbn [is_substring] in N. rewrite S in N. discriminate. }
    rewrite F. cbn [app]. rewrite (IH H2). reflexivity.
Qed.

Lemma re_search_fence_none (t : text) :
  is_substring fence t = false -> re_search_fence t = None.
Proof.
  induction t as [| c t IH]; intros H; [reflexivity |].
  cbn [is_substring] in H. apply orb_false_iff in H as [H1 H2].
  rewrite re_search_fence_unfold, (IH H2).
  unfold match_fence_at.
  destruct (strip_prefix fence (c :: t)) eqn:E; [| reflexivity].
  apply strip_prefix_starts in E. congruence.
Qed.

Lemma re_search_fence_fenced (tagged : bool) (t : text) :
  is_substring fence t = false ->
  re_search_fence (fenced tagged t) = Some (rstrip (lstrip t)).
Proof.
  intros H.
  assert (M : match_fence_at (fenced tagged t) = Some (rstrip (lstrip t))).
  { unfold match_fence_at, fenced. rewrite strip_prefix_app.
    assert (S2 : default ((if tagged then of_string "json" else []) ++ nl ++ t ++ nl ++ fence)
                   (strip_prefix (of_string "json")
                      ((if tagged then of_string "json" else []) ++ nl ++ t ++ nl ++ fence))
                 = nl ++ t ++ nl ++ fence).
    { destruct tagged; reflexivity. }
    rewrite S2. rewrite (lstrip_app nl). cbn [forallb nl]. rewrite is_space_nl. cbn [andb].
    rewrite lstrip_app.
    destruct (forallb is_space t) eqn:E.
    - rewrite (lstrip_all_space _ E). reflexivity.
    - apply lazy_group_closing, no_fence_lstrip, H. }
  rewrite re_search_fence_unfold, M. reflexivity.
Qed.

Lemma pre_decode_fenced (tagged : bool) (t : text) :
  is_substring fence t = false -> pre_decode (fenced tagged t) = pre_decode t.
Proof.
  intros H. unfold pre_decode.
  rewrite (re_search_fence_fenced _ _ H), (re_search_fence_none _ H). simpl.
  apply (strip_idem t).
Qed.

Lemma parse_json_response_pre_decode (py : interpreter) (a b : text) :
  pre_decode a = pre_decode b -> parse_json_response py a = parse_json_response py b.
Proof.
  intros H. unfold parse_json_response. fold (pre_decode a) (pre_decode b).
  rewrite H. reflexivity.
Qed.

(** C8 (as amended).  For every text that contains no fence marker (three
    backticks) at all, and so for every valid JSON document without one,
    normalizing the text gives the same outcome as normalizing it wrapped in
    a fenced block, tagged [json] or not. *)
Theorem C8_fence_stripping (py : interpreter) (tagged : bool) (t : text) :
  is_substring fence t = false ->
  parse_json_response py (fenced tagged t) = parse_json_response py t.
Proof.
  intros H. apply parse_json_response_pre_decode, pre_decode_fenced, H.
Qed.

Lemma C8_fence_stripping_witness :
  parse_json_response cpython (fenced true lone_issue_reply) = parse_json_response cpython lone_issue_reply.
Proof.
  apply (C8_fence_stripping cpython true lone_issue_reply). vm_compute. reflexivity.
Defined.

(** C8 as stated fails: the document [{"title": "```"}] is valid JSON and
    holds no fenced block (fence stripping leaves it as it is), yet inside a
    fenced block the lazy group ends at the marker within the string, and
    what is normalized is a parse error instead of a review. *)
Lemma C8_counterexample :
  re_search_fence fence_in_string = None
  /\ json_loads cpython fence_in_string
     = Ok (JObj {[ of_string "title" := JStr (of_string "```") ]})
  /\ (exists r, parse_json_response cpython fence_in_string = Ok r /\ field r k_error = JNull)
  /\ (exists r, parse_json_response cpython (fenced true fence_in_string) = Ok r
                /\ field r k_error = JStr (of_string "JSON_PARSE_ERROR"))
  /\ parse_json_response cpython (fenced true fence_in_string)
     <> parse_json_response cpython fence_in_string.
Proof.
  split; [vm_compute; reflexivity |].
  split; [vm_compute; reflexivity |].
  split; [eexists; split; vm_compute; reflexivity |].
  split; [eexists; split; vm_compute; reflexivity |].
  intros H.
  assert (E : (r ← parse_json_response cpython (fenced true fence_in_string); Ok (field r k_error))
              = (r ← parse_json_response cpython fence_in_string; Ok (field r k_error)))
    by (rewrite H; reflexivity).
  vm_compute in E. discriminate E.
Qed.

(** *** Stats *)

Lemma with_default_present (m : gmap text json) (key : text) (v dflt : json) :
  with_default (<[key := v]> m) key dflt = <[key := v]> m.
Proof. unfold with_default. rewrite lookup_insert_eq. reflexivity. Qed.

Lemma with_default_insert_ne (m : gmap text json) (k k' : text) (v dflt : json) :
  k <> k' -> with_default (<[k := v]> m) k' dflt = <[k := v]> (with_default m k' dflt).
Proof.
  intros N. unfold with_default. rewrite lookup_insert_ne by exact N.
  destruct (m !! k'); [reflexivity |]. apply insert_insert_ne. congruence.
Qed.

Lemma py_getitem_obj (m : gmap text json) (key : text) (v : json) :
  m !! key = Some v -> py_getitem (JObj m) key = Ok v.
Proof. intros H. simpl. rewrite H. reflexivity. Qed.

(** [normalize] on a reply whose summary holds a stats dict. *)
Lemma normalize_with_stats (m sm st : gmap text json) :
  normalize (with_stats m sm st)
  = let mb := with_default (with_default m k_issues (JArr [])) k_positive_aspects (JArr []) in
    let issues := default (JArr []) (m !! k_issues) in
    items ← py_iter issues;
    items' ← ensure_ids 1 items;
    let its := match issues with JArr _ => items' | _ => items end in
    n1 ← count_where k_severity k_blocking its;
    n2 ← count_where k_severity k_non_blocking its;
    n3 ← count_where k_type k_suggestion its;
    Ok (JObj (<[k_summary := JObj (<[k_stats := JObj (recounted st n1 n2 n3)]> sm)]>
               match issues with
               | JArr _ => <[k_issues := JArr items']> mb
               | _ => mb
               end)).
Proof.
  unfold normalize, with_stats.
  set (S := JObj (<[k_stats := JObj st]> sm)).
  set (mb := with_default (with_default m k_issues (JArr [])) k_positive_aspects (JArr [])).
  assert (Nsi : k_summary <> k_issues) by (vm_compute; discriminate).
  assert (Nsp : k_summary <> k_positive_aspects) by (vm_compute; discriminate).
  assert (Nip : k_issues <> k_positive_aspects) by (vm_compute; discriminate).
  rewrite ensure_key_obj, with_default_present. cbn [mbind outcome_bind].
  rewrite ensure_key_obj, (with_default_insert_ne _ _ _ _ _ Nsi). cbn [mbind outcome_bind].
  rewrite ensure_key_obj, (with_default_insert_ne _ _ _ _ _ Nsp). cbn [mbind outcome_bind].
  fold mb.
  assert (Hi : mb !! k_issues = Some (default (JArr []) (m !! k_issues))).
  { subst mb. rewrite with_default_lookup_ne by congruence. apply with_default_lookup. }
  rewrite (py_getitem_obj _ _ (default (JArr []) (m !! k_issues)))
    by (rewrite lookup_insert_ne by exact Nsi; exact Hi).
  cbn [mbind outcome_bind].
  cbv zeta.
  set (issues := default (JArr []) (m !! k_issues)) in *.
  destruct (py_iter issues) as [items | e] eqn:Eiter; cbn [mbind outcome_bind];
    [| reflexivity].
  destruct (ensure_ids 1 items) as [items' | e] eqn:Eids; cbn [mbind outcome_bind];
    [| reflexivity].
  set (m4 := match issues with
             | JArr _ => <[k_issues := JArr items']> mb
             | _ => mb
             end).
  set (its := match issues with JArr _ => items' | _ => items end).
  assert (E4 : match issues with
               | JArr _ => py_setitem (JObj (<[k_summary := S]> mb)) k_issues (JArr items')
               | _ => Ok (JObj (<[k_summary := S]> mb))
               end = Ok (JObj (<[k_summary := S]> m4))).
  { subst m4. destruct issues; try reflexivity. simpl.
    rewrite insert_insert_ne by congruence. reflexivity. }
  rewrite E4. cbn [mbind outcome_bind].
  rewrite (py_getitem_obj _ _ S) by apply lookup_insert_eq. cbn [mbind outcome_bind].
  subst S. rewrite ensure_key_obj, with_default_present. cbn [mbind outcome_bind].
  cbn [py_setitem mbind outcome_bind]. rewrite insert_insert_eq.
  rewrite (py_getitem_obj _ _ (JObj (<[k_stats := JObj st]> sm))) by apply lookup_insert_eq.
  cbn [mbind outcome_bind].
  rewrite (py_getitem_obj _ _ (JObj st)) by apply lookup_insert_eq.
  cbn [mbind outcome_bind].
  assert (Hc : forall k x,
             count_issues (JObj (<[k_summary := JObj (<[k_stats := JObj st]> sm)]> m4)) k x
             = count_where k x its).
  { intros k x. subst m4 its. destruct issues eqn:Ei;
      try (eapply count_issues_obj;
           [rewrite lookup_insert_ne by exact Nsi; exact Hi | exact Eiter]).
    eapply count_issues_obj;
      [rewrite lookup_insert_ne by exact Nsi; apply lookup_insert_eq | reflexivity]. }
  rewrite !Hc.
  destruct (count_where k_severity k_blocking its) as [n1 | e]; cbn [mbind outcome_bind];
    [| reflexivity].
  destruct (count_where k_severity k_non_blocking its) as [n2 | e];
    cbn [py_setitem mbind outcome_bind]; [| reflexivity].
  destruct (count_where k_type k_suggestion its) as [n3 | e];
    cbn [py_setitem mbind outcome_bind]; [| reflexivity].
  rewrite !insert_insert_eq. reflexivity.
Qed.

Lemma recounted_lookup_ne (st : gmap text json) (n1 n2 n3 : Z) (k : text) :
  k <> k_blocking -> k <> k_warning -> k <> k_suggestion ->
  recounted st n1 n2 n3 !! k = st !! k.
Proof.
  intros Hb Hw Hs. unfold recounted.
  rewrite !lookup_insert_ne by congruence. reflexivity.
Qed.

Lemma recounted_agree (st1 st2 : gmap text json) (n1 n2 n3 : Z) :
  (forall k, k <> k_blocking -> k <> k_warning -> k <> k_suggestion -> st1 !! k = st2 !! k) ->
  recounted st1 n1 n2 n3 = recounted st2 n1 n2 n3.
Proof.
  intros H. apply map_eq. intros k. unfold recounted.
  destruct (decide (k = k_suggestion)) as [-> | Hs]; [rewrite !lookup_insert_eq; reflexivity |].
  rewrite !(lookup_insert_ne _ k_suggestion) by congruence.
  destruct (decide (k = k_warning)) as [-> | Hw]; [rewrite !lookup_insert_eq; reflexivity |].
  rewrite !(lookup_insert_ne _ k_warning) by congruence.
  destruct (decide (k = k_blocking)) as [-> | Hb]; [rewrite !lookup_insert_eq; reflexivity |].
  rewrite !(lookup_insert_ne _ k_blocking) by congruence.
  apply H; assumption.
Qed.

(** C6 (as amended).  [parse_json_response] overwrites the three entries
    [blocking], [warning] and [suggestion] of [summary.stats] from the
    issues and keeps every other entry the model put under [stats]: two
    replies that decode to objects identical except for the values of these
    three keys in their stats dicts are normalized to the same outcome, and
    any other key of the stats dict is found unchanged in the result. *)
Theorem C6_stats_overwritten (py : interpreter) (t1 t2 : text) (m sm st1 st2 : gmap text json) :
  json_loads py (pre_decode t1) = Ok (with_stats m sm st1) ->
  json_loads py (pre_decode t2) = Ok (with_stats m sm st2) ->
  (forall k, k <> k_blocking -> k <> k_warning -> k <> k_suggestion ->
             st1 !! k = st2 !! k) ->
  parse_json_response py t1 = parse_json_response py t2
  /\ (forall r k, parse_json_response py t1 = Ok r ->
        k <> k_blocking -> k <> k_warning -> k <> k_suggestion ->
        stat_of r k = default JNull (st1 !! k)).
Proof.
  intros H1 H2 Hst.
  rewrite (parse_json_response_decoded _ _ _ H1), (parse_json_response_decoded _ _ _ H2).
  rewrite !normalize_with_stats. cbv zeta.
  set (issues := default (JArr []) (m !! k_issues)).
  destruct (py_iter issues) as [items | e]; cbn [mbind outcome_bind];
    [| split; [reflexivity | discriminate]].
  destruct (ensure_ids 1 items) as [items' | e]; cbn [mbind outcome_bind];
    [| split; [reflexivity | discriminate]].
  destruct (count_where k_severity k_blocking _) as [n1 | e]; cbn [mbind outcome_bind];
    [| split; [reflexivity | discriminate]].
  destruct (count_where k_severity k_non_blocking _) as [n2 | e]; cbn [mbind outcome_bind];
    [| split; [reflexivity | discriminate]].
  destruct (count_where k_type k_suggestion _) as [n3 | e]; cbn [mbind outcome_bind];
    [| split; [reflexivity | discriminate]].
  split.
  - rewrite (recounted_agree st1 st2 n1 n2 n3 Hst). reflexivity.
  - intros r k [= <-] Hb Hw Hs. unfold stat_of, field.
    rewrite lookup_insert_eq. simpl. rewrite lookup_insert_eq. simpl.
    rewrite recounted_lookup_ne by assumption. reflexivity.
Qed.

Lemma C6_stats_overwritten_witness :
  parse_json_response cpython reply_extra_stat = parse_json_response cpython reply_other_counts
  /\ (forall r k, parse_json_response cpython reply_extra_stat = Ok r ->
        k <> k_blocking -> k <> k_warning -> k <> k_suggestion ->
        stat_of r k = default JNull (extra_stats !! k)).
Proof.
  apply (C6_stats_overwritten cpython reply_extra_stat reply_other_counts
           no_issues_data approve_summary extra_stats other_stats).
  - vm_compute. reflexivity.
  - vm_compute. reflexivity.
  - intros k Hb Hw Hs. unfold extra_stats, other_stats.
    rewrite !(lookup_insert_ne _ k_blocking) by congruence.
    rewrite !(lookup_insert_ne _ k_warning) by congruence.
    reflexivity.
Defined.

(** C6 as stated fails: the replies [reply_extra_stat] and
    [reply_plain_stat] differ only in the content of [summary.stats], where
    the first has the extra key [confidence]; the key survives
    normalization, so the two results differ. *)
Lemma C6_counterexample :
  (exists r, parse_json_response cpython reply_extra_stat = Ok r
             /\ stat_of r (of_string "confidence") = JInt 1
             /\ stat_of r k_blocking = JInt 0)
  /\ (exists r, parse_json_response cpython reply_plain_stat = Ok r
                /\ stat_of r (of_string "confidence") = JNull
                /\ stat_of r k_blocking = JInt 0)
  /\ parse_json_response cpython reply_extra_stat <> parse_json_response cpython reply_plain_stat.
Proof.
  split; [eexists; split; [| split]; vm_compute; reflexivity |].
  split; [eexists; split; [| split]; vm_compute; reflexivity |].
  intros H.
  assert (E : (r ← parse_json_response cpython reply_extra_stat;
               Ok (stat_of r (of_string "confidence")))
              = (r ← parse_json_response cpython reply_plain_stat;
                 Ok (stat_of r (of_string "confidence"))))
    by (rewrite H; reflexivity).
  vm_compute in E. discriminate E.
Qed.

(** *** Replies on which the decoder gives up *)

Lemma scan_once_deep (py : interpreter) (doc : text) :
  forall depth budget n,
    depth < n -> 2 * depth + 1 <= budget ->
    scan_once py budget depth doc (replicate n (chr "[")) = Raise RecursionError.
Proof.
  induction depth as [| d IH]; intros budget n Hn Hb.
  - destruct budget as [| b]; [lia |]. destruct n as [| n]; [lia |]. reflexivity.
  - destruct budget as [| [| b]]; [lia | lia |].
    destruct n as [| [| n]]; [lia | lia |].
    change (replicate (S (S n)) (chr "[")) with (chr "[" :: replicate (S n) (chr "[")).
    cbn [scan_once]. change (char_eqb (chr "[") c_quote) with false.
    change (char_eqb (chr "[") (chr "{")) with false.
    change (char_eqb (chr "[") (chr "[")) with true. cbv iota.
    change (skip_ws (replicate (S n) (chr "["))) with (replicate (S n) (chr "[")).
    change (replicate (S n) (chr "[")) with (chr "[" :: replicate n (chr "[")) at 1.
    cbv iota. change (char_eqb (chr "[") (chr "]")) with false. cbv iota.
    cbn [array_loop].
    rewrite (IH b (S n)) by lia. reflexivity.
Qed.

Lemma no_fence_in_brackets (n : nat) : is_substring fence (replicate n (chr "[")) = false.
Proof.
  induction n as [| n IH]; [reflexivity |].
  change (replicate (S n) (chr "[")) with (chr "[" :: replicate n (chr "[")).
  cbn [is_substring]. rewrite IH. reflexivity.
Qed.

Lemma rstrip_brackets (n : nat) : rstrip (replicate n (chr "[")) = replicate n (chr "[").
Proof.
  induction n as [| n IH]; [reflexivity |].
  change (replicate (S n) (chr "[")) with (chr "[" :: replicate n (chr "[")).
  cbn [rstrip forallb]. change (is_space (chr "[")) with false. cbn [andb].
  rewrite IH. reflexivity.
Qed.

Lemma pre_decode_brackets (n : nat) :
  pre_decode (replicate n (chr "[")) = replicate n (chr "[").
Proof.
  unfold pre_decode. rewrite (re_search_fence_none _ (no_fence_in_brackets n)).
  cbn [default from_option]. unfold id, strip.
  destruct n as [| n]; [reflexivity |].
  change (lstrip (replicate (S n) (chr "["))) with (replicate (S n) (chr "[")).
  apply rstrip_brackets.
Qed.

(** A reply nested deeper than the interpreter allows makes the decoder
    raise [RecursionError], which [parse_json_response] passes on. *)
Lemma deep_nesting_raises (py : interpreter) (n : nat) :
  nesting_headroom py < n ->
  json_loads py (pre_decode (replicate n (chr "["))) = Raise RecursionError
  /\ parse_json_response py (replicate n (chr "[")) = Raise RecursionError.
Proof.
  intros H.
  assert (E : json_loads py (pre_decode (replicate n (chr "["))) = Raise RecursionError).
  { rewrite pre_decode_brackets. unfold json_loads.
    destruct n as [| n]; [lia |].
    change (starts_with [c_bom] (replicate (S n) (chr "["))) with false. cbv iota.
    change (skip_ws (replicate (S n) (chr "["))) with (replicate (S n) (chr "[")).
    rewrite scan_once_deep; [reflexivity | exact H |].
    rewrite length_replicate. lia. }
  split; [exact E |].
  unfold parse_json_response. fold (pre_decode (replicate n (chr "["))).
  rewrite E. reflexivity.
Qed.

(** C9.  A reply on which the decoder gives up with an exception other
    than [JSONDecodeError] is not turned into the error record: on 2000
    opening brackets the decoder raises [RecursionError], on an object that
    holds an integer literal of 4301 digits it raises [ValueError], and
    [parse_json_response] raises the same exception to its caller. *)
Theorem C9_decoder_exception_escapes :
  json_loads cpython (pre_decode deep_reply) = Raise RecursionError
  /\ parse_json_response cpython deep_reply = Raise RecursionError
  /\ json_loads cpython (pre_decode long_integer_reply) = Raise ValueError
  /\ parse_json_response cpython long_integer_reply = Raise ValueError.
Proof.
  destruct (deep_nesting_raises cpython 2000) as [H1 H2]; [simpl; lia |].
  split; [exact H1 |]. split; [exact H2 |].
  split; vm_compute; reflexivity.
Qed.

(** *** Replies that decode to something other than an object *)

(** C2 (evaluated where it fails).  The reply [[1, 2]] is valid JSON; its
    value is a list, the structural defaulting tries to store into it, and
    the [TypeError] of that store leaves [parse_json_response], which only
    handles [JSONDecodeError].  The same happens for the reply [42] at the
    membership test, and for an object whose [issues] holds a number. *)
Theorem C2_non_object_reply_raises :
  json_loads cpython (pre_decode (of_string "[1, 2]")) = Ok (JArr [JInt 1; JInt 2])
  /\ parse_json_response cpython (of_string "[1, 2]") = Raise TypeError
  /\ json_loads cpython (pre_decode (of_string "42")) = Ok (JInt 42)
  /\ parse_json_response cpython (of_string "42") = Raise TypeError
  /\ parse_json_response cpython (jtext "{'issues': [7]}") = Raise TypeError.
Proof.
  split; [| split; [| split; [| split]]]; vm_compute; reflexivity.
Qed.

(** ** Decimal numbers *)

Lemma of_string_cons (a : ascii) (s : string) :
  of_string (String a s) = N_of_ascii a :: of_string s.
Proof. reflexivity. Qed.

Lemma pretty_N_char_code (d : N) :
  (d < 10)%N -> N_of_ascii (pretty_N_char d) = (48 + d)%N.
Proof.
  intros H.
  assert (E : (d = 0 \/ d = 1 \/ d = 2 \/ d = 3 \/ d = 4 \/ d = 5 \/ d = 6 \/ d = 7
               \/ d = 8 \/ d = 9)%N) by lia.
  destruct E as [-> | [-> | [-> | [-> | [-> | [-> | [-> | [-> | [-> | ->]]]]]]]]];
    reflexivity.
Qed.

Lemma digits_value_snoc (ds : text) (c : char) :
  digits_value (ds ++ [c]) = (digits_value ds * 10 + (Z.of_N c - 48))%Z.
Proof. unfold digits_value. rewrite fold_left_app. reflexivity. Qed.

(** What the decimal printer puts in front of the text it is given: the
    digits of [x], most significant first, none for 0. *)
Lemma pretty_N_go_digits (x : N) :
  forall s, exists ds : text,
    of_string (pretty_N_go x s) = ds ++ of_string s
    /\ Forall (fun c => is_digit c = true) ds
    /\ digits_value ds = Z.of_N x
    /\ (forall k : nat, (x < 10 ^ N.of_nat k)%N -> length ds <= k).
Proof.
  induction (N.lt_wf_0 x) as [x _ IH]; intros s.
  destruct (N.eq_dec x 0%N) as [-> | Hx].
  - exists []. rewrite pretty_N_go_0. repeat split; [constructor | intros; simpl; lia].
  - assert (Hpos : (0 < x)%N) by lia.
    rewrite (pretty_N_go_step x s Hpos).
    pose proof (N.div_mod x 10 ltac:(discriminate)) as D.
    assert (Hm : (x mod 10 < 10)%N) by (apply N.mod_lt; discriminate).
    assert (Hlt : (x / 10 < x)%N) by (apply N.div_lt; [exact Hpos | reflexivity]).
    assert (Hd : forall k : nat, (x < 10 ^ N.of_nat (S k))%N -> (x / 10 < 10 ^ N.of_nat k)%N).
    { intros k Hk. apply N.Div0.div_lt_upper_bound.
      rewrite Nat2N.inj_succ, N.pow_succ_r' in Hk. exact Hk. }
    remember (x / 10)%N as q eqn:Eq. remember (x mod 10)%N as d eqn:Ed. clear Eq Ed.
    destruct (IH q Hlt (String (pretty_N_char d) s)) as (ds & E & F & V & L).
    rewrite E, of_string_cons, (pretty_N_char_code _ Hm). clear E.
    exists (ds ++ [(48 + d)%N]). rewrite <- app_assoc.
    split; [reflexivity |]. split; [| split].
    + apply Forall_app. split; [exact F |]. constructor; [| constructor].
      unfold is_digit. apply andb_true_iff. split; apply N.leb_le; lia.
    + rewrite digits_value_snoc, V. lia.
    + intros k Hk. rewrite length_app. cbn [length].
      destruct k as [| k]; [simpl in Hk; lia |].
      specialize (L k (Hd k Hk)). lia.
Qed.

(** [str(n)] is the decimal representation of [n]: digits only, at least
    one, with the value [n], and at most [k] of them below [10 ^ k]. *)
Lemma str_of_nat_decimal (n : nat) :
  Forall (fun c => is_digit c = true) (str_of_nat n)
  /\ digits_value (str_of_nat n) = Z.of_nat n
  /\ str_of_nat n <> []
  /\ (forall k : nat, 0 < k -> n < 10 ^ k -> length (str_of_nat n) <= k).
Proof.
  unfold str_of_nat, pretty, pretty_N.
  destruct (decide (N.of_nat n = 0)%N) as [E | E].
  - assert (n = 0) by lia. subst n.
    split; [repeat constructor |]. split; [reflexivity |].
    split; [discriminate |]. intros k Hk _. change (1 <= k). lia.
  - destruct (pretty_N_go_digits (N.of_nat n) "") as (ds & -> & F & V & L).
    change (of_string "") with (@nil char). rewrite app_nil_r.
    split; [exact F |]. split; [rewrite V; lia |]. split.
    + intros ->. change (digits_value []) with 0%Z in V. lia.
    + intros k _ Hk. apply L.
      assert (H10 : (10 ^ N.of_nat k)%N = N.of_nat (10 ^ k)).
      { rewrite Nat2N.inj_pow. reflexivity. }
      rewrite H10. lia.
Qed.


Lemma digit_not_blank (ds : text) :
  Forall (fun c => is_digit c = true) ds -> ~ In c_blank ds.
Proof.
  intros F N. apply (proj1 (List.Forall_forall _ _) F) in N. discriminate N.
Qed.

(** ** The file collection of [review_code] *)

Section Collection.
Variable str_lower : text -> text.
Variable str_upper : text -> text.
Variable path_suffix : text -> text.
Variable exn_str : exn -> text.
Variable prompt_methodology : text.
Variable JSON_SCHEMA : text.
Variable prompt_rules : text.
Variable w : world.







End Collection.


(** * Further properties *)

(** ** The estimator: bounds and monotonicity *)

Lemma level_rank_scaled (z : Z) :
  level_rank (scaled_level z)
  = if (z <? 300)%Z then 0 else if (z <? 600)%Z then 1 else 2.
Proof.
  unfold scaled_level.
  destruct (z <? 300)%Z; [reflexivity |].
  destruct (z <? 600)%Z; reflexivity.
Qed.

(** X1.  With the same code content, a longer list of files never gives a
    lower thinking level: the levels being ordered minimal, medium, high,
    the level computed for [files'] is at least the one computed for
    [files] whenever [files'] has at least as many entries. *)
Theorem more_files_never_lower_level (lower : text -> text) (files files' : list text)
    (code : text) :
  length files <= length files' ->
  level_rank (calculate_thinking_level lower files code)
  <= level_rank (calculate_thinking_level lower files' code).
Proof.
  intros H. rewrite !calculate_thinking_level_scaled, !level_rank_scaled.
  unfold scaled_score.
  repeat match goal with
         | |- context [(?a <? ?b)%Z] => destruct (Z.ltb_spec a b)
         end; lia.
Qed.

Lemma more_files_never_lower_level_witness :
  level_rank (calculate_thinking_level ascii_lower [of_string "a.py"] (of_string "x = 1"))
  <= level_rank (calculate_thinking_level ascii_lower
                   [of_string "a.py"; of_string "b.py"; of_string "c.py"] (of_string "x = 1")).
Proof.
  apply (more_files_never_lower_level ascii_lower [of_string "a.py"]
           [of_string "a.py"; of_string "b.py"; of_string "c.py"] (of_string "x = 1")).
  simpl. lia.
Defined.

(** X2.  Six files or more are always reviewed at level high, whatever
    the code content: the half point per file alone reaches the threshold
    of 3. *)
Theorem six_files_give_high (lower : text -> text) (files : list text) (code : text) :
  6 <= length files ->
  calculate_thinking_level lower files code = level_high.
Proof.
  intros H. rewrite calculate_thinking_level_scaled.
  unfold scaled_level, scaled_score.
  repeat match goal with
         | |- context [(?a <? ?b)%Z] => destruct (Z.ltb_spec a b)
         end; try reflexivity;
  destruct (has_security_code lower code), (has_async code), (has_classes code); lia.
Qed.

Lemma six_files_give_high_witness :
  calculate_thinking_level ascii_lower (replicate 6 (of_string "a.py")) [] = level_high.
Proof.
  apply (six_files_give_high ascii_lower (replicate 6 (of_string "a.py")) []).
  simpl. lia.
Defined.

(** X3.  Code in which a security keyword occurs, drawn from at least one
    file, is never rated minimal: the keyword point and the half point of
    the file reach the threshold of 1.5. *)
Theorem security_code_never_minimal (lower : text -> text) (files : list text) (code : text) :
  has_security_code lower code = true ->
  1 <= length files ->
  calculate_thinking_level lower files code <> level_minimal.
Proof.
  intros Hs Hf. rewrite calculate_thinking_level_scaled.
  unfold scaled_level, scaled_score. rewrite Hs.
  repeat match goal with
         | |- context [(?a <? ?b)%Z] => destruct (Z.ltb_spec a b)
         end; try (vm_compute; discriminate);
  destruct (has_async code), (has_classes code); lia.
Qed.

Lemma security_code_never_minimal_witness :
  calculate_thinking_level ascii_lower [of_string "login.py"] (of_string "PASSWORD = 1")
  <> level_minimal.
Proof.
  apply (security_code_never_minimal ascii_lower [of_string "login.py"]
           (of_string "PASSWORD = 1")).
  - vm_compute. reflexivity.
  - simpl. lia.
Defined.

(** ** The prompt *)

(** X4.  A focus that is none of security, performance and quality adds
    nothing to the prompt: the prompt is the one built without focus. *)
Theorem unknown_focus_is_no_focus (prompt_methodology JSON_SCHEMA prompt_rules : text)
    (code_content focus : text) :
  focus <> of_string "security" ->
  focus <> of_string "performance" ->
  focus <> of_string "quality" ->
  build_review_prompt prompt_methodology JSON_SCHEMA prompt_rules code_content (Some focus)
  = build_review_prompt prompt_methodology JSON_SCHEMA prompt_rules code_content None.
Proof.
  intros H1 H2 H3. unfold build_review_prompt.
  destruct focus as [| c f]; [reflexivity |].
  unfold focus_map.
  destruct (text_eqb (c :: f) (of_string "security")) eqn:E1;
    [apply text_eqb_eq in E1; contradiction |].
  destruct (text_eqb (c :: f) (of_string "performance")) eqn:E2;
    [apply text_eqb_eq in E2; contradiction |].
  destruct (text_eqb (c :: f) (of_string "quality")) eqn:E3;
    [apply text_eqb_eq in E3; contradiction |].
  reflexivity.
Qed.

Lemma unknown_focus_is_no_focus_witness :
  build_review_prompt [] [] [] (of_string "x = 1") (Some (of_string "style"))
  = build_review_prompt [] [] [] (of_string "x = 1") None.
Proof.
  apply (unknown_focus_is_no_focus [] [] [] (of_string "x = 1") (of_string "style"));
    vm_compute; discriminate.
Defined.

(** ** The normalizer on decoded objects *)

Lemma with_default_id (m : gmap text json) (key : text) (dflt : json) :
  is_Some (m !! key) -> with_default m key dflt = m.
Proof. intros [v Hv]. unfold with_default. rewrite Hv. reflexivity. Qed.

Lemma defaults_lookup_ne (m : gmap text json) (k : text) :
  k <> k_summary -> k <> k_issues -> k <> k_positive_aspects ->
  defaults m !! k = m !! k.
Proof.
  intros H1 H2 H3. unfold defaults.
  rewrite !with_default_lookup_ne by congruence. reflexivity.
Qed.

Lemma defaults_id (m : gmap text json) :
  is_Some (m !! k_summary) -> is_Some (m !! k_issues) ->
  is_Some (m !! k_positive_aspects) -> defaults m = m.
Proof.
  intros H1 H2 H3. unfold defaults.
  rewrite (with_default_id m k_summary) by exact H1.
  rewrite (with_default_id m k_issues) by exact H2.
  apply with_default_id, H3.
Qed.

(** The closed form of [normalize] on a dict whose summary, defaulted, is
    the dict [sm0], the stats of which, defaulted, are the dict [st]. *)
Lemma normalize_obj (m sm0 st : gmap text json) :
  defaults m !! k_summary = Some (JObj sm0) ->
  with_default sm0 k_stats (JObj ∅) !! k_stats = Some (JObj st) ->
  normalize (JObj m)
  = let issues := default (JArr []) (m !! k_issues) in
    items ← py_iter issues;
    items' ← ensure_ids 1 items;
    let its := match issues with JArr _ => items' | _ => items end in
    n1 ← count_where k_severity k_blocking its;
    n2 ← count_where k_severity k_non_blocking its;
    n3 ← count_where k_type k_suggestion its;
    Ok (with_stats
          match issues with
          | JArr _ => <[k_issues := JArr items']> (defaults m)
          | _ => defaults m
          end
          (with_default sm0 k_stats (JObj ∅))
          (recounted st n1 n2 n3)).
Proof.
  intros Hsum Hst.
  unfold normalize, with_stats.
  assert (Nsi : k_summary <> k_issues) by (vm_compute; discriminate).
  rewrite !ensure_key_obj. cbn [mbind outcome_bind].
  rewrite !ensure_key_obj. cbn [mbind outcome_bind].
  rewrite !ensure_key_obj. cbn [mbind outcome_bind].
  fold (defaults m).
  destruct (defaults_lookup_default m) as (_ & Hi & _).
  rewrite (py_getitem_obj _ _ _ Hi). cbn [mbind outcome_bind]. cbv zeta.
  set (issues := default (JArr []) (m !! k_issues)) in *.
  destruct (py_iter issues) as [items | e] eqn:Eiter; cbn [mbind outcome_bind];
    [| reflexivity].
  destruct (ensure_ids 1 items) as [items' | e] eqn:Eids; cbn [mbind outcome_bind];
    [| reflexivity].
  set (m4 := match issues with
             | JArr _ => <[k_issues := JArr items']> (defaults m)
             | _ => defaults m
             end).
  set (its := match issues with JArr _ => items' | _ => items end).
  assert (E4 : match issues with
               | JArr _ => py_setitem (JObj (defaults m)) k_issues (JArr items')
               | _ => Ok (JObj (defaults m))
               end = Ok (JObj m4)).
  { subst m4. destruct issues; reflexivity. }
  rewrite E4. cbn [mbind outcome_bind].
  assert (H4s : m4 !! k_summary = Some (JObj sm0)).
  { subst m4. destruct issues; try exact Hsum.
    rewrite lookup_insert_ne by congruence. exact Hsum. }
  assert (H4i : exists v, m4 !! k_issues = Some v /\ py_iter v = Ok its).
  { subst m4 its. destruct issues eqn:Ei; try (exists issues; subst issues; rewrite Ei in *; split; [exact Hi | exact Eiter]).
    exists (JArr items'). split; [apply lookup_insert_eq | reflexivity]. }
  destruct H4i as (v & H4i & Hv).
  rewrite (py_getitem_obj _ _ _ H4s). cbn [mbind outcome_bind].
  rewrite ensure_key_obj. cbn [mbind outcome_bind].
  set (sm := with_default sm0 k_stats (JObj ∅)) in *.
  cbn [py_setitem mbind outcome_bind].
  rewrite (py_getitem_obj _ _ (JObj sm)) by apply lookup_insert_eq.
  cbn [mbind outcome_bind].
  rewrite (py_getitem_obj _ _ _ Hst). cbn [mbind outcome_bind].
  assert (Hc : forall k x,
             count_issues (JObj (<[k_summary := JObj sm]> m4)) k x = count_where k x its).
  { intros k x. eapply count_issues_obj; [| exact Hv].
    rewrite lookup_insert_ne by exact Nsi. exact H4i. }
  rewrite !Hc.
  destruct (count_where k_severity k_blocking its) as [n1 | e]; cbn [mbind outcome_bind];
    [| reflexivity].
  destruct (count_where k_severity k_non_blocking its) as [n2 | e];
    cbn [py_setitem mbind outcome_bind]; [| reflexivity].
  destruct (count_where k_type k_suggestion its) as [n3 | e];
    cbn [py_setitem mbind outcome_bind]; [| reflexivity].
  rewrite !insert_insert_eq. reflexivity.
Qed.

Lemma count_where_dicts (key value : text) (items : list json) :
  Forall is_dict items -> count_where key value items = Ok (count_field key value items).
Proof.
  induction 1 as [| x items Hx _ IH]; [reflexivity |].
  destruct x; try destruct Hx. simpl. rewrite IH. cbn [mbind outcome_bind].
  unfold count_field. simpl.
  destruct (eq_str (default JNull (m !! key)) value); simpl; f_equal; lia.
Qed.

Lemma has_id_dict (i : json) : has_id i -> is_dict i.
Proof. destruct i; simpl; auto. Qed.

Lemma ensure_ids_fixed (items : list json) :
  Forall has_id items -> forall i, ensure_ids i items = Ok items.
Proof.
  induction 1 as [| x items Hx _ IH]; intros i; [reflexivity |].
  destruct x; try (exfalso; exact Hx). simpl.
  rewrite ensure_key_obj, (with_default_id _ _ _ Hx). cbn [mbind outcome_bind].
  rewrite IH. reflexivity.
Qed.

Lemma ensure_ids_has_ids (items : list json) :
  forall i items', ensure_ids i items = Ok items' ->
                   Forall is_dict items' -> Forall has_id items'.
Proof.
  induction items as [| x items IH]; simpl; intros i items' H F.
  - injection H as <-. constructor.
  - inv_bind H. inv_bind H. injection H as <-.
    inversion F as [| ? ? Fx Fr]; subst.
    constructor; [| eapply IH; eassumption].
    destruct v; try destruct Fx.
    apply ensure_key_inv in E as (o & -> & ->). simpl.
    rewrite with_default_lookup. eauto.
Qed.

(** What iterating over a value that is no list yields is no list of dicts,
    unless it is empty. *)
Lemma py_iter_dicts (v : json) (its : list json) :
  py_iter v = Ok its -> Forall is_dict its ->
  match v with JArr l => l = its | _ => its = [] end.
Proof.
  destruct v; try discriminate; simpl; intros [= <-] F; [| reflexivity |].
  - destruct s as [| c s]; [reflexivity |].
    rewrite fmap_cons in F. inversion F as [| ? ? Hd]. destruct Hd.
  - apply iter_of_strings_dicts in F. rewrite F. reflexivity.
Qed.

(** What a successful run returns. *)
Lemma normalize_result (data r : json) :
  normalize data = Ok r ->
  exists (m m4 sm0 st : gmap text json) (v : json) (its : list json),
    data = JObj m
    /\ defaults m !! k_summary = Some (JObj sm0)
    /\ with_default sm0 k_stats (JObj ∅) !! k_stats = Some (JObj st)
    /\ (forall k, k <> k_issues -> m4 !! k = defaults m !! k)
    /\ m4 !! k_issues = Some v
    /\ py_iter v = Ok its
    /\ Forall has_id its
    /\ match v with JArr l => l = its | _ => its = [] end
    /\ r = with_stats m4 (with_default sm0 k_stats (JObj ∅))
             (recounted st (count_field k_severity k_blocking its)
                (count_field k_severity k_non_blocking its)
                (count_field k_type k_suggestion its)).
Proof.
  intros H. pose proof H as H0.
  apply normalize_inv in H0
    as (m & issues & items & items' & sm0 & st & n1 & n2 & n3
        & -> & Hissues & Hiter & Hids & Hsum & Hst & _).
  assert (Hsum' : defaults m !! k_summary = Some (JObj sm0)).
  { destruct issues; try exact Hsum.
    rewrite lookup_insert_ne in Hsum by (vm_compute; discriminate). exact Hsum. }
  clear Hsum. rewrite (normalize_obj m sm0 st Hsum' Hst) in H. cbv zeta in H.
  destruct (defaults_lookup_default m) as (_ & Hi & _).
  rewrite Hi in Hissues. injection Hissues as Hissues. rewrite Hissues in H.
  rewrite Hiter in H. cbn [mbind outcome_bind] in H.
  rewrite Hids in H. cbn [mbind outcome_bind] in H.
  set (its := match issues with JArr _ => items' | _ => items end) in *.
  inv_bind H. inv_bind H. inv_bind H. injection H as <-.
  apply count_where_inv in E as [F ->].
  apply count_where_inv in E0 as [_ ->].
  apply count_where_inv in E1 as [_ ->].
  set (m4 := match issues with
             | JArr _ => <[k_issues := JArr items']> (defaults m)
             | _ => defaults m
             end).
  assert (H4 : exists v, m4 !! k_issues = Some v /\ py_iter v = Ok its).
  { subst m4 its. destruct issues eqn:Ei;
      try (eexists; split; [rewrite Hi, Hissues; reflexivity | exact Hiter]).
    exists (JArr items'). split; [apply lookup_insert_eq | reflexivity]. }
  destruct H4 as (v & H4 & Hv).
  exists m, m4, sm0, st, v, its.
  split; [reflexivity |]. split; [exact Hsum' |]. split; [exact Hst |].
  split.
  { intros k Hk. subst m4. destruct issues; try reflexivity.
    apply lookup_insert_ne. congruence. }
  split; [exact H4 |]. split; [exact Hv |].
  split.
  { subst its. destruct issues;
      try (rewrite (py_iter_dicts _ _ Hiter F); constructor).
    eapply ensure_ids_has_ids; eassumption. }
  split; [apply (py_iter_dicts _ _ Hv F) | reflexivity].
Qed.

Lemma issues_of_with_stats (m4 sm st : gmap text json) (v : json) (its : list json) :
  m4 !! k_issues = Some v -> py_iter v = Ok its ->
  issues_of (with_stats m4 sm st) = its.
Proof.
  intros H4 Hv. unfold issues_of, with_stats, field.
  rewrite lookup_insert_ne by (vm_compute; discriminate).
  rewrite H4. simpl. rewrite Hv. reflexivity.
Qed.

Lemma recounted_idem (st : gmap text json) (n1 n2 n3 : Z) :
  recounted (recounted st n1 n2 n3) n1 n2 n3 = recounted st n1 n2 n3.
Proof.
  apply recounted_agree. intros k Hb Hw Hs.
  apply recounted_lookup_ne; assumption.
Qed.

Lemma with_default_lookup_some (m : gmap text json) (key k : text) (dflt v : json) :
  m !! k = Some v -> with_default m key dflt !! k = Some v.
Proof.
  intros H. destruct (decide (key = k)) as [-> | N].
  - rewrite with_default_lookup, H. reflexivity.
  - rewrite with_default_lookup_ne by exact N. exact H.
Qed.

Lemma defaults_lookup_some (m : gmap text json) (k : text) (v : json) :
  m !! k = Some v -> defaults m !! k = Some v.
Proof. intros H. unfold defaults. do 3 apply with_default_lookup_some. exact H. Qed.

Lemma ensure_ids_dicts (items : list json) :
  Forall is_dict items ->
  forall i, exists items', ensure_ids i items = Ok items'
                           /\ Forall is_dict items' /\ length items' = length items.
Proof.
  induction 1 as [| x items Hx _ IH]; intros i.
  - exists []. repeat split. constructor.
  - destruct x; try (exfalso; exact Hx).
    destruct (IH (i + 1)%Z) as (rest & E & F & L).
    eexists. simpl. rewrite ensure_key_obj. cbn [mbind outcome_bind].
    rewrite E. cbn [mbind outcome_bind].
    split; [reflexivity |]. split; [constructor; [exact I | exact F] |].
    simpl. rewrite L. reflexivity.
Qed.

(** What [well_shaped] says of the defaulted summary and stats. *)
Lemma well_shaped_summary (m : gmap text json) :
  absent_or dict_with_dict_stats (m !! k_summary) ->
  exists sm0 st,
    defaults m !! k_summary = Some (JObj sm0)
    /\ with_default sm0 k_stats (JObj ∅) !! k_stats = Some (JObj st).
Proof.
  intros H. destruct (defaults_lookup_default m) as (Hs & _ & _).
  unfold absent_or in H.
  destruct (m !! k_summary) as [s |] eqn:E; cbn [default] in Hs.
  - destruct s as [| | | | | | sm]; try (exfalso; exact H).
    unfold dict_with_dict_stats, absent_or in H.
    exists sm. rewrite with_default_lookup.
    destruct (sm !! k_stats) as [x |]; cbn [default].
    + destruct x as [| | | | | | st]; try (exfalso; exact H).
      exists st. split; [exact Hs | reflexivity].
    + exists ∅. split; [exact Hs | reflexivity].
  - eexists _, ∅. split; [exact Hs |]. reflexivity.
Qed.

(** X5.  Normalizing is idempotent: a result of the normalization is left
    as it is by a second normalization. *)
Theorem normalize_idempotent (data r : json) :
  normalize data = Ok r -> normalize r = Ok r.
Proof.
  intros H.
  apply normalize_result in H
    as (m & m4 & sm0 & st & v & its & -> & Hsum & Hst & H4 & H4i & Hv & Hid & Hvl & ->).
  set (sm := with_default sm0 k_stats (JObj ∅)) in *.
  set (n1 := count_field k_severity k_blocking its).
  set (n2 := count_field k_severity k_non_blocking its).
  set (n3 := count_field k_type k_suggestion its).
  unfold with_stats.
  set (smr := <[k_stats := JObj (recounted st n1 n2 n3)]> sm).
  set (mr := <[k_summary := JObj smr]> m4).
  assert (Nsi : k_summary <> k_issues) by (vm_compute; discriminate).
  assert (Nsp : k_positive_aspects <> k_issues) by (vm_compute; discriminate).
  assert (Nps : k_summary <> k_positive_aspects) by (vm_compute; discriminate).
  assert (Hri : mr !! k_issues = Some v).
  { subst mr. rewrite lookup_insert_ne by exact Nsi. exact H4i. }
  assert (Hrd : defaults mr = mr).
  { apply defaults_id.
    - subst mr. rewrite lookup_insert_eq. eauto.
    - rewrite Hri. eauto.
    - subst mr. rewrite lookup_insert_ne by exact Nps. rewrite (H4 _ Nsp).
      destruct (defaults_lookup_default m) as (_ & _ & Hp). rewrite Hp. eauto. }
  rewrite (normalize_obj mr smr (recounted st n1 n2 n3)).
  - cbv zeta. rewrite Hri. simpl default. rewrite Hv. cbn [mbind outcome_bind].
    rewrite (ensure_ids_fixed _ Hid). cbn [mbind outcome_bind].
    assert (Hits : match v with JArr _ => its | _ => its end = its) by (destruct v; reflexivity).
    rewrite Hits.
    assert (F : Forall is_dict its) by (eapply Forall_impl; [exact Hid | apply has_id_dict]).
    rewrite !(count_where_dicts _ _ _ F). cbn [mbind outcome_bind].
    fold n1 n2 n3. rewrite Hrd. f_equal. unfold with_stats. rewrite recounted_idem.
    assert (Hm : match v with JArr _ => <[k_issues := JArr its]> mr | _ => mr end = mr).
    { destruct v; try reflexivity. subst l. apply insert_id. exact Hri. }
    rewrite Hm.
    assert (Hs : with_default smr k_stats (JObj ∅) = smr).
    { apply with_default_id. subst smr. rewrite lookup_insert_eq. eauto. }
    rewrite Hs. subst mr smr. rewrite !insert_insert_eq. reflexivity.
  - rewrite Hrd. subst mr. apply lookup_insert_eq.
  - rewrite with_default_id by (subst smr; rewrite lookup_insert_eq; eauto).
    subst smr. apply lookup_insert_eq.
Qed.

Lemma normalize_idempotent_witness : normalize sample_result = Ok sample_result.
Proof.
  apply (normalize_idempotent sample_data sample_result).
  vm_compute. reflexivity.
Defined.

(** X6.  A reply of the expected shape is always normalized, never
    rejected: when the reply decodes to an object whose [summary], if
    present, is a dict with a dict (or nothing) under [stats], and whose
    [issues], if present, is a list of dicts, [parse_json_response] returns
    a result, and the result has as many issues as the reply. *)
Theorem well_shaped_reply_is_normalized (py : interpreter) (response_text : text) (m : gmap text json) :
  json_loads py (pre_decode response_text) = Ok (JObj m) ->
  well_shaped m ->
  exists r, parse_json_response py response_text = Ok r
            /\ length (issues_of r) = length (issues_of (JObj m)).
Proof.
  intros Hd [Hs Hi]. rewrite (parse_json_response_decoded _ _ _ Hd).
  destruct (well_shaped_summary m Hs) as (sm0 & st & Hsum & Hst).
  rewrite (normalize_obj m sm0 st Hsum Hst). cbv zeta.
  assert (Hl : exists l, default (JArr []) (m !! k_issues) = JArr l /\ Forall is_dict l
                         /\ length (issues_of (JObj m)) = length l).
  { unfold issues_of, field. unfold absent_or in Hi.
    destruct (m !! k_issues) as [x |]; cbn [default].
    - destruct x as [| | | | | l |]; try (exfalso; exact Hi).
      exists l. split; [reflexivity |]. split; [exact Hi | reflexivity].
    - exists []. split; [reflexivity |]. split; [constructor | reflexivity]. }
  destruct Hl as (l & -> & F & ->).
  cbn [py_iter mbind outcome_bind].
  destruct (ensure_ids_dicts l F 1) as (l' & E & F' & L). rewrite E.
  cbn [mbind outcome_bind].
  rewrite !(count_where_dicts _ _ _ F'). cbn [mbind outcome_bind].
  eexists. split; [reflexivity |].
  rewrite (issues_of_with_stats _ _ _ (JArr l') l'); [exact L | apply lookup_insert_eq | reflexivity].
Qed.

Lemma well_shaped_reply_is_normalized_witness :
  exists r, parse_json_response cpython sample_reply = Ok r
            /\ length (issues_of r) = length (issues_of (JObj sample_object)).
Proof.
  apply (well_shaped_reply_is_normalized cpython sample_reply sample_object).
  - vm_compute. reflexivity.
  - split.
    + vm_compute. exact I.
    + vm_compute. repeat constructor.
Defined.

(** X7.  In every result obtained from a reply that decodes, each issue is
    a dict that carries an [id] entry, so the report can look it up. *)
Theorem issues_of_result_have_ids (py : interpreter) (response_text : text) (data r : json) :
  json_loads py (pre_decode response_text) = Ok data ->
  parse_json_response py response_text = Ok r ->
  Forall has_id (issues_of r).
Proof.
  intros Hd H. rewrite (parse_json_response_decoded _ _ _ Hd) in H.
  apply normalize_result in H
    as (m & m4 & sm0 & st & v & its & -> & Hsum & Hst & H4 & H4i & Hv & Hid & Hvl & ->).
  rewrite (issues_of_with_stats _ _ _ v its H4i Hv). exact Hid.
Qed.

Lemma issues_of_result_have_ids_witness : Forall has_id (issues_of sample_result).
Proof.
  apply (issues_of_result_have_ids cpython sample_reply sample_data sample_result);
    vm_compute; reflexivity.
Defined.

(** X8.  The normalizer leaves alone what it does not compute: every
    top-level entry of the decoded reply other than [summary] and [issues]
    is found unchanged in the result, and so is every entry of a summary
    dict other than [stats]. *)
Theorem other_entries_are_kept (py : interpreter) (response_text : text) (m : gmap text json) (r : json) :
  json_loads py (pre_decode response_text) = Ok (JObj m) ->
  parse_json_response py response_text = Ok r ->
  (forall k v, m !! k = Some v -> k <> k_summary -> k <> k_issues -> field r k = v)
  /\ (forall sm k v, m !! k_summary = Some (JObj sm) -> sm !! k = Some v -> k <> k_stats ->
        field (field r k_summary) k = v).
Proof.
  intros Hd H. rewrite (parse_json_response_decoded _ _ _ Hd) in H.
  apply normalize_result in H
    as (m' & m4 & sm0 & st & v & its & [= <-] & Hsum & Hst & H4 & H4i & Hv & Hid & Hvl & ->).
  unfold with_stats, field. split.
  - intros k x Hk Ns Ni.
    rewrite lookup_insert_ne by congruence. rewrite (H4 _ Ni).
    rewrite (defaults_lookup_some _ _ _ Hk). reflexivity.
  - intros sm k x Hs Hk Nk.
    rewrite (defaults_lookup_some _ _ _ Hs) in Hsum. injection Hsum as <-.
    rewrite lookup_insert_eq. simpl.
    rewrite lookup_insert_ne by congruence.
    rewrite with_default_lookup_ne by congruence. rewrite Hk. reflexivity.
Qed.

Lemma other_entries_are_kept_witness :
  (forall k v, sample_object !! k = Some v -> k <> k_summary -> k <> k_issues ->
               field sample_result k = v)
  /\ (forall sm k v, sample_object !! k_summary = Some (JObj sm) -> sm !! k = Some v ->
        k <> k_stats -> field (field sample_result k_summary) k = v).
Proof.
  apply (other_entries_are_kept cpython sample_reply sample_object sample_result);
    vm_compute; reflexivity.
Defined.

(** ** Text around a fenced block *)

Lemma starts_with_fence_closing (v after : text) :
  starts_with fence (v ++ nl ++ fence ++ after) = true -> starts_with fence v = true.
Proof.
  destruct v as [| a [| b [| c v]]]; simpl; exact (fun H => H).
Qed.

(** In front of the first closing fence on its own line, the lazy group of
    a text without fence is the text up to its trailing whitespace, whatever
    follows the fence. *)
Lemma lazy_group_first_closing (u after : text) :
  is_substring fence u = false ->
  lazy_group (u ++ nl ++ fence ++ after) = Some (rstrip u).
Proof.
  induction u as [| c u IH]; intros H; [reflexivity |].
  cbn [is_substring] in H. apply orb_false_iff in H as [H1 H2].
  cbn [lazy_group app].
  change (c :: u ++ nl ++ fence ++ after) with ((c :: u) ++ nl ++ fence ++ after).
  rewrite lstrip_app. cbn [rstrip].
  destruct (forallb is_space (c :: u)) eqn:E.
  - reflexivity.
  - assert (F : starts_with fence (lstrip (c :: u) ++ nl ++ fence ++ after) = false).
    { destruct (starts_with fence (lstrip (c :: u) ++ nl ++ fence ++ after)) eqn:S;
        [| reflexivity].
      apply starts_with_fence_closing in S.
      assert (N : is_substring fence (lstrip (c :: u)) = false).
      { apply no_fence_lstrip. cbn [is_substring]. rewrite H1, H2. reflexivity. }
      destruct (lstrip (c :: u)) as [| x y]; [discriminate |].
      cbn [is_substring] in N. rewrite S in N. discriminate. }
    rewrite F. cbn [app]. rewrite (IH H2). reflexivity.
Qed.

Lemma match_fence_at_block (tagged : bool) (t after : text) :
  is_substring fence t = false ->
  match_fence_at (fenced tagged t ++ after) = Some (rstrip (lstrip t)).
Proof.
  intros H. unfold match_fence_at, fenced.
  rewrite <- !app_assoc. rewrite strip_prefix_app.
  assert (S2 : default ((if tagged then of_string "json" else [])
                          ++ nl ++ t ++ nl ++ fence ++ after)
                 (strip_prefix (of_string "json")
                    ((if tagged then of_string "json" else [])
                       ++ nl ++ t ++ nl ++ fence ++ after))
               = nl ++ t ++ nl ++ fence ++ after).
  { destruct tagged; reflexivity. }
  rewrite S2. rewrite (lstrip_app nl). cbn [forallb nl]. rewrite is_space_nl. cbn [andb].
  rewrite lstrip_app.
  destruct (forallb is_space t) eqn:E.
  - rewrite (lstrip_all_space _ E). reflexivity.
  - apply lazy_group_first_closing, no_fence_lstrip, H.
Qed.

(** No match starts inside a text without fence that does not end with a
    backtick. *)
Lemma re_search_fence_skip (before rest : text) :
  is_substring fence before = false ->
  last before <> Some (chr "`") ->
  re_search_fence (before ++ rest) = re_search_fence rest.
Proof.
  induction before as [| c b IH]; intros H L; [reflexivity |].
  cbn [is_substring] in H. apply orb_false_iff in H as [H1 H2].
  assert (S : starts_with fence ((c :: b) ++ rest) = false).
  { change fence with [96%N; 96%N; 96%N] in H1 |- *. cbn [app starts_with].
    destruct (char_eqb 96%N c) eqn:E1; [| reflexivity]. cbn [andb].
    unfold char_eqb in E1. apply N.eqb_eq in E1. subst c.
    destruct b as [| c2 b]; [destruct L; reflexivity |]. cbn [app].
    destruct (char_eqb 96%N c2) eqn:E2; [| reflexivity]. cbn [andb].
    unfold char_eqb in E2. apply N.eqb_eq in E2. subst c2.
    destruct b as [| c3 b]; [destruct L; reflexivity |]. cbn [app].
    cbn [starts_with] in H1. change (char_eqb 96%N 96%N) with true in H1.
    cbn [andb] in H1. exact H1. }
  rewrite re_search_fence_unfold. unfold match_fence_at.
  destruct (strip_prefix fence ((c :: b) ++ rest)) eqn:E.
  - apply strip_prefix_starts in E. congruence.
  - cbn [app]. apply IH; [exact H2 |].
    destruct b as [| c2 b]; [discriminate | exact L].
Qed.

(** X9.  Text before and after the first fenced block is ignored: when the
    text in front of the block contains no fence marker and does not end
    with a backtick, and the block's content contains no fence marker,
    [parse_json_response] treats the reply as it treats the content alone,
    whatever follows the closing fence. *)
Theorem text_around_fenced_block_is_ignored (py : interpreter) (tagged : bool) (before t after : text) :
  is_substring fence before = false ->
  last before <> Some (chr "`") ->
  is_substring fence t = false ->
  parse_json_response py (before ++ fenced tagged t ++ after) = parse_json_response py t.
Proof.
  intros Hb Hl Ht. apply parse_json_response_pre_decode. unfold pre_decode.
  rewrite (re_search_fence_skip _ _ Hb Hl).
  rewrite re_search_fence_unfold, (match_fence_at_block _ _ _ Ht).
  rewrite (re_search_fence_none _ Ht). simpl default.
  apply (strip_idem t).
Qed.

Lemma text_around_fenced_block_is_ignored_witness :
  parse_json_response cpython (of_string "Here is the review:" ++ nl
                       ++ fenced true lone_issue_reply ++ of_string " Hope it helps!")
  = parse_json_response cpython lone_issue_reply.
Proof.
  apply (text_around_fenced_block_is_ignored cpython true (of_string "Here is the review:" ++ nl)
           lone_issue_reply (of_string " Hope it helps!")).
  - vm_compute. reflexivity.
  - vm_compute. discriminate.
  - vm_compute. reflexivity.
Defined.

(** ** The report's groups and the counts of the summary *)

Lemma dicts_are_objs (items : list json) :
  Forall is_dict items -> exists objs : list (gmap text json), items = JObj <$> objs.
Proof.
  induction 1 as [| x items Hx _ (objs & ->)]; [exists []; reflexivity |].
  destruct x as [| | | | | | o]; try (exfalso; exact Hx).
  exists (o :: objs). reflexivity.
Qed.

Lemma filter_length_le (p q : json -> bool) (items : list json) :
  (forall i, p i = true -> q i = true) ->
  length (List.filter p items) <= length (List.filter q items).
Proof.
  intros H. induction items as [| x items IH]; [reflexivity |]. simpl.
  destruct (p x) eqn:E.
  - rewrite (H _ E). simpl. lia.
  - destruct (q x); simpl; lia.
Qed.

(** The three groups of a list of dicts are three filters of it. *)
Lemma group_issues_filters (objs : list (gmap text json)) :
  exists g,
    group_issues (JObj <$> objs) = Ok g
    /\ blocking_issues g = List.filter in_blocking (JObj <$> objs)
    /\ warning_issues g = List.filter in_warning (JObj <$> objs)
    /\ suggestion_issues g = List.filter in_suggestion (JObj <$> objs).
Proof.
  unfold group_issues.
  rewrite (py_filter_pure is_blocking in_blocking) by apply is_blocking_pure.
  rewrite (py_filter_pure is_warning in_warning) by apply is_warning_pure.
  rewrite (py_filter_pure is_suggestion in_suggestion) by apply is_suggestion_pure.
  eexists. split; [reflexivity |]. repeat split.
Qed.

(** X10.  For every result obtained from a reply that decodes, the groups
    of the report can be built, and the counts of the summary agree with
    them: [stats.blocking] is the size of the BLOCKING group,
    [stats.suggestion] the size of the SUGGESTIONS group, and
    [stats.warning] is at least the size of the WARNINGS group. *)
Theorem report_groups_match_stats (py : interpreter) (response_text : text) (data r : json) :
  json_loads py (pre_decode response_text) = Ok data ->
  parse_json_response py response_text = Ok r ->
  exists g w,
    report_groups r = Ok g
    /\ stat_of r k_blocking = JInt (Z.of_nat (length (blocking_issues g)))
    /\ stat_of r k_suggestion = JInt (Z.of_nat (length (suggestion_issues g)))
    /\ stat_of r k_warning = JInt w
    /\ (Z.of_nat (length (warning_issues g)) <= w)%Z.
Proof.
  intros Hd H. rewrite (parse_json_response_decoded _ _ _ Hd) in H.
  destruct (normalize_stats _ _ H) as (F & Sb & Sw & Ss).
  apply normalize_result in H
    as (m & m4 & sm0 & st & v & its & -> & Hsum & Hst & H4 & H4i & Hv & Hid & Hvl & ->).
  rewrite (issues_of_with_stats _ _ _ v its H4i Hv) in *.
  destruct (dicts_are_objs _ F) as (objs & ->).
  destruct (group_issues_filters objs) as (g & Hg & Gb & Gw & Gs).
  exists g, (count_field k_severity k_non_blocking (JObj <$> objs)).
  split.
  { unfold report_groups, with_stats. cbn [py_get_default].
    rewrite lookup_insert_ne by (vm_compute; discriminate).
    rewrite H4i. cbn [default from_option mbind outcome_bind]. change (id v) with v. rewrite Hv.
    cbn [mbind outcome_bind]. exact Hg. }
  rewrite Sb, Ss, Sw, Gb, Gw, Gs.
  split; [reflexivity |]. split; [reflexivity |]. split; [reflexivity |].
  unfold count_field. apply inj_le, filter_length_le.
  intros i Hi. unfold in_warning in Hi. apply andb_true_iff in Hi. apply Hi.
Qed.

Lemma report_groups_match_stats_witness :
  exists g w,
    report_groups sample_result = Ok g
    /\ stat_of sample_result k_blocking = JInt (Z.of_nat (length (blocking_issues g)))
    /\ stat_of sample_result k_suggestion = JInt (Z.of_nat (length (suggestion_issues g)))
    /\ stat_of sample_result k_warning = JInt w
    /\ (Z.of_nat (length (warning_issues g)) <= w)%Z.
Proof.
  apply (report_groups_match_stats cpython sample_reply sample_data sample_result);
    vm_compute; reflexivity.
Defined.

Lemma is_non_blocking_pure m : is_non_blocking (JObj m) = Ok (in_non_blocking (JObj m)).
Proof. reflexivity. Qed.

Lemma filter_filter_and (p q : json -> bool) (items : list json) :
  List.filter p (List.filter q items) = List.filter (fun i => q i && p i) items.
Proof.
  induction items as [| x items IH]; [reflexivity |]. cbn [List.filter].
  destruct (q x); cbn [List.filter andb]; [destruct (p x) |]; rewrite IH; reflexivity.
Qed.

(** X11.  The legacy report and the interactive report differ in their
    warnings only by the suggestions: for every result obtained from a
    reply that decodes, the Critical Issues of the legacy report are the
    BLOCKING group, its Warnings are as many as [stats.warning] says, and
    the WARNINGS group of the interactive report is the list of these
    warnings without the issues of type "suggestion". *)
Theorem legacy_warnings_match_stats (py : interpreter) (response_text : text) (data r : json) :
  json_loads py (pre_decode response_text) = Ok data ->
  parse_json_response py response_text = Ok r ->
  exists blocking warnings g,
    legacy_groups r = Ok (blocking, warnings)
    /\ report_groups r = Ok g
    /\ blocking = blocking_issues g
    /\ stat_of r k_warning = JInt (Z.of_nat (length warnings))
    /\ warning_issues g = List.filter (fun i => negb (in_suggestion i)) warnings.
Proof.
  intros Hd H. rewrite (parse_json_response_decoded _ _ _ Hd) in H.
  destruct (normalize_stats _ _ H) as (F & Sb & Sw & Ss).
  apply normalize_result in H
    as (m & m4 & sm0 & st & v & its & -> & Hsum & Hst & H4 & H4i & Hv & Hid & Hvl & ->).
  rewrite (issues_of_with_stats _ _ _ v its H4i Hv) in *.
  destruct (dicts_are_objs _ F) as (objs & ->).
  destruct (group_issues_filters objs) as (g & Hg & Gb & Gw & Gs).
  exists (List.filter in_blocking (JObj <$> objs)),
         (List.filter in_non_blocking (JObj <$> objs)), g.
  split.
  { unfold legacy_groups, with_stats. cbn [py_get_default].
    rewrite lookup_insert_ne by (vm_compute; discriminate).
    rewrite H4i. cbn [default from_option mbind outcome_bind]. change (id v) with v.
    rewrite Hv. cbn [mbind outcome_bind].
    rewrite (py_filter_pure is_blocking in_blocking) by apply is_blocking_pure.
    rewrite (py_filter_pure is_non_blocking in_non_blocking) by apply is_non_blocking_pure.
    reflexivity. }
  split.
  { unfold report_groups, with_stats. cbn [py_get_default].
    rewrite lookup_insert_ne by (vm_compute; discriminate).
    rewrite H4i. cbn [default from_option mbind outcome_bind]. change (id v) with v.
    rewrite Hv. cbn [mbind outcome_bind]. exact Hg. }
  split; [symmetry; exact Gb |]. split; [exact Sw |].
  rewrite Gw, filter_filter_and. reflexivity.
Qed.

Lemma legacy_warnings_match_stats_witness :
  exists blocking warnings g,
    legacy_groups sample_result = Ok (blocking, warnings)
    /\ report_groups sample_result = Ok g
    /\ blocking = blocking_issues g
    /\ stat_of sample_result k_warning = JInt (Z.of_nat (length warnings))
    /\ warning_issues g = List.filter (fun i => negb (in_suggestion i)) warnings.
Proof.
  apply (legacy_warnings_match_stats cpython sample_reply sample_data sample_result);
    vm_compute; reflexivity.
Defined.

(** ** What [parse_json_response] returns *)

Lemma parse_json_response_ok_inv (py : interpreter) (response_text : text) (r : json) :
  parse_json_response py response_text = Ok r ->
  (exists data, json_loads py (pre_decode response_text) = Ok data /\ normalize data = Ok r)
  \/ (exists msg doc pos,
        json_loads py (pre_decode response_text) = Raise (JSONDecodeError msg doc pos)
        /\ r = parse_error_result msg doc pos (pre_decode response_text)).
Proof.
  intros H.
  destruct (json_loads py (pre_decode response_text)) as [data | e] eqn:E.
  - left. exists data. split; [reflexivity |].
    rewrite <- (parse_json_response_decoded _ _ _ E). exact H.
  - right. unfold parse_json_response in H. fold (pre_decode response_text) in H.
    rewrite E in H. cbn [mbind outcome_bind] in H.
    destruct e; try discriminate H. injection H as <-. eauto.
Qed.

(** X12.  Whatever [parse_json_response] returns is a dict of one of two
    kinds: the parse-error record with its three string entries, or a dict
    whose [summary] is a dict holding a [stats] dict and which has an
    [issues] and a [positive_aspects] entry. *)
Theorem every_result_is_a_record (py : interpreter) (response_text : text) (r : json) :
  parse_json_response py response_text = Ok r ->
  (exists message raw,
     r = JObj (<[k_error := JStr (of_string "JSON_PARSE_ERROR")]>
              (<[k_message := JStr message]> (<[k_raw_response := JStr raw]> ∅))))
  \/ (exists mr sm st : gmap text json,
        r = JObj mr
        /\ mr !! k_summary = Some (JObj sm)
        /\ sm !! k_stats = Some (JObj st)
        /\ is_Some (mr !! k_issues)
        /\ is_Some (mr !! k_positive_aspects)).
Proof.
  intros H. apply parse_json_response_ok_inv in H as [(data & _ & H) | (msg & doc & pos & _ & ->)].
  - right. apply normalize_result in H
      as (m & m4 & sm0 & st & v & its & -> & Hsum & Hst & H4 & H4i & Hv & Hid & Hvl & ->).
    eexists _, _, _. split; [reflexivity |].
    split; [apply lookup_insert_eq |]. split; [apply lookup_insert_eq |].
    split.
    + rewrite lookup_insert_ne by (vm_compute; discriminate). rewrite H4i. eauto.
    + rewrite lookup_insert_ne by (vm_compute; discriminate).
      rewrite H4 by (vm_compute; discriminate).
      destruct (defaults_lookup_default m) as (_ & _ & Hp). rewrite Hp. eauto.
  - left. eexists _, _. reflexivity.
Qed.

Lemma every_result_is_a_record_witness :
  (exists message raw,
     sample_result = JObj (<[k_error := JStr (of_string "JSON_PARSE_ERROR")]>
              (<[k_message := JStr message]> (<[k_raw_response := JStr raw]> ∅))))
  \/ (exists mr sm st : gmap text json,
        sample_result = JObj mr
        /\ mr !! k_summary = Some (JObj sm)
        /\ sm !! k_stats = Some (JObj st)
        /\ is_Some (mr !! k_issues)
        /\ is_Some (mr !! k_positive_aspects)).
Proof.
  apply (every_result_is_a_record cpython sample_reply sample_result).
  vm_compute. reflexivity.
Defined.

Lemma parse_json_response_dict (py : interpreter) (response_text : text) (r : json) :
  parse_json_response py response_text = Ok r -> exists m, r = JObj m.
Proof.
  intros H. apply parse_json_response_ok_inv in H as [(data & _ & H) | (msg & doc & pos & _ & ->)].
  - apply normalize_result in H
      as (m & m4 & sm0 & st & v & its & -> & _ & _ & _ & _ & _ & _ & _ & ->).
    eexists. reflexivity.
  - eexists. reflexivity.
Qed.

(** ** [review_code] and the exit status *)

Section Review.
Variable str_lower : text -> text.
Variable str_upper : text -> text.
Variable path_suffix : text -> text.
Variable exn_str : exn -> text.
Variable prompt_methodology : text.
Variable JSON_SCHEMA : text.
Variable prompt_rules : text.
Variable float_positive : text -> bool.
Variable w : world.

Lemma collect_file_accepted (acc : list text * list text) (f : text) :
  exists parts,
    collect_file str_lower path_suffix w acc f
    = (acc.1 ++ parts,
       acc.2 ++ (if accepted str_lower path_suffix w f then [f] else []))
    /\ length parts = (if attempted str_lower path_suffix w f then 1 else 0).
Proof.
  destruct acc as [code_parts valid_files].
  unfold collect_file, accepted, attempted, excluded. cbn [fst snd].
  destruct (path_exists w f); cbn [negb orb andb];
    [| exists []; rewrite !app_nil_r; split; reflexivity].
  destruct (path_is_file w f); cbn [negb orb andb];
    [| exists []; rewrite !app_nil_r; split; reflexivity].
  destruct (existsb (text_eqb (str_lower (path_suffix f))) skip_extensions);
    cbn [negb orb andb]; [exists []; rewrite !app_nil_r; split; reflexivity |].
  destruct (read_text w f) as [content | e].
  - destruct (size_ceiling <? N.of_nat (length content))%N; cbn [negb];
      eexists [_]; rewrite ?app_nil_r; split; reflexivity.
  - eexists [_]. rewrite app_nil_r. split; reflexivity.
Qed.

Lemma collect_files_closed (files : list text) :
  forall acc, exists parts,
    fold_left (collect_file str_lower path_suffix w) files acc
    = (acc.1 ++ parts, acc.2 ++ List.filter (accepted str_lower path_suffix w) files)
    /\ length parts = length (List.filter (attempted str_lower path_suffix w) files).
Proof.
  induction files as [| f files IH]; intros acc.
  - exists []. rewrite !app_nil_r. destruct acc. split; reflexivity.
  - cbn [fold_left List.filter].
    destruct (collect_file_accepted acc f) as (p1 & -> & L1).
    destruct (IH (acc.1 ++ p1,
                  acc.2 ++ (if accepted str_lower path_suffix w f then [f] else [])))
      as (p2 & -> & L2).
    cbn [fst snd]. exists (p1 ++ p2). rewrite <- !app_assoc. split.
    + destruct (accepted str_lower path_suffix w f); reflexivity.
    + rewrite length_app, L1, L2.
      destruct (attempted str_lower path_suffix w f); reflexivity.
Qed.

Lemma collect_files_valid (files : list text) :
  (collect_files str_lower path_suffix w files).2
  = List.filter (accepted str_lower path_suffix w) files.
Proof.
  unfold collect_files.
  destruct (collect_files_closed files ([], [])) as (parts & -> & _). reflexivity.
Qed.

(** X13.  The valid files of a review are exactly the requested paths that
    exist, are regular files, have no excluded extension, can be read and
    hold at most 50000 characters, in the order of the request and as often
    as they are requested; and the code content gets one part for every
    requested path that the loop gets to read. *)
Theorem valid_files_are_the_accepted_files (files : list text) :
  (collect_files str_lower path_suffix w files).2
  = List.filter (accepted str_lower path_suffix w) files
  /\ length (collect_files str_lower path_suffix w files).1
     = length (List.filter (attempted str_lower path_suffix w) files).
Proof.
  unfold collect_files.
  destruct (collect_files_closed files ([], [])) as (parts & -> & L).
  split; [reflexivity | exact L].
Qed.

Lemma error_result_has_error (kind message : text) :
  py_contains k_error (error_result kind message) = Ok true.
Proof. reflexivity. Qed.

Lemma call_failed_error (error_msg : text) :
  exists kind message,
    call_failed str_upper error_msg = error_result kind message
    /\ (kind = of_string "INVALID_KEY" \/ kind = of_string "API_ERROR").
Proof.
  unfold call_failed.
  destruct (is_substring (of_string "API_KEY") (str_upper error_msg)
            || is_substring (of_string "401") error_msg); eauto.
Qed.

(** The ways [review_code] ends: an error record of its own, a result of
    the normalizer that has an [error] entry, or a result of the normalizer
    without one, to which [meta] is added. *)
Lemma review_code_cases (files : list text) (focus thinking_level : option text) :
  let r := review_code str_lower str_upper path_suffix exn_str prompt_methodology
             JSON_SCHEMA prompt_rules w files focus thinking_level in
  (exists kind message, r = error_result kind message)
  \/ (exists reply m,
        parse_json_response (python w) reply = Ok (JObj m)
        /\ ((is_Some (m !! k_error) /\ r = JObj m)
            \/ (exists level,
                  m !! k_error = None
                  /\ (forall l, thinking_level = Some l -> l <> [] -> level = l)
                  /\ r = JObj (<[k_meta :=
                                  meta_of (collect_files str_lower path_suffix w files).2
                                    level focus]> m)))).
Proof.
  cbv zeta. unfold review_code.
  destruct (genai_installed w); cbn [negb]; [| left; eauto].
  destruct (api_key w) as [[| c key] |]; [left; eauto | | left; eauto].
  destruct (collect_files str_lower path_suffix w files) as [code_parts valid_files].
  destruct valid_files as [| f valid_files]; [left; eauto |].
  set (level := match thinking_level with
                | Some ((_ :: _) as l) => l
                | _ => calculate_thinking_level str_lower (f :: valid_files)
                         (join (nl ++ nl) code_parts)
                end).
  assert (Hl : forall l, thinking_level = Some l -> l <> [] -> level = l).
  { intros l -> N. subst level. destruct l; [contradiction | reflexivity]. }
  clearbody level.
  destruct (generate_content w _ _) as [reply | error_msg];
    [| left; destruct (call_failed_error error_msg) as (k & msg & -> & _); eauto].
  destruct (parse_json_response (python w) reply) as [result | e] eqn:P;
    cbn [mbind outcome_bind];
    [| left; destruct (call_failed_error (exn_str e)) as (k & msg & -> & _); eauto].
  destruct (parse_json_response_dict _ _ _ P) as (m & ->).
  right. exists reply, m. split; [exact P |].
  cbn [py_contains mbind outcome_bind].
  destruct (m !! k_error) as [x |] eqn:E.
  - left. rewrite bool_decide_true by eauto. split; [eauto | reflexivity].
  - right. rewrite bool_decide_false by (intros [x Hx]; discriminate).
    exists level. split; [reflexivity |]. split; [exact Hl | reflexivity].
Qed.

Lemma exit_code_error (m : gmap text json) (e : json) :
  m !! k_error = Some e ->
  exit_code float_positive (JObj m)
  = Ok (if eq_str e (of_string "NO_API_KEY") then 2
        else if eq_str e (of_string "NO_FILES") then 0 else 1)%Z.
Proof.
  intros H. unfold exit_code. cbn [py_get mbind outcome_bind]. rewrite H.
  cbn [default from_option]. change (id e) with e.
  destruct (eq_str e (of_string "NO_API_KEY")); [reflexivity |].
  cbn [mbind outcome_bind].
  destruct (eq_str e (of_string "NO_FILES")); [reflexivity |].
  cbn [py_contains mbind outcome_bind]. rewrite bool_decide_true by (rewrite H; eauto).
  reflexivity.
Qed.

Lemma exit_code_counted (m sm st : gmap text json) (n : Z) :
  m !! k_error = None ->
  m !! k_summary = Some (JObj sm) ->
  sm !! k_stats = Some (JObj st) ->
  st !! k_blocking = Some (JInt n) ->
  exit_code float_positive (JObj m) = Ok (if (0 <? n)%Z then 3 else 0)%Z.
Proof.
  intros He Hs Ht Hb. unfold exit_code. cbn [py_get mbind outcome_bind]. rewrite He.
  cbn [default from_option eq_str mbind outcome_bind].
  cbn [py_contains mbind outcome_bind].
  rewrite bool_decide_false by (rewrite He; intros [x Hx]; discriminate).
  cbn [py_get_default mbind outcome_bind]. rewrite Hs.
  cbn [default from_option py_get_default mbind outcome_bind]. unfold id.
  cbn [py_get_default mbind outcome_bind]. rewrite Ht.
  cbn [default from_option py_get_default mbind outcome_bind]. unfold id.
  cbn [py_get_default mbind outcome_bind]. rewrite Hb. reflexivity.
Qed.

Lemma error_result_lookup (kind message : text) :
  exists m, error_result kind message = JObj m /\ m !! k_error = Some (JStr kind).
Proof. eexists. split; [reflexivity |]. apply lookup_insert_eq. Qed.

(** The blocking count of a normalized result without [error] entry. *)
Lemma normalized_blocking (data : json) (m : gmap text json) :
  normalize data = Ok (JObj m) ->
  exists sm st,
    m !! k_summary = Some (JObj sm)
    /\ sm !! k_stats = Some (JObj st)
    /\ st !! k_blocking
       = Some (JInt (count_field k_severity k_blocking (issues_of (JObj m)))).
Proof.
  intros H. apply normalize_result in H
    as (m0 & m4 & sm0 & st & v & its & -> & Hsum & Hst & H4 & H4i & Hv & Hid & Hvl & Hr).
  unfold with_stats in Hr. injection Hr as ->.
  eexists _, _. split; [apply lookup_insert_eq |]. split; [apply lookup_insert_eq |].
  fold (with_stats m4 (with_default sm0 k_stats (JObj ∅))
          (recounted st (count_field k_severity k_blocking its)
             (count_field k_severity k_non_blocking its)
             (count_field k_type k_suggestion its))).
  rewrite (issues_of_with_stats _ _ _ v its H4i Hv).
  unfold recounted. rewrite !lookup_insert_ne by (vm_compute; discriminate).
  apply lookup_insert_eq.
Qed.

Lemma issues_of_meta (m : gmap text json) (meta : json) :
  issues_of (JObj (<[k_meta := meta]> m)) = issues_of (JObj m).
Proof.
  unfold issues_of, field. rewrite lookup_insert_ne by (vm_compute; discriminate).
  reflexivity.
Qed.

Lemma positive_count_exists (items : list json) :
  (if (0 <? count_field k_severity k_blocking items)%Z then 3 else 0)%Z
  = (if existsb in_blocking items then 3 else 0)%Z.
Proof.
  unfold count_field.
  induction items as [| x items IH]; [reflexivity |].
  cbn [List.filter existsb]. fold (in_blocking x).
  destruct (in_blocking x); [| exact IH].
  cbn [orb length]. destruct (0 <? Z.of_nat (S _))%Z eqn:E; [reflexivity |].
  apply Z.ltb_ge in E. lia.
Qed.

(** X14.  A result of [review_code] without [error] entry carries a [meta]
    entry: its [files] are the accepted files of the request, its [focus]
    is the requested focus (or None), and its [thinking_level] is the
    requested level whenever one is requested. *)
Theorem successful_review_carries_meta (files : list text)
    (focus thinking_level : option text) :
  let r := review_code str_lower str_upper path_suffix exn_str prompt_methodology
             JSON_SCHEMA prompt_rules w files focus thinking_level in
  py_contains k_error r = Ok false ->
  field (field r k_meta) (of_string "files")
  = JArr (JStr <$> List.filter (accepted str_lower path_suffix w) files)
  /\ field (field r k_meta) (of_string "focus") = from_option JStr JNull focus
  /\ (forall l, thinking_level = Some l -> l <> [] ->
        field (field r k_meta) (of_string "thinking_level") = JStr l).
Proof.
  cbv zeta. intros H.
  destruct (review_code_cases files focus thinking_level)
    as [(kind & msg & E) | (reply & m & P & [[He E] | (level & He & Hl & E)])];
    rewrite E in H |- *.
  - rewrite error_result_has_error in H. discriminate.
  - cbn [py_contains] in H. rewrite bool_decide_true in H by exact He. discriminate.
  - rewrite collect_files_valid.
    unfold field at 2 4 6. rewrite !lookup_insert_eq. cbn [default from_option]. unfold id.
    unfold meta_of, field. split; [rewrite lookup_insert_eq; reflexivity |].
    split.
    + rewrite lookup_insert_ne by (vm_compute; discriminate).
      rewrite lookup_insert_ne by (vm_compute; discriminate).
      rewrite lookup_insert_eq. reflexivity.
    + intros l E1 E2. rewrite (Hl l E1 E2).
      rewrite lookup_insert_ne by (vm_compute; discriminate).
      rewrite lookup_insert_eq. reflexivity.
Qed.

(** X15.  The chain of exit statuses never fails on a result of
    [review_code]: the result is always a dict on which every lookup of the
    chain succeeds, and the status is 0, 1, 2 or 3. *)
Theorem exit_status_is_defined (files : list text) (focus thinking_level : option text) :
  exists z,
    exit_code float_positive
      (review_code str_lower str_upper path_suffix exn_str prompt_methodology
         JSON_SCHEMA prompt_rules w files focus thinking_level) = Ok z
    /\ (0 <= z <= 3)%Z.
Proof.
  destruct (review_code_cases files focus thinking_level)
    as [(kind & msg & E) | (reply & m & P & [[[e He] E] | (level & He & Hl & E)])];
    cbv zeta in E; rewrite E.
  - destruct (error_result_lookup kind msg) as (m & -> & Hm).
    rewrite (exit_code_error _ _ Hm). eexists. split; [reflexivity |].
    destruct (eq_str _ _); [lia |]. destruct (eq_str _ _); lia.
  - rewrite (exit_code_error _ _ He). eexists. split; [reflexivity |].
    destruct (eq_str _ _); [lia |]. destruct (eq_str _ _); lia.
  - apply parse_json_response_ok_inv in P as [(data & _ & N) | (msg & doc & pos & _ & Hr)].
    + destruct (normalized_blocking _ _ N) as (sm & st & Hs & Ht & Hb).
      erewrite (exit_code_counted _ sm st);
        [| rewrite lookup_insert_ne by (vm_compute; discriminate); exact He
         | rewrite lookup_insert_ne by (vm_compute; discriminate); exact Hs
         | exact Ht | exact Hb].
      eexists. split; [reflexivity |]. destruct (0 <? _)%Z; lia.
    + unfold parse_error_result in Hr. injection Hr as ->.
      rewrite lookup_insert_eq in He. discriminate.
Qed.

(** X16.  The chain of exit statuses that ends [main], evaluated on a
    result of [review_code] without [error] entry, gives 3 if some issue of
    the result has severity blocking, and 0 otherwise.  ([main] reaches the
    chain after it has printed the report; the statement is about the chain
    alone.) *)
Theorem exit_status_reports_blocking_issues (files : list text)
    (focus thinking_level : option text) :
  let r := review_code str_lower str_upper path_suffix exn_str prompt_methodology
             JSON_SCHEMA prompt_rules w files focus thinking_level in
  py_contains k_error r = Ok false ->
  exit_code float_positive r
  = Ok (if existsb in_blocking (issues_of r) then 3 else 0)%Z.
Proof.
  cbv zeta. intros H.
  destruct (review_code_cases files focus thinking_level)
    as [(kind & msg & E) | (reply & m & P & [[He E] | (level & He & Hl & E)])];
    cbv zeta in E; rewrite E in H |- *.
  - rewrite error_result_has_error in H. discriminate.
  - cbn [py_contains] in H. rewrite bool_decide_true in H by exact He. discriminate.
  - apply parse_json_response_ok_inv in P as [(data & _ & N) | (msg & doc & pos & _ & Hr)].
    + destruct (normalized_blocking _ _ N) as (sm & st & Hs & Ht & Hb).
      erewrite (exit_code_counted _ sm st);
        [| rewrite lookup_insert_ne by (vm_compute; discriminate); exact He
         | rewrite lookup_insert_ne by (vm_compute; discriminate); exact Hs
         | exact Ht | exact Hb].
      rewrite issues_of_meta. f_equal. apply positive_count_exists.
    + unfold parse_error_result in Hr. injection Hr as ->.
      rewrite lookup_insert_eq in He. discriminate.
Qed.


End Review.

Lemma successful_review_carries_meta_witness :
  let r := review_code ascii_lower ascii_upper posix_suffix exn_name [] [] []
             (replying_world sample_reply) [small_file] None (Some level_high) in
  field (field r k_meta) (of_string "files")
  = JArr (JStr <$> List.filter (accepted ascii_lower posix_suffix (replying_world sample_reply))
                     [small_file])
  /\ field (field r k_meta) (of_string "focus") = from_option JStr JNull None
  /\ (forall l, Some level_high = Some l -> l <> [] ->
        field (field r k_meta) (of_string "thinking_level") = JStr l).
Proof.
  apply (successful_review_carries_meta ascii_lower ascii_upper posix_suffix exn_name
           [] [] [] (replying_world sample_reply) [small_file] None (Some level_high)).
  vm_compute. reflexivity.
Defined.

Lemma exit_status_reports_blocking_issues_witness :
  let r := review_code ascii_lower ascii_upper posix_suffix exn_name [] [] []
             (replying_world sample_reply) [small_file] None None in
  exit_code no_float r = Ok (if existsb in_blocking (issues_of r) then 3 else 0)%Z.
Proof.
  apply (exit_status_reports_blocking_issues ascii_lower ascii_upper posix_suffix exn_name
           [] [] [] no_float (replying_world sample_reply) [small_file] None None).
  vm_compute. reflexivity.
Defined.


(** ** The [--files] argument *)

Lemma split_char_cons (sep : char) (s : text) :
  exists piece rest, split_char sep s = piece :: rest.
Proof.
  induction s as [| c s (piece & rest & IH)]; [eexists _, _; reflexivity |].
  cbn [split_char]. rewrite IH. destruct (char_eqb c sep); eexists _, _; reflexivity.
Qed.




Lemma split_char_no_sep (sep : char) (s : text) :
  Forall (fun q => ~ In sep q) (split_char sep s).
Proof.
  induction s as [| c s IH]; [repeat constructor; intros [] |].
  cbn [split_char]. destruct (split_char_cons sep s) as (piece & rest & E).
  rewrite E in *. inversion IH as [| ? ? Hp Hr]; subst.
  destruct (char_eqb c sep) eqn:Ec.
  - constructor; [intros [] | constructor; assumption].
  - constructor; [| assumption]. intros [-> | N]; [| exact (Hp N)].
    unfold char_eqb in Ec. rewrite N.eqb_refl in Ec. discriminate.
Qed.

Lemma In_lstrip (c : char) (s : text) : In c (lstrip s) -> In c s.
Proof.
  induction s as [| x s IH]; [exact (fun H => H) |]. cbn [lstrip].
  destruct (is_space x); [right; apply IH; assumption | exact (fun H => H)].
Qed.

Lemma In_rstrip (c : char) (s : text) : In c (rstrip s) -> In c s.
Proof.
  induction s as [| x s IH]; [exact (fun H => H) |]. cbn [rstrip].
  destruct (forallb is_space (x :: s)); [intros [] |].
  intros [-> | H]; [left; reflexivity | right; apply IH, H].
Qed.

Lemma In_strip (c : char) (s : text) : In c (strip s) -> In c s.
Proof. intros H. apply In_lstrip, In_rstrip, H. Qed.

Lemma stripped_nonempty_clean (pieces : list text) :
  Forall (fun q => ~ In comma q) pieces ->
  Forall clean_name (stripped_nonempty pieces).
Proof.
  induction 1 as [| p pieces Hp _ IH]; [constructor |].
  cbn [stripped_nonempty]. destruct (strip p) as [| c f] eqn:E; [exact IH |].
  constructor; [| exact IH]. rewrite <- E. split; [rewrite E; discriminate |].
  split; [intros N; apply Hp, In_strip, N | apply strip_idem].
Qed.


(** X18.  Every file name that [main] passes to [review_code] is not
    empty, contains no comma, and has no white space at either end. *)
Theorem files_of_arg_are_clean (files : text) :
  Forall clean_name (files_of_arg files).
Proof. apply stripped_nonempty_clean, split_char_no_sep. Qed.



(** ** The numbered lines of a code part *)

Lemma split_lines_cons (s : text) : exists l ls, split_lines s = l :: ls.
Proof.
  induction s as [| c s (l & ls & IH)]; [eexists _, _; reflexivity |].
  cbn [split_lines]. rewrite IH. destruct (char_eqb c c_newline); eexists _, _; reflexivity.
Qed.

Lemma join_split_lines (s : text) : join nl (split_lines s) = s.
Proof.
  induction s as [| c s IH]; [reflexivity |].
  cbn [split_lines]. destruct (split_lines_cons s) as (l & ls & E). rewrite E in *.
  destruct (char_eqb c c_newline) eqn:Ec.
  - unfold char_eqb in Ec. apply N.eqb_eq in Ec. subst c.
    change (join nl ([] :: l :: ls)) with (c_newline :: join nl (l :: ls)).
    rewrite IH. reflexivity.
  - destruct ls as [| l' ls].
    + cbn [join] in *. rewrite IH. reflexivity.
    + change (join nl ((c :: l) :: l' :: ls)) with (c :: join nl (l :: l' :: ls)).
      rewrite IH. reflexivity.
Qed.

Lemma length_split_lines (s : text) :
  length (split_lines s) = S (str_count nl s).
Proof.
  unfold str_count. induction s as [| c s IH]; [reflexivity |].
  cbn [split_lines count_from]. destruct (split_lines_cons s) as (l & ls & E).
  rewrite E in *. cbn [nl starts_with length Nat.sub].
  assert (Ec : char_eqb c_newline c = char_eqb c c_newline)
    by (unfold char_eqb; apply N.eqb_sym).
  rewrite Ec. destruct (char_eqb c c_newline); cbn [andb length] in *; lia.
Qed.

Lemma split_lines_no_newline (s : text) :
  Forall (fun line => ~ In c_newline line) (split_lines s).
Proof.
  induction s as [| c s IH]; [repeat constructor; intros [] |].
  cbn [split_lines]. destruct (split_lines_cons s) as (l & ls & E). rewrite E in *.
  inversion IH as [| ? ? Hl Hls]; subst.
  destruct (char_eqb c c_newline) eqn:Ec.
  - constructor; [intros [] | constructor; assumption].
  - constructor; [| assumption]. intros [Eq | Hin]; [| exact (Hl Hin)].
    subst c. unfold char_eqb in Ec. rewrite N.eqb_refl in Ec. discriminate Ec.
Qed.

Lemma number_lines_imap (lines : list text) :
  forall i,
    number_lines i lines
    = imap (fun k line => format_4d (i + k) ++ of_string " | " ++ line) lines.
Proof.
  induction lines as [| l lines IH]; intros i; [reflexivity |].
  cbn [number_lines]. rewrite imap_cons, Nat.add_0_r. f_equal.
  rewrite IH. apply imap_ext. intros k line _. cbn [compose].
  rewrite Nat.add_succ_comm. reflexivity.
Qed.

Lemma digits_value_bound (ds : text) :
  Forall (fun c => is_digit c = true) ds ->
  (0 <= digits_value ds < 10 ^ Z.of_nat (length ds))%Z.
Proof.
  induction ds as [| c ds IH] using rev_ind; intros F.
  - change (digits_value []) with 0%Z. simpl. lia.
  - apply Forall_app in F as [F Fc]. specialize (IH F).
    inversion Fc as [| ? ? Hc _]; subst. unfold is_digit in Hc.
    apply andb_true_iff in Hc as [H1 H2].
    apply N.leb_le in H1, H2.
    rewrite digits_value_snoc, length_app. cbn [length].
    replace (Z.of_nat (length ds + 1)) with (Z.succ (Z.of_nat (length ds))) by lia.
    rewrite Z.pow_succ_r by lia. lia.
Qed.

(** [f"{i:4d}"] is the decimal numeral of [i], right-aligned with blanks to
    width 4 and never cut. *)
Lemma format_4d_width (i : nat) :
  exists pad,
    format_4d i = replicate pad c_blank ++ str_of_nat i
    /\ Forall (fun c => is_digit c = true) (str_of_nat i)
    /\ digits_value (str_of_nat i) = Z.of_nat i
    /\ 4 <= length (format_4d i)
    /\ (i < 10 ^ 4 -> length (format_4d i) = 4)
    /\ (10 ^ 3 <= i -> pad = 0).
Proof.
  destruct (str_of_nat_decimal i) as (F & V & _ & L).
  pose proof (digits_value_bound _ F) as B. rewrite V in B.
  exists (4 - length (str_of_nat i)).
  split; [reflexivity |]. split; [exact F |]. split; [exact V |].
  unfold format_4d. cbv zeta. rewrite length_app, length_replicate.
  unfold char in *.
  split; [lia |]. split.
  - intros H. specialize (L 4 ltac:(lia) H). lia.
  - intros H.
    destruct (le_lt_dec 4 (length (str_of_nat i))) as [G | G]; [lia |].
    exfalso. destruct B as [_ B].
    assert (P : (10 ^ Z.of_nat (length (str_of_nat i)) <= 10 ^ 3)%Z)
      by (apply Z.pow_le_mono_r; lia).
    change (10 ^ 3)%Z with 1000%Z in P. change (10 ^ 3) with 1000 in H. lia.
Qed.

Lemma number_lines_explicit (lines : list text) :
  number_lines 1 lines
  = imap (fun k line =>
            replicate (4 - length (str_of_nat (S k))) c_blank
            ++ str_of_nat (S k) ++ of_string " | " ++ line) lines.
Proof.
  rewrite number_lines_imap. apply imap_ext. intros k line _.
  unfold format_4d. cbv zeta. rewrite <- app_assoc. reflexivity.
Qed.

Lemma join_cons_cons (a b : text) (rest : list text) :
  join nl (a :: b :: rest) = a ++ nl ++ join nl (b :: rest).
Proof. reflexivity. Qed.

Lemma join_snoc (last : text) (xs : list text) (x : text) :
  join nl ((x :: xs) ++ [last]) = join nl (x :: xs) ++ nl ++ last.
Proof.
  revert x. induction xs as [| y xs IH]; intros x; [reflexivity |].
  change ((x :: y :: xs) ++ [last]) with (x :: (y :: xs) ++ [last]).
  change ((y :: xs) ++ [last]) with (y :: (xs ++ [last])).
  rewrite join_cons_cons. change (y :: (xs ++ [last])) with ((y :: xs) ++ [last]).
  rewrite IH, join_cons_cons, <- !app_assoc. reflexivity.
Qed.

(** A block of lines between two heading lines and a closing line. *)
Lemma join_framed (h f last x : text) (xs : list text) :
  h ++ nl ++ f ++ nl ++ join nl (x :: xs) ++ nl ++ last
  = join nl ([h; f] ++ (x :: xs) ++ [last]).
Proof.
  change ([h; f] ++ (x :: xs) ++ [last]) with (h :: f :: ((x :: xs) ++ [last])).
  rewrite join_cons_cons.
  change ((x :: xs) ++ [last]) with (x :: (xs ++ [last])).
  rewrite join_cons_cons.
  change (x :: (xs ++ [last])) with ((x :: xs) ++ [last]).
  rewrite join_snoc. reflexivity.
Qed.

(** X20.  A file of at most 50000 characters is given to the model as a
    code part of this shape: a heading with the path, a fence line with the
    suffix without its dot, one line for every line of the content, and the
    closing fence.  The lines of the content are its pieces between line
    feeds, one more than it has line feeds; the line at (0-based) position
    k is shown after the decimal numeral of k + 1, right-aligned to width 4
    (wider from 10000 on), and the separator [ | ]. *)
Theorem code_part_numbers_every_line (file_path suffix content : text) :
  exists lines : list text,
    join nl lines = content
    /\ Forall (fun line => ~ In c_newline line) lines
    /\ length lines = S (str_count nl content)
    /\ code_part file_path suffix content
       = join nl ([of_string "### " ++ file_path; fence ++ drop 1 suffix]
                  ++ imap (fun k line =>
                             replicate (4 - length (str_of_nat (S k))) c_blank
                             ++ str_of_nat (S k) ++ of_string " | " ++ line) lines
                  ++ [fence])
    /\ (forall k : nat,
          Forall (fun c => is_digit c = true) (str_of_nat (S k))
          /\ digits_value (str_of_nat (S k)) = Z.of_nat (S k)
          /\ (S k < 10 ^ 4 ->
              length (replicate (4 - length (str_of_nat (S k))) c_blank
                      ++ str_of_nat (S k)) = 4)
          /\ (10 ^ 3 <= S k -> 4 - length (str_of_nat (S k)) = 0)).
Proof.
  exists (split_lines content).
  split; [apply join_split_lines |].
  split; [apply split_lines_no_newline |].
  split; [apply length_split_lines |].
  split.
  - unfold code_part. cbv zeta.
    rewrite <- (number_lines_explicit (split_lines content)).
    destruct (split_lines_cons content) as (l & ls & E). rewrite E.
    cbn [number_lines]. rewrite <- join_framed, <- !app_assoc. reflexivity.
  - intros k. destruct (format_4d_width (S k)) as (pad & E & F & V & _ & W & P).
    unfold format_4d in E, W. cbv zeta in E, W.
    split; [exact F |]. split; [exact V |]. split; [exact W |].
    intros H. specialize (P H).
    apply (f_equal (@length char)) in E.
    rewrite !length_app, !length_replicate in E. lia.
Qed.
(** ** The key in [.env] *)

Lemma char_eqb_eq (a b : char) : char_eqb a b = true <-> a = b.
Proof. unfold char_eqb. apply N.eqb_eq. Qed.

Lemma char_eqb_neq (a b : char) : char_eqb a b = false <-> a <> b.
Proof. unfold char_eqb. apply N.eqb_neq. Qed.

(** *** Reading lines *)

Lemma universal_newlines_no_return (s : text) :
  forall b, ~ In c_return (universal_newlines b s).
Proof.
  induction s as [| c s IH]; intros b; [intros [] |].
  cbn [universal_newlines].
  destruct (char_eqb c c_return) eqn:E1.
  - intros [N | N]; [discriminate N | exact (IH _ N)].
  - destruct (char_eqb c c_newline) eqn:E2.
    + destruct b; [apply IH |]. intros [N | N]; [discriminate N | exact (IH _ N)].
    + intros [N | N]; [| exact (IH _ N)].
      apply char_eqb_neq in E1. congruence.
Qed.

Lemma universal_newlines_id (s : text) :
  ~ In c_return s -> universal_newlines false s = s.
Proof.
  induction s as [| c s IH]; intros H; [reflexivity |].
  cbn [universal_newlines].
  destruct (char_eqb c c_return) eqn:E1.
  - apply char_eqb_eq in E1. destruct H. left. exact E1.
  - rewrite IH by (intros N; apply H; right; exact N).
    destruct (char_eqb c c_newline) eqn:E2; [| reflexivity].
    apply char_eqb_eq in E2. rewrite E2. reflexivity.
Qed.

Lemma concat_file_lines (s : text) : concat (file_lines s) = s.
Proof.
  induction s as [| c s IH]; [reflexivity |]. cbn [file_lines].
  destruct (char_eqb c c_newline); [cbn [concat app]; rewrite IH; reflexivity |].
  destruct (file_lines s) as [| line rest]; cbn [concat app] in *;
    rewrite <- IH; reflexivity.
Qed.

Lemma file_lines_app (body s : text) :
  ~ In c_newline body -> file_lines (body ++ nl ++ s) = (body ++ nl) :: file_lines s.
Proof.
  induction body as [| c body IH]; intros H; [reflexivity |].
  cbn [app file_lines]. change (body ++ c_newline :: s) with (body ++ nl ++ s).
  rewrite IH by (intros N; apply H; right; exact N).
  destruct (char_eqb c c_newline) eqn:E; [| reflexivity].
  apply char_eqb_eq in E. destruct H. left. exact E.
Qed.

Lemma file_lines_of_lines (lines : list text) :
  Forall complete_line lines -> file_lines (concat lines) = lines.
Proof.
  induction 1 as [| line lines (body & -> & Hb) _ IH]; [reflexivity |].
  cbn [concat]. rewrite <- app_assoc, (file_lines_app _ _ Hb), IH. reflexivity.
Qed.

Lemma line_like_cons (c : char) (line : text) :
  c <> c_newline -> line_like line -> line_like (c :: line).
Proof.
  intros Hc [(body & -> & Hb) | (Hn & Hb)].
  - left. exists (c :: body). split; [reflexivity |].
    intros [N | N]; [congruence | exact (Hb N)].
  - right. split; [discriminate |]. intros [N | N]; [congruence | exact (Hb N)].
Qed.

Lemma complete_line_cons (c : char) (line : text) :
  c <> c_newline -> complete_line line -> complete_line (c :: line).
Proof.
  intros Hc (body & -> & Hb). exists (c :: body). split; [reflexivity |].
  intros [N | N]; [congruence | exact (Hb N)].
Qed.

Lemma complete_line_nl : complete_line nl.
Proof. exists []. split; [reflexivity | intros []]. Qed.

(** The lines of a text: complete ones, then one that may be incomplete. *)
Lemma file_lines_snoc (s : text) :
  file_lines s = []
  \/ exists init z, file_lines s = init ++ [z] /\ Forall complete_line init /\ line_like z.
Proof.
  induction s as [| c s IH]; [left; reflexivity |]. right. cbn [file_lines].
  destruct (char_eqb c c_newline) eqn:E.
  - apply char_eqb_eq in E. subst c.
    destruct IH as [-> | (init & z & -> & Hi & Hz)].
    + exists [], nl. repeat split; [constructor | left; apply complete_line_nl].
    + exists (nl :: init), z. repeat split; [constructor; [apply complete_line_nl | exact Hi] | exact Hz].
  - apply char_eqb_neq in E.
    destruct IH as [-> | (init & z & -> & Hi & Hz)].
    + exists [], [c]. repeat split; [constructor |]. right. split; [discriminate |].
      intros [N | []]. congruence.
    + destruct init as [| l init]; cbn [app].
      * exists [], (c :: z). repeat split; [constructor | apply line_like_cons; assumption].
      * inversion Hi as [| ? ? Hl Hr]; subst.
        exists ((c :: l) :: init), z.
        repeat split; [constructor; [apply complete_line_cons; assumption | exact Hr] | exact Hz].
Qed.

(** *** Closing the last line *)

Lemma ends_with_newline_complete (line : text) :
  complete_line line -> ends_with_newline line = true.
Proof.
  intros (body & -> & _). unfold ends_with_newline, nl. rewrite last_snoc. reflexivity.
Qed.

Lemma close_last_line_snoc (xs : list text) (z : text) :
  close_last_line (xs ++ [z]) = xs ++ [if ends_with_newline z then z else z ++ nl].
Proof.
  induction xs as [| x xs IH].
  - cbn [app close_last_line]. destruct (ends_with_newline z); reflexivity.
  - cbn [app]. destruct (xs ++ [z]) as [| y ys] eqn:E.
    + destruct xs; discriminate E.
    + cbn [close_last_line]. cbn [close_last_line] in IH. rewrite IH. reflexivity.
Qed.

Lemma close_last_line_complete (xs : list text) :
  Forall complete_line xs -> close_last_line xs = xs.
Proof.
  intros H. destruct xs as [| x xs _] using rev_ind; [reflexivity |].
  rewrite close_last_line_snoc.
  apply Forall_app in H as [_ H]. inversion H as [| ? ? Hx _]; subst.
  rewrite (ends_with_newline_complete _ Hx). reflexivity.
Qed.

Lemma closed_line_complete (z : text) :
  line_like z -> complete_line (if ends_with_newline z then z else z ++ nl).
Proof.
  intros [H | (Hn & Hb)].
  - rewrite (ends_with_newline_complete _ H). exact H.
  - assert (E : ends_with_newline z = false).
    { unfold ends_with_newline. destruct (last z) as [c |] eqn:L; [| reflexivity].
      apply char_eqb_neq. intros ->. apply Hb.
      apply last_Some in L as (l' & ->). apply in_or_app. right. left. reflexivity. }
    rewrite E. exists z. split; [reflexivity | exact Hb].
Qed.

(** *** Trimming a line *)

Lemma rstrip_app_space (t : text) (c : char) :
  is_space c = true -> rstrip (t ++ [c]) = rstrip t.
Proof.
  intros Hc. induction t as [| x t IH].
  - cbn [app rstrip forallb]. rewrite Hc. reflexivity.
  - cbn [app rstrip]. rewrite IH.
    assert (E : forallb is_space (x :: t ++ [c]) = forallb is_space (x :: t)).
    { cbn [forallb]. rewrite forallb_app. cbn [forallb]. rewrite Hc.
      rewrite !andb_true_r. reflexivity. }
    rewrite E. reflexivity.
Qed.

Lemma rstrip_snoc (t : text) (c : char) :
  is_space c = false -> rstrip (t ++ [c]) = t ++ [c].
Proof.
  intros Hc. induction t as [| x t IH].
  - cbn [app rstrip forallb]. rewrite Hc. reflexivity.
  - cbn [app rstrip]. rewrite IH.
    assert (E : forallb is_space (x :: t ++ [c]) = false).
    { cbn [forallb]. rewrite forallb_app. cbn [forallb]. rewrite Hc.
      rewrite !andb_false_r. reflexivity. }
    rewrite E. reflexivity.
Qed.

Lemma strip_app_space (s : text) (c : char) :
  is_space c = true -> strip (s ++ [c]) = strip s.
Proof.
  intros Hc. unfold strip. rewrite lstrip_app.
  destruct (forallb is_space s) eqn:E.
  - rewrite (lstrip_all_space _ E). cbn [lstrip]. rewrite Hc. reflexivity.
  - apply rstrip_app_space, Hc.
Qed.

Lemma is_key_line_closed (z : text) :
  is_key_line (if ends_with_newline z then z else z ++ nl) = is_key_line z.
Proof.
  destruct (ends_with_newline z); [reflexivity |].
  unfold is_key_line, nl. rewrite strip_app_space by reflexivity. reflexivity.
Qed.

(** *** The line that is appended *)

Lemma key_line_bare (api_key : text) : key_line api_key = bare_key_line api_key ++ nl.
Proof.
  unfold key_line, bare_key_line. change (of_string "GEMINI_API_KEY=") with key_prefix.
  rewrite <- !app_assoc. reflexivity.
Qed.

Lemma strip_key_line (api_key : text) : strip (key_line api_key) = bare_key_line api_key.
Proof.
  rewrite key_line_bare. unfold nl. rewrite strip_app_space by reflexivity.
  unfold strip, bare_key_line.
  assert (L : forall rest, lstrip (key_prefix ++ rest) = key_prefix ++ rest) by reflexivity.
  rewrite L, app_assoc. apply rstrip_snoc. reflexivity.
Qed.

Lemma starts_with_app (p s : text) : starts_with p (p ++ s) = true.
Proof. apply (strip_prefix_starts p (p ++ s) s), strip_prefix_app. Qed.

Lemma is_key_line_key_line (api_key : text) : is_key_line (key_line api_key) = true.
Proof.
  unfold is_key_line. rewrite strip_key_line. apply starts_with_app.
Qed.

Lemma complete_key_line (api_key : text) :
  ~ In c_newline api_key -> complete_line (key_line api_key).
Proof.
  intros H. exists (bare_key_line api_key). split; [apply key_line_bare |].
  unfold bare_key_line. intros N.
  apply in_app_or in N as [N | N].
  - revert N. vm_compute. intuition discriminate.
  - apply in_app_or in N as [[N | N] | [N | []]]; [discriminate N | exact (H N) | discriminate N].
Qed.

(** *** Trimming the quotes *)

Lemma lstrip_chars_app (chars t u : text) :
  lstrip_chars chars (t ++ u)
  = if forallb (fun d => existsb (char_eqb d) chars) t
    then lstrip_chars chars u else lstrip_chars chars t ++ u.
Proof.
  induction t as [| c t IH]; [reflexivity |].
  cbn [app lstrip_chars forallb]. destruct (existsb (char_eqb c) chars); [exact IH | reflexivity].
Qed.

Lemma lstrip_chars_all (chars t : text) :
  forallb (fun d => existsb (char_eqb d) chars) t = true -> lstrip_chars chars t = [].
Proof.
  induction t as [| c t IH]; [reflexivity |]. cbn [lstrip_chars forallb].
  destruct (existsb (char_eqb c) chars); [exact IH | discriminate].
Qed.

Lemma rstrip_chars_app_char (chars t : text) (c : char) :
  existsb (char_eqb c) chars = true -> rstrip_chars chars (t ++ [c]) = rstrip_chars chars t.
Proof.
  intros Hc. induction t as [| x t IH].
  - cbn [app rstrip_chars forallb]. rewrite Hc. reflexivity.
  - cbn [app rstrip_chars]. rewrite IH.
    assert (E : forallb (fun d => existsb (char_eqb d) chars) (x :: t ++ [c])
                = forallb (fun d => existsb (char_eqb d) chars) (x :: t)).
    { cbn [forallb]. rewrite forallb_app. cbn [forallb]. rewrite Hc.
      rewrite !andb_true_r. reflexivity. }
    rewrite E. reflexivity.
Qed.

Lemma strip_chars_quoted (api_key : text) :
  strip_chars quote_chars ((c_quote :: api_key) ++ [c_quote])
  = strip_chars quote_chars api_key.
Proof.
  unfold strip_chars.
  change (lstrip_chars quote_chars ((c_quote :: api_key) ++ [c_quote]))
    with (lstrip_chars quote_chars (api_key ++ [c_quote])).
  rewrite lstrip_chars_app.
  destruct (forallb (fun d => existsb (char_eqb d) quote_chars) api_key) eqn:E.
  - rewrite (lstrip_chars_all _ _ E). reflexivity.
  - apply rstrip_chars_app_char. reflexivity.
Qed.

(** *** The loop of [get_api_key] *)

Lemma scan_env_lines_skip (xs ys : list text) :
  Forall (fun line => is_key_line line = false) xs ->
  scan_env_lines (xs ++ ys) = scan_env_lines ys.
Proof.
  induction 1 as [| x xs Hx _ IH]; [reflexivity |].
  cbn [app scan_env_lines]. unfold is_key_line in Hx. rewrite Hx. exact IH.
Qed.

Lemma scan_env_lines_key_line (api_key : text) (rest : list text) :
  scan_env_lines (key_line api_key :: rest) = Found (strip_chars quote_chars api_key).
Proof.
  cbn [scan_env_lines]. rewrite strip_key_line.
  unfold bare_key_line at 1. rewrite starts_with_app.
  assert (S : forall value, split_once (chr "=") (key_prefix ++ value) !! 1%nat = Some value)
    by reflexivity.
  unfold bare_key_line. rewrite S. rewrite strip_chars_quoted. reflexivity.
Qed.

Lemma starts_with_split (p s : text) :
  starts_with p s = true -> exists rest, s = p ++ rest.
Proof.
  revert s. induction p as [| x p IH]; intros s H; [exists s; reflexivity |].
  destruct s as [| y s]; [discriminate |]. cbn [starts_with] in H.
  apply andb_true_iff in H as [E H]. apply char_eqb_eq in E. subst y.
  destruct (IH _ H) as (rest & ->). exists rest. reflexivity.
Qed.

Lemma scan_env_lines_safe (lines : list text) : scan_env_lines lines <> IndexError.
Proof.
  induction lines as [| line lines IH]; [discriminate |]. cbn [scan_env_lines].
  destruct (starts_with key_prefix (strip line)) eqn:E; [| exact IH].
  apply starts_with_split in E as (rest & ->).
  assert (S : forall value, split_once (chr "=") (key_prefix ++ value) !! 1%nat = Some value)
    by reflexivity.
  rewrite S. discriminate.
Qed.

(** *** What [setup_api_key] writes *)

Lemma In_file_lines (c : char) (line s : text) :
  In line (file_lines s) -> In c line -> In c s.
Proof.
  intros Hl Hc. rewrite <- (concat_file_lines s). apply in_concat. eauto.
Qed.

(** The lines kept from the file: complete, not key lines, and without
    carriage return. *)
Lemma kept_lines_fine (st : key_store) :
  Forall complete_line (kept_lines st)
  /\ Forall (fun line => is_key_line line = false) (kept_lines st)
  /\ Forall (fun line => ~ In c_return line) (kept_lines st).
Proof.
  unfold kept_lines, dotenv_lines.
  destruct (dotenv st) as [content |];
    [| split; [constructor | split; constructor]].
  unfold read_lines. set (s := universal_newlines false content).
  assert (Hcr : Forall (fun line => ~ In c_return line) (file_lines s)).
  { apply List.Forall_forall. intros line Hl N.
    apply (universal_newlines_no_return content false), (In_file_lines _ line); assumption. }
  set (keep := fun line => negb (is_key_line line)).
  destruct (file_lines_snoc s) as [-> | (init & z & E & Hi & Hz)];
    [split; [constructor | split; constructor] |].
  rewrite E in *. clear E.
  apply Forall_app in Hcr as [Hcr1 Hcr2]. inversion Hcr2 as [| ? ? Hcz _]; subst.
  assert (Fi : Forall complete_line (List.filter keep init)).
  { apply List.Forall_forall. intros l Hl. apply filter_In in Hl as [Hl _].
    revert l Hl. apply List.Forall_forall, Hi. }
  assert (Fk : Forall (fun line => is_key_line line = false) (List.filter keep init)).
  { apply List.Forall_forall. intros l Hl. apply filter_In in Hl as [_ Hl].
    apply negb_true_iff, Hl. }
  assert (Fc : Forall (fun line => ~ In c_return line) (List.filter keep init)).
  { apply List.Forall_forall. intros l Hl. apply filter_In in Hl as [Hl _].
    revert l Hl. apply List.Forall_forall, Hcr1. }
  rewrite List.filter_app. cbn [List.filter]. destruct (keep z) eqn:Ez.
  - rewrite close_last_line_snoc. split; [| split].
    + apply Forall_app. split; [exact Fi |]. constructor; [| constructor].
      apply closed_line_complete, Hz.
    + apply Forall_app. split; [exact Fk |]. constructor; [| constructor].
      rewrite is_key_line_closed. apply negb_true_iff, Ez.
    + apply Forall_app. split; [exact Fc |]. constructor; [| constructor].
      destruct (ends_with_newline z); [exact Hcz |].
      intros N. apply in_app_or in N as [N | [N | []]]; [exact (Hcz N) | discriminate N].
  - rewrite app_nil_r, (close_last_line_complete _ Fi). repeat split; assumption.
Qed.

Lemma setup_lines_kept (st : key_store) (api_key : text) :
  setup_lines st api_key = kept_lines st ++ [key_line api_key].
Proof. unfold setup_lines, kept_lines, dotenv_lines. destruct (dotenv st); reflexivity. Qed.

Lemma no_return_key_line (api_key : text) :
  ~ In c_return api_key -> ~ In c_return (key_line api_key).
Proof.
  intros H. rewrite key_line_bare. unfold bare_key_line. intros N.
  apply in_app_or in N as [N | [N | []]]; [| discriminate N].
  apply in_app_or in N as [N | N].
  - revert N. vm_compute. intuition discriminate.
  - apply in_app_or in N as [[N | N] | [N | []]]; [discriminate N | exact (H N) | discriminate N].
Qed.

(** Reading back what [setup_api_key] writes gives the lines written. *)
Lemma read_lines_setup (st : key_store) (api_key : text) :
  one_line api_key ->
  read_lines (concat (setup_lines st api_key)) = kept_lines st ++ [key_line api_key].
Proof.
  intros [Hn Hr]. rewrite setup_lines_kept.
  destruct (kept_lines_fine st) as (Fc & _ & Fr).
  unfold read_lines. rewrite universal_newlines_id.
  - apply file_lines_of_lines, Forall_app. split; [exact Fc |].
    constructor; [apply complete_key_line, Hn | constructor].
  - intros N. apply in_concat in N as (line & Hl & N).
    apply in_app_or in Hl as [Hl | [<- | []]].
    + exact (proj1 (List.Forall_forall _ _) Fr line Hl N).
    + exact (no_return_key_line _ Hr N).
Qed.

Section Credentials.
Variable st : key_store.
Hypothesis writable : dotenv_writable st = true.

Lemma setup_api_key_store (api_key : text) :
  setup_api_key st api_key
  = (true, {| environ_key := environ_key st;
              dotenv := Some (concat (setup_lines st api_key));
              dotenv_writable := true |}).
Proof. unfold setup_api_key. rewrite writable. reflexivity. Qed.

(** X21.  A key that is saved is the key that is found: after a
    successful [setup_api_key] with a key that holds no line feed and no
    carriage return, and with no key in the environment, [get_api_key]
    returns the key without the quote characters at its two ends, that is
    the key itself when it neither starts nor ends with a quote. *)
Theorem saved_key_is_found (api_key : text) :
  one_line api_key ->
  environ_key st = None \/ environ_key st = Some [] ->
  fst (setup_api_key st api_key) = true
  /\ get_api_key (snd (setup_api_key st api_key)) = Found (strip_chars quote_chars api_key)
  /\ (strip_chars quote_chars api_key = api_key ->
      get_api_key (snd (setup_api_key st api_key)) = Found api_key).
Proof.
  intros Hk He. rewrite setup_api_key_store. cbn [fst snd].
  assert (G : get_api_key {| environ_key := environ_key st;
                             dotenv := Some (concat (setup_lines st api_key));
                             dotenv_writable := true |}
              = Found (strip_chars quote_chars api_key)).
  { unfold get_api_key. cbn [environ_key dotenv].
    assert (E : match environ_key st with
                | Some ((_ :: _) as k) => Found k
                | _ => scan_env_lines (read_lines (concat (setup_lines st api_key)))
                end = scan_env_lines (read_lines (concat (setup_lines st api_key)))).
    { destruct He as [-> | ->]; reflexivity. }
    rewrite E, (read_lines_setup _ _ Hk).
    destruct (kept_lines_fine st) as (_ & Fk & _).
    rewrite (scan_env_lines_skip _ _ Fk). apply scan_env_lines_key_line. }
  split; [reflexivity |]. split; [exact G |]. intros E. rewrite G, E. reflexivity.
Qed.


(** X23.  The last key saved wins and nothing piles up: saving a key on
    one line and then a second key leaves the file as saving the second key
    alone does; in particular saving the same key twice is the same as
    saving it once. *)
Theorem last_saved_key_wins (first_key second_key : text) :
  one_line first_key ->
  dotenv (snd (setup_api_key (snd (setup_api_key st first_key)) second_key))
  = dotenv (snd (setup_api_key st second_key)).
Proof.
  intros Hk. rewrite (setup_api_key_store first_key). cbn [snd].
  unfold setup_api_key at 1. cbn [dotenv_writable snd dotenv].
  rewrite (setup_api_key_store second_key). cbn [snd dotenv]. f_equal. f_equal.
  rewrite (setup_lines_kept st second_key). unfold setup_lines at 1. cbn [dotenv].
  rewrite (read_lines_setup _ _ Hk).
  destruct (kept_lines_fine st) as (Fc & Fk & _).
  rewrite List.filter_app. cbn [List.filter]. rewrite is_key_line_key_line. cbn [negb].
  rewrite app_nil_r.
  assert (E : List.filter (fun line => negb (is_key_line line)) (kept_lines st)
              = kept_lines st).
  { apply forallb_filter_id, forallb_forall. intros line Hl.
    apply negb_true_iff. revert line Hl. apply List.Forall_forall, Fk. }
  rewrite E, (close_last_line_complete _ Fc). reflexivity.
Qed.

End Credentials.

(** X24.  The subscript in [get_api_key] is safe: whatever the environment
    and the file hold, the function returns a key or None and never raises
    [IndexError]. *)
Theorem get_api_key_never_raises (st : key_store) : get_api_key st <> IndexError.
Proof.
  unfold get_api_key.
  destruct (environ_key st) as [[| c k] |];
    try discriminate;
    (destruct (dotenv st); [apply scan_env_lines_safe | discriminate]).
Qed.

Lemma saved_key_is_found_witness :
  fst (setup_api_key sample_store sample_key) = true
  /\ get_api_key (snd (setup_api_key sample_store sample_key))
     = Found (strip_chars quote_chars sample_key)
  /\ (strip_chars quote_chars sample_key = sample_key ->
      get_api_key (snd (setup_api_key sample_store sample_key)) = Found sample_key).
Proof.
  apply (saved_key_is_found sample_store eq_refl sample_key).
  - split; vm_compute; intuition discriminate.
  - left. reflexivity.
Defined.


Lemma last_saved_key_wins_witness :
  dotenv (snd (setup_api_key (snd (setup_api_key sample_store (of_string "old"))) sample_key))
  = dotenv (snd (setup_api_key sample_store sample_key)).
Proof.
  apply (last_saved_key_wins sample_store eq_refl (of_string "old") sample_key).
  split; vm_compute; intuition discriminate.
Defined.

(** ** The report of an error *)

(** X25.  The error records that [review_code] builds itself are always
    rendered: for every kind and message the error branch of
    [format_interactive_output] returns a report without raising, and for a
    kind other than NO_API_KEY and JSON_PARSE_ERROR the report is the
    banner, the line of the message after the cross mark and "Error:", and
    the closing rule. *)
Theorem own_error_records_are_rendered (py_str : json -> text) (kind message : text) :
  error_result kind message = JObj (error_entries kind message)
  /\ error_entries kind message !! k_error = Some (JStr kind)
  /\ (exists report,
        error_report py_str (error_entries kind message) (JStr kind) = Some report)
  /\ (kind <> of_string "NO_API_KEY" -> kind <> of_string "JSON_PARSE_ERROR" ->
      error_report py_str (error_entries kind message) (JStr kind)
      = Some (join nl (banner
                       ++ [[10060%N] ++ of_string " Error: " ++ message]
                       ++ footer))).
Proof.
  split; [reflexivity |]. split; [apply lookup_insert_eq |].
  assert (Hm : error_entries kind message !! k_message = Some (JStr message)).
  { unfold error_entries. rewrite lookup_insert_ne by (vm_compute; discriminate).
    apply lookup_insert_eq. }
  assert (Hr : error_entries kind message !! k_raw_response = None).
  { unfold error_entries. rewrite !lookup_insert_ne by (vm_compute; discriminate).
    apply lookup_empty. }
  unfold error_report, error_lines. rewrite Hm, Hr. cbn [default from_option eq_str].
  change (id (JStr message)) with (JStr message). cbn [py_format].
  destruct (text_eqb kind (of_string "NO_API_KEY")) eqn:E1.
  { split; [eexists; reflexivity |]. intros N. apply text_eqb_eq in E1. contradiction. }
  destruct (text_eqb kind (of_string "JSON_PARSE_ERROR")) eqn:E2.
  { split; [eexists; reflexivity |]. intros _ N. apply text_eqb_eq in E2. contradiction. }
  split; [eexists; reflexivity |]. intros _ _. reflexivity.
Qed.

Lemma own_error_records_are_rendered_witness :
  error_report no_str (error_entries (of_string "NO_FILES")
                         (of_string "No valid code files to review"))
    (JStr (of_string "NO_FILES"))
  = Some (join nl (banner
                   ++ [[10060%N] ++ of_string " Error: No valid code files to review"]
                   ++ footer)).
Proof.
  apply (own_error_records_are_rendered no_str (of_string "NO_FILES")
           (of_string "No valid code files to review"));
    vm_compute; discriminate.
Defined.

(** X26.  The report of a reply that does not decode previews the reply:
    the record that [parse_json_response] returns on a [JSONDecodeError] is
    rendered without raising, and the report shows the decoder's message
    and, under "Raw response preview:", the first 200 characters of the
    trimmed reply followed by three dots. *)
Theorem parse_error_report_previews_reply (py : interpreter) (py_str : json -> text)
    (response_text msg doc : text) (pos : nat) :
  json_loads py (pre_decode response_text) = Raise (JSONDecodeError msg doc pos) ->
  exists m,
    parse_json_response py response_text = Ok (JObj m)
    /\ m !! k_error = Some (JStr (of_string "JSON_PARSE_ERROR"))
    /\ error_report py_str m (JStr (of_string "JSON_PARSE_ERROR"))
       = Some (join nl (banner
                        ++ [ [9888%N; 65039%N] ++ of_string " Response Parse Error";
                             [];
                             of_string "Failed to parse response: "
                               ++ decode_error_str msg doc pos;
                             [];
                             of_string "Raw response preview:";
                             take 200 (pre_decode response_text) ++ of_string "..." ]
                        ++ footer)).
Proof.
  intros H. eexists. split.
  { unfold parse_json_response. fold (pre_decode response_text). rewrite H. reflexivity. }
  split; [apply lookup_insert_eq |].
  unfold error_report, error_lines.
  rewrite (lookup_insert_ne _ k_error k_message) by (vm_compute; discriminate).
  rewrite (lookup_insert_eq _ k_message).
  rewrite (lookup_insert_ne _ k_error k_raw_response) by (vm_compute; discriminate).
  rewrite (lookup_insert_ne _ k_message k_raw_response) by (vm_compute; discriminate).
  rewrite (lookup_insert_eq _ k_raw_response).
  cbn [default from_option py_slice_plus mbind option_bind].
  rewrite take_take. change (200 `min` 500) with 200.
  reflexivity.
Qed.

Lemma parse_error_report_previews_reply_witness :
  exists m,
    parse_json_response cpython not_json_reply = Ok (JObj m)
    /\ m !! k_error = Some (JStr (of_string "JSON_PARSE_ERROR"))
    /\ error_report no_str m (JStr (of_string "JSON_PARSE_ERROR"))
       = Some (join nl (banner
                        ++ [ [9888%N; 65039%N] ++ of_string " Response Parse Error";
                             [];
                             of_string "Failed to parse response: "
                               ++ decode_error_str (of_string "Expecting value")
                                    not_json_reply 0;
                             [];
                             of_string "Raw response preview:";
                             take 200 (pre_decode not_json_reply) ++ of_string "..." ]
                        ++ footer)).
Proof.
  apply (parse_error_report_previews_reply cpython no_str not_json_reply
           (of_string "Expecting value") not_json_reply 0).
  vm_compute. reflexivity.
Defined.

(** X27.  When the decoder rejects the text left after fence stripping and
    trimming with a [JSONDecodeError], [parse_json_response] returns the
    error record of kind [JSON_PARSE_ERROR] whose message is the decoder's
    error text (after the fixed prefix) and whose raw excerpt is the first
    500 characters of that text: at most 500 characters, and non-empty when
    the text is non-empty.  The reply [not json at all] is such a text. *)
Theorem decode_error_gives_the_error_record (py : interpreter) (response_text msg doc : text) (pos : nat) :
  json_loads py (pre_decode response_text) = Raise (JSONDecodeError msg doc pos) ->
  exists raw,
    parse_json_response py response_text
    = Ok (JObj (<[k_error := JStr (of_string "JSON_PARSE_ERROR")]>
               (<[k_message := JStr (of_string "Failed to parse response: "
                                     ++ decode_error_str msg doc pos)]>
               (<[k_raw_response := JStr raw]> ∅))))
    /\ raw = take 500 (pre_decode response_text)
    /\ length raw <= 500
    /\ (pre_decode response_text <> [] -> raw <> []).
Proof.
  intros H. exists (take 500 (pre_decode response_text)).
  split; [| split; [reflexivity | split]].
  - unfold parse_json_response. fold (pre_decode response_text).
    rewrite H. reflexivity.
  - rewrite length_take. lia.
  - destruct (pre_decode response_text); [congruence | discriminate].
Qed.

Lemma decode_error_gives_the_error_record_witness :
  exists raw,
    parse_json_response cpython not_json_reply
    = Ok (JObj (<[k_error := JStr (of_string "JSON_PARSE_ERROR")]>
               (<[k_message :=
                    JStr (of_string "Failed to parse response: Expecting value: line 1 column 1 (char 0)")]>
               (<[k_raw_response := JStr raw]> ∅))))
    /\ raw = not_json_reply
    /\ length raw <= 500
    /\ (pre_decode not_json_reply <> [] -> raw <> []).
Proof.
  apply (decode_error_gives_the_error_record cpython not_json_reply (of_string "Expecting value") not_json_reply 0).
  vm_compute. reflexivity.
Defined.
(** ** The decoder's budget *)

#[local] Arguments char_eqb : simpl never.
#[local] Arguments is_digit : simpl never.
#[local] Arguments is_json_ws : simpl never.
#[local] Arguments chr : simpl never.

Lemma consed_fine (c : char) (r : outcome (text * text)) (k n : nat) :
  scan_fine r k -> k <= n -> scan_fine (consed c r) n.
Proof.
  destruct r as [[str rest] | e]; simpl; [lia | auto].
Qed.

Lemma scanstring_fine (doc : text) (begin : nat) :
  forall n s, length s <= n -> scan_fine (scanstring doc begin s) (length s).
Proof.
  induction n as [| n IH]; intros s Hn.
  - destruct s; [reflexivity | simpl in Hn; lia].
  - destruct s as [| c s1]; [reflexivity |].
    cbn [scanstring]. unfold decode_error.
    repeat match goal with
      | |- scan_fine (if ?b then _ else _) _ => destruct b
      | |- scan_fine (match ?x with _ => _ end) _ => destruct x
      | |- scan_fine (Raise _) _ => reflexivity
      | |- scan_fine (Ok _) _ => simpl; lia
      | |- scan_fine (consed _ _) _ =>
          eapply consed_fine; [apply IH; simpl in *; lia | simpl; lia]
      end.
Qed.

Lemma skip_ws_length (s : text) : length (skip_ws s) <= length s.
Proof.
  induction s as [| c s IH]; simpl; [lia |].
  destruct (is_json_ws c); simpl; lia.
Qed.

Lemma span_digits_length (s : text) : length (span_digits s).2 <= length s.
Proof.
  induction s as [| c s IH]; simpl; [lia |].
  destruct (is_digit c); simpl; lia.
Qed.

Lemma match_integer_length (s : text) neg ds rest :
  match_integer s = Some (neg, ds, rest) -> length rest < length s.
Proof.
  unfold match_integer.
  destruct s as [| c s]; [discriminate |].
  destruct (char_eqb c (chr "-")).
  - destruct s as [| d s]; [discriminate |].
    destruct (char_eqb d (chr "0")); [intros [= <- <- <-]; simpl; lia |].
    destruct (is_digit d); [| discriminate].
    intros [= <- <- <-]. pose proof (span_digits_length s). simpl. lia.
  - destruct (char_eqb c (chr "0")); [intros [= <- <- <-]; simpl; lia |].
    destruct (is_digit c); [| discriminate].
    intros [= <- <- <-]. pose proof (span_digits_length s). simpl. lia.
Qed.

Lemma match_frac_length (s : text) : length (match_frac s).2 <= length s.
Proof.
  unfold match_frac. destruct s as [| dot [| d s]]; simpl; try lia.
  destruct (char_eqb dot (chr ".") && is_digit d); simpl; [| lia].
  pose proof (span_digits_length s). lia.
Qed.

Lemma match_exp_length (s : text) : length (match_exp s).2 <= length s.
Proof.
  unfold match_exp. destruct s as [| e s]; simpl; [lia |].
  destruct (char_eqb e (chr "e") || char_eqb e (chr "E")); simpl; [| lia].
  destruct s as [| c s]; simpl; [lia |].
  destruct (char_eqb c (chr "-") || char_eqb c (chr "+")).
  - pose proof (span_digits_length s).
    destruct (span_digits s) as [[| d ds] rest]; simpl in *; lia.
  - pose proof (span_digits_length (c :: s)) as H.
    destruct (span_digits (c :: s)) as [[| d ds] rest]; simpl in *; lia.
Qed.

Lemma match_number_length (py : interpreter) (s : text) r rest :
  match_number py s = Some (r, rest) ->
  scan_fine (v ← r; Ok (v, rest)) (length s).
Proof.
  unfold match_number.
  destruct (match_integer s) as [[[neg ds] s1] |] eqn:E; [| discriminate].
  apply match_integer_length in E.
  pose proof (match_frac_length s1) as F.
  destruct (match_frac s1) as [frac s2].
  pose proof (match_exp_length s2) as X.
  destruct (match_exp s2) as [ex s3]. simpl in *.
  destruct frac, ex; intros [= <- <-]; try (simpl; lia).
  unfold int_of_digits.
  destruct ((0 <? int_max_str_digits py) && (int_max_str_digits py <? length ds));
    [reflexivity | simpl; lia].
Qed.

Lemma strip_prefix_length (p s r : text) :
  strip_prefix p s = Some r -> length s = length p + length r.
Proof.
  revert s. induction p as [| x p IH]; intros [| y s]; simpl; try discriminate.
  - intros [= <-]. reflexivity.
  - intros [= <-]. reflexivity.
  - destruct (char_eqb x y); [| discriminate]. intros H. apply IH in H. lia.
Qed.

Lemma match_constant_length (s : text) v rest :
  match_constant s = Some (v, rest) -> length rest < length s.
Proof.
  unfold match_constant.
  repeat match goal with
    | |- context [strip_prefix ?p s] =>
        let E := fresh "E" in
        destruct (strip_prefix p s) eqn:E;
        [apply strip_prefix_length in E; intros [= <- <-]; simpl in E; lia |]
    end.
  discriminate.
Qed.

(** With a budget of twice the remaining length (and one or two more), the
    scanner does not run out of budget, and a scanned value consumes input. *)
Lemma scanner_budget (py : interpreter) (doc : text) :
  forall budget depth s,
    (2 * length s + 1 <= budget -> scan_fine (scan_once py budget depth doc s) (length s))
    /\ (2 * length s + 2 <= budget ->
        forall values, scan_fine (array_loop py budget depth doc s values) (length s))
    /\ (2 * length s + 1 <= budget ->
        forall pairs, scan_fine (object_loop py budget depth doc s pairs) (length s)).
Proof.
  induction budget as [| b IH]; intros depth s.
  - repeat split; intros; lia.
  - split; [| split].
    + intros Hb. destruct s as [| c s1]; [reflexivity |].
      cbn [scan_once]. unfold decode_error.
      destruct (char_eqb c c_quote).
      { pose proof (scanstring_fine doc (pos_of doc (c :: s1)) _ s1 (le_n _)) as F.
        destruct (scanstring doc (pos_of doc (c :: s1)) s1) as [[str rest] | e];
          simpl in *; [lia | exact F]. }
      destruct (char_eqb c (chr "{")).
      { destruct depth as [| d]; [reflexivity |].
        pose proof (skip_ws_length s1) as W.
        destruct (skip_ws s1) as [| c' r] eqn:E; [reflexivity |].
        destruct (char_eqb c' (chr "}")); [simpl in *; lia |].
        destruct (char_eqb c' c_quote); [| reflexivity].
        destruct (IH d r) as (_ & _ & Ho).
        specialize (Ho ltac:(simpl in *; lia) ∅).
        destruct (object_loop py b d doc r ∅) as [[v rest] | e];
          simpl in *; [lia | exact Ho]. }
      destruct (char_eqb c (chr "[")).
      { destruct depth as [| d]; [reflexivity |].
        pose proof (skip_ws_length s1) as W.
        assert (A : forall values, scan_fine (array_loop py b d doc (skip_ws s1) values)
                                             (length (c :: s1))).
        { intros values. destruct (IH d (skip_ws s1)) as (_ & Ha & _).
          specialize (Ha ltac:(simpl in *; lia) values).
          destruct (array_loop py b d doc (skip_ws s1) values) as [[v rest] | e];
            simpl in *; [lia | exact Ha]. }
        destruct (skip_ws s1) as [| c' r] eqn:E; [apply A |].
        destruct (char_eqb c' (chr "]")); [simpl in *; lia | apply A]. }
      destruct (match_constant (c :: s1)) as [[v rest] |] eqn:Ec.
      { apply match_constant_length in Ec. exact Ec. }
      destruct (match_number py (c :: s1)) as [[r rest] |] eqn:En.
      { apply match_number_length in En. exact En. }
      reflexivity.
    + intros Hb values. cbn [array_loop].
      destruct (IH depth s) as (Hs & _ & _). specialize (Hs ltac:(lia)).
      destruct (scan_once py b depth doc s) as [[v rest] | e]; [| exact Hs].
      cbn [mbind outcome_bind fst snd]. simpl in Hs. unfold decode_error.
      pose proof (skip_ws_length rest) as W.
      destruct (skip_ws rest) as [| c r] eqn:E; [reflexivity |].
      destruct (char_eqb c (chr "]")); [simpl in *; lia |].
      destruct (char_eqb c (chr ",")); [| reflexivity].
      pose proof (skip_ws_length r) as W'.
      destruct (IH depth (skip_ws r)) as (_ & Ha & _).
      specialize (Ha ltac:(simpl in *; lia) (values ++ [v])).
      destruct (array_loop py b depth doc (skip_ws r) (values ++ [v])) as [[v' rest'] | e'];
        simpl in *; [lia | exact Ha].
    + intros Hb pairs. cbn [object_loop].
      pose proof (scanstring_fine doc (pos_of doc s - 1) _ s (le_n _)) as F.
      destruct (scanstring doc (pos_of doc s - 1) s) as [[key rest] | e]; [| exact F].
      cbn [mbind outcome_bind fst snd]. simpl in F. unfold decode_error.
      pose proof (skip_ws_length rest) as W.
      destruct (skip_ws rest) as [| colon s1] eqn:E; [reflexivity |].
      destruct (char_eqb colon (chr ":")); [| reflexivity].
      pose proof (skip_ws_length s1) as W1.
      destruct (IH depth (skip_ws s1)) as (Hs & _ & _).
      specialize (Hs ltac:(simpl in *; lia)).
      destruct (scan_once py b depth doc (skip_ws s1)) as [[v rest1] | e1]; [| exact Hs].
      cbn [mbind outcome_bind fst snd]. simpl in Hs.
      pose proof (skip_ws_length rest1) as W2.
      destruct (skip_ws rest1) as [| c r] eqn:E1; [reflexivity |].
      destruct (char_eqb c (chr "}")); [simpl in *; lia |].
      destruct (char_eqb c (chr ",")); [| reflexivity].
      pose proof (skip_ws_length r) as W3.
      destruct (skip_ws r) as [| q r'] eqn:E2; [reflexivity |].
      destruct (char_eqb q c_quote); [| reflexivity].
      destruct (IH depth r') as (_ & _ & Ho).
      specialize (Ho ltac:(simpl in *; lia) (<[key := v]> pairs)).
      destruct (object_loop py b depth doc r' (<[key := v]> pairs)) as [[v' rest'] | e'];
        simpl in *; [lia | exact Ho].
Qed.

(** [json.loads] returns a value or raises [JSONDecodeError],
    [RecursionError] or [ValueError]: the budget of the scanner is never
    exhausted. *)
Lemma json_loads_budget (py : interpreter) (s : text) :
  match json_loads py s with
  | Ok _ => True
  | Raise e => exn_of_decoder e = true
  end.
Proof.
  unfold json_loads, decode_error.
  destruct (starts_with [c_bom] s); [reflexivity |].
  pose proof (skip_ws_length s) as W.
  destruct (scanner_budget py s (2 * length s + 2) (nesting_headroom py) (skip_ws s))
    as (H & _ & _).
  specialize (H ltac:(lia)).
  destruct (scan_once py (2 * length s + 2) (nesting_headroom py) s (skip_ws s))
    as [[v rest] | e].
  - cbn [mbind outcome_bind fst snd]. destruct (skip_ws rest); [exact I | reflexivity].
  - exact H.
Qed.

(** The three ways through [parse_json_response]: the text decodes and the
    outcome is that of the normalization of its value; the decoder raises
    [JSONDecodeError] and the outcome is the parse-error record; or the
    decoder raises [RecursionError] or [ValueError], which is passed on. *)
Lemma parse_json_response_outcomes (py : interpreter) (response_text : text) :
  (exists data,
     json_loads py (pre_decode response_text) = Ok data
     /\ parse_json_response py response_text = normalize data)
  \/ (exists msg doc pos,
        json_loads py (pre_decode response_text) = Raise (JSONDecodeError msg doc pos)
        /\ parse_json_response py response_text
           = Ok (parse_error_result msg doc pos (pre_decode response_text)))
  \/ (exists e,
        (e = RecursionError \/ e = ValueError)
        /\ json_loads py (pre_decode response_text) = Raise e
        /\ parse_json_response py response_text = Raise e).
Proof.
  pose proof (json_loads_budget py (pre_decode response_text)) as B.
  unfold parse_json_response. fold (pre_decode response_text).
  destruct (json_loads py (pre_decode response_text)) as [data | e] eqn:E.
  - left. exists data. split; [reflexivity |].
    rewrite <- E. apply (parse_json_response_decoded py response_text data E).
  - right. destruct e; try discriminate B.
    + right. exists RecursionError. repeat split. left. reflexivity.
    + right. exists ValueError. repeat split. right. reflexivity.
    + left. exists msg, doc, pos. split; reflexivity.
Qed.
